(** * Cosmoglobe sky components: validation layer and frequency-scaling kernels

    A shallow embedding of
      - [cosmoglobe/sky/base_components.py]  (validation of [freq_ref], [amp],
        spectral parameters and the point-source catalog),
      - [cosmoglobe/sky/components.py]       (Synchrotron, Dust, AME, CMB, Radio),
      - [cosmoglobe/sky/components/cmb.py]   (CMB scaling),
      - [cosmoglobe/models/ff.py]            (free-free Gaunt factor).

    Conventions.
      - Python exceptions are values of [exn]; a call that may raise returns a
        [result].  Classes are modules, methods keep their names, and [self]
        is an explicit argument.
      - The validation layer only inspects the Python type, the [shape] and
        the unit of its arguments, so a Quantity is modelled by those.
      - astropy and healpy are external libraries.  Unit conversion is an
        interface ([Astropy]); healpy's [get_nside] is written out on shapes;
        healpy's dipole fit is an interface ([Healpy]).
      - The AME template interpolation only compares, subtracts, multiplies
        and divides: it is modelled over [Q], where it can be run.
      - The power laws, the free-free scaling and the maps of the CMB
        dipole are modelled over [R]: floating-point numbers are read as the
        real numbers they stand for, and [/] is field division (it agrees
        with numpy whenever the divisor is not zero).
      - The dust and CMB scalings are modelled in binary64 up to rounding
        ([Binary64]): an operation keeps the exact result while it is in
        range and overflows to an infinity, underflows to zero or gives NaN
        as IEEE 754 has it.
      - Frequencies are represented by their SI value (Hz), so [.si.value]
        is the identity. *)

From Stdlib Require Import List Bool Arith Lia String Sorted.
From Stdlib Require Import QArith Qminmax.
From Stdlib Require Import Reals Lra.
From Stdlib Require Lqa.
Import ListNotations.

Close Scope Q_scope.
Close Scope R_scope.
Open Scope nat_scope.

(** ** Exceptions and results *)

Inductive exn : Type :=
| TypeError
| ValueError            (* the "shape error" of the validation layer *)
| IndexError
| AttributeError
| UnitConversionError   (* astropy.units.UnitConversionError *)
| UnitsError            (* astropy.units.UnitsError, the "unit error" *)
| NsideError.           (* cosmoglobe.sky._exceptions.NsideError, the "resolution error" *)

Inductive result (A : Type) : Type :=
| Ok (a : A)
| Raise (e : exn).

Arguments Ok {A} a.
Arguments Raise {A} e.

Definition bind {A B : Type} (m : result A) (k : A -> result B) : result B :=
  match m with
  | Ok a => k a
  | Raise e => Raise e
  end.

Notation "x <- m ;; k" := (bind m (fun x => k))
  (at level 61, m at next level, right associativity).
Notation "m ;;; k" := (bind m (fun _ => k))
  (at level 61, right associativity).

Definition succeeds {A : Type} (m : result A) : bool :=
  match m with Ok _ => true | Raise _ => false end.

(** ** Quantities as seen by the validation layer *)

Module Validation.

(** A [Quantity]: the shape of its array and its unit. *)
Record Quantity (Unit : Type) : Type := mkQuantity {
  shape : list nat;
  unit_of : Unit }.

Arguments mkQuantity {Unit} shape unit_of.
Arguments shape {Unit} q.
Arguments unit_of {Unit} q.

(** The two equivalencies the validators pass to [Quantity.to]. *)
Inductive equivalencies (Unit : Type) : Type :=
| spectral
| brightness_temperature (frequency : Quantity Unit).

Arguments spectral {Unit}.
Arguments brightness_temperature {Unit} frequency.

(** What the code uses of astropy.units and of [cosmoglobe.sky._constants]
    (the two default units are constants of a module that is not part of the
    sources at hand).  [Unit.to] converts directly when the units have the
    same physical type and otherwise looks for a route through the
    equivalencies it was given. *)
Class Astropy : Type := {
  Unit : Type;
  directly_convertible : Unit -> Unit -> bool;
  convertible_via : equivalencies Unit -> Unit -> Unit -> bool;
  unit_div : Unit -> Unit -> Unit;
  sr : Unit;
  DEFAULT_OUTPUT_UNIT : Unit;
  DEFAULT_FREQ_UNIT : Unit }.

(** A Python object handed to a validator: [None], a Quantity, or any other
    object, of which the model assumes nothing (it has no [shape]). *)
Inductive pyobj `{Astropy} : Type :=
| PyNone
| PyOther
| PyQuantity (q : Quantity Unit).

(** [o.shape]. *)
Definition shape_attr `{Astropy} (o : pyobj) : result (list nat) :=
  match o with
  | PyQuantity q => Ok (shape q)
  | _ => Raise AttributeError
  end.

(** [tuple[i]]: IndexError when out of range. *)
Definition index (s : list nat) (i : nat) : result nat :=
  match nth_error s i with
  | Some n => Ok n
  | None => Raise IndexError
  end.

Definition ndim (s : list nat) : nat := List.length s.

Definition shape_eqb (s t : list nat) : bool :=
  if list_eq_dec Nat.eq_dec s t then true else false.

(** numpy's broadcasting of two shapes read from the last axis on: two
    lengths go together when they are equal or one of them is 1, and the
    longer shape keeps its leading axes. *)
Fixpoint broadcast_aligned (s t : list nat) : option (list nat) :=
  match s, t with
  | [], _ => Some t
  | _, [] => Some s
  | a :: s', b :: t' =>
      match broadcast_aligned s' t' with
      | Some r =>
          if a =? b then Some (a :: r)
          else if a =? 1 then Some (b :: r)
          else if b =? 1 then Some (a :: r)
          else None
      | None => None
      end
  end.

(** [np.broadcast_shapes(s, t)]; [None] stands for the ValueError "operands
    could not be broadcast together". *)
Definition broadcast_shapes (s t : list nat) : option (list nat) :=
  option_map (@rev nat) (broadcast_aligned (rev s) (rev t)).

(** [Quantity.to(unit, equivalencies=e)].  astropy first looks for a plain
    scaling between the units; failing that it looks for a route through the
    equivalencies and raises UnitConversionError when there is none.  The
    route of [spectral()] works on each entry by itself.  The route of
    [brightness_temperature(frequency)] divides the array by a factor computed
    from [frequency], an array of the shape of [frequency]: numpy broadcasts
    the two and raises ValueError when their shapes do not go together. *)
Definition Quantity_to `{Astropy} (q : Quantity Unit) (target : Unit)
    (e : equivalencies Unit) : result (Quantity Unit) :=
  if directly_convertible (unit_of q) target
  then Ok (mkQuantity (shape q) target)
  else if convertible_via e (unit_of q) target
  then
    match e with
    | spectral => Ok (mkQuantity (shape q) target)
    | brightness_temperature frequency =>
        match broadcast_shapes (shape q) (shape frequency) with
        | Some s => Ok (mkQuantity s target)
        | None => Raise ValueError
        end
    end
  else Raise UnitConversionError.

(** *** healpy.pixelfunc *)

Module hp.

(** [isnpixok]: [nside = sqrt(npix / 12.0); nside == floor(nside)]. *)
Definition isnpixok (npix : nat) : bool :=
  (npix mod 12 =? 0) && (Nat.sqrt (npix / 12) * Nat.sqrt (npix / 12) =? npix / 12).

Arguments isnpixok : simpl never.

Definition npix2nside (npix : nat) : result nat :=
  if isnpixok npix then Ok (Nat.sqrt (npix / 12)) else Raise ValueError.

(** [maptype m], on the shape of [m]: a scalar has no [len], a map of length
    zero is refused, [len(m[0])] exists when [m] has two axes or more. *)
Definition maptype (s : list nat) : result nat :=
  match s with
  | [] => Raise TypeError
  | 0 :: _ => Raise TypeError
  | n :: [] => if isnpixok n then Ok 0 else Raise TypeError
  | n :: npix :: _ => if isnpixok npix then Ok n else Raise TypeError
  end.

Definition get_nside (s : list nat) : result nat :=
  typ <- maptype s ;;
  if typ =? 0 then (n <- index s 0 ;; npix2nside n)
  else (n <- index s 1 ;; npix2nside n).

End hp.

(** *** SkyComponent *)

Module SkyComponent.

(** The attributes [__init__] stores before it validates. *)
Record t `{Astropy} : Type := mk {
  amp : pyobj;
  freq_ref : pyobj;
  spectral_parameters : list (string * pyobj) }.

Definition _validate_freq_ref `{Astropy} (freq_ref : pyobj) : result unit :=
  match freq_ref with
  | PyQuantity q =>
      if negb (shape_eqb (shape q) [1; 1] || shape_eqb (shape q) [3; 1])
      then Raise ValueError
      else
        match Quantity_to q DEFAULT_FREQ_UNIT spectral with
        | Ok _ => Ok tt
        | Raise UnitConversionError => Raise UnitsError
        | Raise e => Raise e
        end
  | _ => Raise TypeError
  end.

Definition __init__ `{Astropy} (amp freq_ref : pyobj)
    (spectral_parameters : list (string * pyobj)) : result t :=
  let self := mk _ amp freq_ref spectral_parameters in
  _validate_freq_ref freq_ref ;;;
  Ok self.

End SkyComponent.

(** *** DiffuseComponent *)

(** [hp.get_nside(amp)] inside [try ... except TypeError: raise NsideError]. *)
Definition checked_nside (s : list nat) : result nat :=
  match hp.get_nside s with
  | Ok n => Ok n
  | Raise TypeError => Raise NsideError
  | Raise e => Raise e
  end.

(** [x.to(DEFAULT_OUTPUT_UNIT, equivalencies=brightness_temperature(freq_ref))]
    inside [try ... except UnitConversionError: raise UnitsError]; the
    ValueError of a failed broadcast is not caught. *)
Definition checked_output_unit `{Astropy} (u : Unit) (s : list nat)
    (fr : Quantity Unit) : result unit :=
  match Quantity_to (mkQuantity s u) DEFAULT_OUTPUT_UNIT (brightness_temperature fr) with
  | Ok _ => Ok tt
  | Raise UnitConversionError => Raise UnitsError
  | Raise e => Raise e
  end.

Module DiffuseComponent.

Definition _validate_amp `{Astropy} (self : SkyComponent.t) (amp : pyobj)
    : result unit :=
  match amp with
  | PyQuantity a =>
      checked_nside (shape a) ;;;
      match SkyComponent.freq_ref self with
      | PyNone => Ok tt
      | freq_ref =>
          a0 <- index (shape a) 0 ;;
          freq_ref_shape <- shape_attr freq_ref ;;
          f0 <- index freq_ref_shape 0 ;;
          if negb (a0 =? f0) then Raise ValueError
          else
            match freq_ref with
            | PyQuantity fr => checked_output_unit (unit_of a) (shape a) fr
            | _ => Raise AttributeError
            end
      end
  | _ => Raise TypeError
  end.

(** The body of the loop of [_validate_spectral_parameters], for one entry. *)
Definition validate_parameter `{Astropy} (self : SkyComponent.t)
    (parameter : pyobj) : result unit :=
  match parameter with
  | PyQuantity p =>
      if ndim (shape p) <? 2 then Raise ValueError
      else
        p0 <- index (shape p) 0 ;;
        amp_shape <- shape_attr (SkyComponent.amp self) ;;
        a0 <- index amp_shape 0 ;;
        if negb (p0 =? a0) then Raise ValueError
        else
          p1 <- index (shape p) 1 ;;
          if 1 <? p1 then checked_nside (shape p) ;;; Ok tt
          else Ok tt
  | _ => Raise TypeError
  end.

Fixpoint _validate_spectral_parameters `{Astropy} (self : SkyComponent.t)
    (spectral_parameters : list (string * pyobj)) : result unit :=
  match spectral_parameters with
  | [] => Ok tt
  | (_, parameter) :: rest =>
      validate_parameter self parameter ;;;
      _validate_spectral_parameters self rest
  end.

Definition __init__ `{Astropy} (amp freq_ref : pyobj)
    (spectral_parameters : list (string * pyobj)) : result SkyComponent.t :=
  self <- SkyComponent.__init__ amp freq_ref spectral_parameters ;;
  _validate_amp self amp ;;;
  _validate_spectral_parameters self spectral_parameters ;;;
  Ok self.

End DiffuseComponent.

(** *** PointSourceComponent *)

Module PointSourceComponent.

Definition _validate_amp `{Astropy} (self : SkyComponent.t) (amp : pyobj)
    : result unit :=
  match amp with
  | PyQuantity a =>
      a0 <- index (shape a) 0 ;;
      freq_ref_shape <- shape_attr (SkyComponent.freq_ref self) ;;
      f0 <- index freq_ref_shape 0 ;;
      if negb (a0 =? f0) then Raise ValueError
      else
        match SkyComponent.freq_ref self with
        | PyQuantity fr => checked_output_unit (unit_div (unit_of a) sr) (shape a) fr
        | _ => Raise AttributeError
        end
  | _ => Raise TypeError
  end.

Definition validate_parameter `{Astropy} (self : SkyComponent.t)
    (parameter : pyobj) : result unit :=
  match parameter with
  | PyQuantity p =>
      if ndim (shape p) <? 2 then Raise ValueError
      else
        p0 <- index (shape p) 0 ;;
        amp_shape <- shape_attr (SkyComponent.amp self) ;;
        a0 <- index amp_shape 0 ;;
        if negb (p0 =? a0) then Raise ValueError else Ok tt
  | _ => Raise TypeError
  end.

Fixpoint _validate_spectral_parameters `{Astropy} (self : SkyComponent.t)
    (spectral_parameters : list (string * pyobj)) : result unit :=
  match spectral_parameters with
  | [] => Ok tt
  | (_, parameter) :: rest =>
      validate_parameter self parameter ;;;
      _validate_spectral_parameters self rest
  end.

(** [catalog] is the shape of the ndarray the class declares. *)
Definition _validate_catalog `{Astropy} (self : SkyComponent.t) (catalog : list nat)
    : result unit :=
  c1 <- index catalog 1 ;;
  amp_shape <- shape_attr (SkyComponent.amp self) ;;
  a1 <- index amp_shape 1 ;;
  if negb (c1 =? a1) then Raise ValueError else Ok tt.

(** [catalog] is a class attribute: [None] stands for a class without one,
    which makes [self.catalog] raise AttributeError.  The [try] re-raises an
    AttributeError and lets every other exception through. *)
Definition __init__ `{Astropy} (catalog : option (list nat))
    (amp freq_ref : pyobj) (spectral_parameters : list (string * pyobj))
    : result SkyComponent.t :=
  self <- SkyComponent.__init__ amp freq_ref spectral_parameters ;;
  _validate_amp self amp ;;;
  match catalog with
  | Some c => _validate_catalog self c
  | None => Raise AttributeError
  end ;;;
  _validate_spectral_parameters self spectral_parameters ;;;
  Ok self.

End PointSourceComponent.

End Validation.

(** ** AME: spinning-dust template interpolation ([components.py]) *)

Module AME.

Local Open Scope Q_scope.

Definition Qltb (x y : Q) : bool := negb (Qle_bool y x).

Definition GHz (v : Q) : Q := v * 1000000000.

(** The value [_get_freq_scaling] returns: the scalar
    [Quantity(0, dimensionless_unscaled)] of the early return, or an array
    with one entry per entry of [nu_p]. *)
Inductive ndvalue : Type :=
| Scalar (v : Q)
| Array (vs : list Q).

(** [self.spdust2], the 2 x K array built in [__init__], kept by columns:
    [spdust2[0]] are the frequencies and [spdust2[1]] the amplitudes. *)
Definition template : Type := list (Q * Q).

Definition row0 (spdust2 : template) : list Q := map fst spdust2.
Definition row1 (spdust2 : template) : list Q := map snd spdust2.

Module np.

(** [np.min], [np.max]: ValueError on an empty array. *)
Definition min (a : list Q) : result Q :=
  match a with
  | [] => Raise ValueError
  | x :: rest => Ok (fold_left Qmin rest x)
  end.

Definition max (a : list Q) : result Q :=
  match a with
  | [] => Raise ValueError
  | x :: rest => Ok (fold_left Qmax rest x)
  end.

(** The search of [np.interp] for increasing [xp], with [(x0, y0)] the sample
    point it has reached: it stops at the first interval
    [x0 <= x < x1], returns [fp] itself at a sample point and otherwise
    [slope * (x - x0) + y0]; past the last sample point it returns the last
    [fp]. *)
Fixpoint interp_from (x x0 y0 : Q) (rest : template) : Q :=
  match rest with
  | [] => y0
  | (x1, y1) :: rest' =>
      if Qltb x x1 then
        if Qeq_bool x0 x then y0
        else ((y1 - y0) / (x1 - x0)) * (x - x0) + y0
      else interp_from x x1 y1 rest'
  end.

Definition interp_points (x : Q) (points : template) : result Q :=
  match points with
  | [] => Raise ValueError
  | (x0, y0) :: rest =>
      if Qltb x x0 then Ok y0 else Ok (interp_from x x0 y0 rest)
  end.

(** [np.interp(x, xp, fp)]: ValueError when [xp] and [fp] differ in length
    or are empty; below the first sample point the first [fp]. *)
Definition interp (x : Q) (xp fp : list Q) : result Q :=
  if negb (List.length xp =? List.length fp)%nat then Raise ValueError
  else interp_points x (combine xp fp).

End np.

Fixpoint mapM {A B : Type} (f : A -> result B) (l : list A) : result (list B) :=
  match l with
  | [] => Ok []
  | a :: rest => b <- f a ;; bs <- mapM f rest ;; Ok (b :: bs)
  end.

Fixpoint divide (a b : list Q) : list Q :=
  match a, b with
  | x :: a', y :: b' => x / y :: divide a' b'
  | _, _ => []
  end.

(** [AME._get_freq_scaling(freq, freq_ref, nu_p)] for one frequency [freq],
    one reference frequency and the entries of [nu_p] (one per pixel, or a
    single one), all in Hz. *)
Definition _get_freq_scaling (spdust2 : template) (freq freq_ref : Q)
    (nu_p : list Q) : result ndvalue :=
  let peak_scale := map (fun p => GHz 30 / p) nu_p in
  lo <- np.min (row0 spdust2) ;;
  hi <- np.max (row0 spdust2) ;;
  if negb (forallb (fun s => Qltb lo (freq * s) && Qltb (freq * s) hi) peak_scale)
  then Ok (Scalar 0)
  else
    interp <-
      mapM (fun s => np.interp (freq * s) (row0 spdust2) (row1 spdust2)) peak_scale ;;
    interp_ref <-
      mapM (fun s => np.interp (freq_ref * s) (row0 spdust2) (row1 spdust2)) peak_scale ;;
    Ok (Array (divide interp interp_ref)).

End AME.

(** ** binary64 numbers, up to rounding

    The kernels of the dust and CMB scalings leave the range of binary64 for
    inputs the code accepts, so their numbers are modelled with that range:
    a float is a finite number, read as the real number it stands for, an
    infinity or NaN.  An operation returns the exact result when it is in
    range (the rounding to the nearest float is left out), an infinity when
    its magnitude reaches [2^1024 - 2^970], from where rounding to nearest
    overflows, and zero when its magnitude is [2^-1075] or less, where it
    underflows.  The sign of a zero is not kept: where IEEE 754 reads it
    (a non-zero number divided by a zero, a zero raised to a negative odd
    integer) the zero is taken as positive.  numpy warns and does not raise
    on these operations. *)

Module Binary64.

Local Open Scope R_scope.

Inductive float : Type :=
| Finite (r : R)
| Infinity (negative : bool)
| NaN.

Definition overflow_threshold : R := 2 ^ 1024 - 2 ^ 970.
Definition underflow_threshold : R := / 2 ^ 1075.

Definition Rltb (x y : R) : bool := if Rlt_dec x y then true else false.
Definition Reqb (x y : R) : bool := if Req_dec_T x y then true else false.

(** The float an exact result [r] becomes. *)
Definition round (r : R) : float :=
  if Rle_dec overflow_threshold (Rabs r) then Infinity (Rltb r 0)
  else if Rle_dec (Rabs r) underflow_threshold then Finite 0
  else Finite r.

(** [x * y]. *)
Definition mul (x y : float) : float :=
  match x, y with
  | NaN, _ | _, NaN => NaN
  | Finite a, Finite b => round (a * b)
  | Infinity s, Finite b | Finite b, Infinity s =>
      if Reqb b 0 then NaN else Infinity (xorb s (Rltb b 0))
  | Infinity s, Infinity s' => Infinity (xorb s s')
  end.

(** [x / y] on arrays: a division by zero gives an infinity or NaN. *)
Definition div (x y : float) : float :=
  match x, y with
  | NaN, _ | _, NaN => NaN
  | Finite a, Finite b =>
      if Reqb b 0 then (if Reqb a 0 then NaN else Infinity (Rltb a 0))
      else round (a / b)
  | Finite _, Infinity _ => Finite 0
  | Infinity s, Finite b => Infinity (xorb s (Rltb b 0))
  | Infinity _, Infinity _ => NaN
  end.

(** [x - y]. *)
Definition sub (x y : float) : float :=
  match x, y with
  | NaN, _ | _, NaN => NaN
  | Finite a, Finite b => round (a - b)
  | Finite _, Infinity s => Infinity (negb s)
  | Infinity s, Finite _ => Infinity s
  | Infinity s, Infinity s' => if Bool.eqb s s' then NaN else Infinity s
  end.

(** [np.exp]. *)
Definition exp (x : float) : float :=
  match x with
  | Finite r => round (Rtrigo_def.exp r)
  | Infinity false => Infinity false
  | Infinity true => Finite 0
  | NaN => NaN
  end.

(** [np.expm1]. *)
Definition expm1 (x : float) : float :=
  match x with
  | Finite r => round (Rtrigo_def.exp r - 1)
  | Infinity false => Infinity false
  | Infinity true => Finite (-1)
  | NaN => NaN
  end.

(** [x ** 2]: numpy evaluates a power with the scalar exponent 2 as
    [x * x]. *)
Definition square (x : float) : float := mul x x.

Definition is_integer (y : R) : bool := Reqb y (IZR (Int_part y)).
Definition is_odd_integer (y : R) : bool := is_integer y && Z.odd (Int_part y).

(** [x ** y] with an array for exponent, the [pow] of C: 1 for a base of 1
    or an exponent of zero whatever the other operand, NaN for a negative
    base with an exponent that is no integer. *)
Definition pow (x y : float) : float :=
  match x, y with
  | Finite a, Finite b =>
      if Reqb b 0 then Finite 1
      else if Reqb a 1 then Finite 1
      else if Rltb 0 a then round (Rpower a b)
      else if Reqb a 0 then (if Rltb b 0 then Infinity false else Finite 0)
      else if is_integer b
           then round ((if is_odd_integer b then -1 else 1) * Rpower (- a) b)
           else NaN
  | Finite a, Infinity negative =>
      if Reqb (Rabs a) 1 then Finite 1
      else if Rltb (Rabs a) 1
           then (if negative then Infinity false else Finite 0)
           else (if negative then Finite 0 else Infinity false)
  | Finite a, NaN => if Reqb a 1 then Finite 1 else NaN
  | Infinity s, Finite b =>
      if Reqb b 0 then Finite 1
      else if Rltb b 0 then Finite 0
      else Infinity (s && is_odd_integer b)
  | Infinity _, Infinity negative => if negative then Finite 0 else Infinity false
  | Infinity _, NaN => NaN
  | NaN, Finite b => if Reqb b 0 then Finite 1 else NaN
  | NaN, _ => NaN
  end.

End Binary64.

(** ** Numeric kernels *)

Module Kernels.

Local Open Scope R_scope.

(** Planck's constant, the speed of light, Boltzmann's constant and the CMB
    temperature, from [astropy.constants] and [cosmoglobe.sky._constants];
    all that is used of them is that they are positive. *)
Class Constants : Type := {
  h : R;
  c : R;
  k_B : R;
  T_0 : R;
  h_pos : 0 < h;
  c_pos : 0 < c;
  k_B_pos : 0 < k_B;
  T_0_pos : 0 < T_0 }.

(** *** Arrays *)

(** An array: its dtype, its shape and its entries, read as real numbers. *)
Inductive dtype : Type := float32 | float64.

Record ndarray : Type := mkArray {
  dt : dtype;
  shape : list nat;
  data : list R }.

Module np.

Definition expm1 (x : R) : R := exp x - 1.
Definition e : R := exp 1.

(** [np.expand_dims(a, axis=0)]. *)
Definition expand_dims (a : ndarray) : ndarray :=
  mkArray (dt a) (1%nat :: shape a) (data a).

End np.

(** [a.astype(d)]: every float32 is a float64, so the values are kept. *)
Definition astype (a : ndarray) (d : dtype) : ndarray :=
  mkArray d (shape a) (data a).

(** A ufunc applied to an array and Python scalars: the dtype of the array
    is kept. *)
Definition elementwise (f : R -> R) (a : ndarray) : ndarray :=
  mkArray (dt a) (shape a) (map f (data a)).

Definition promote (d1 d2 : dtype) : dtype :=
  match d1, d2 with
  | float32, float32 => float32
  | _, _ => float64
  end.

Fixpoint zip_with (f : R -> R -> R) (a b : list R) : list R :=
  match a, b with
  | x :: a', y :: b' => f x y :: zip_with f a' b'
  | _, _ => []
  end.

(** [a / b] for two arrays of one shape. *)
Definition true_divide (a b : ndarray) : ndarray :=
  mkArray (promote (dt a) (dt b)) (shape a) (zip_with Rdiv (data a) (data b)).

(** *** Power laws ([components.py]) *)

Module Synchrotron.

Definition _get_freq_scaling (freq freq_ref beta : R) : R :=
  Rpower (freq / freq_ref) beta.

End Synchrotron.

Module Radio.

Definition _get_freq_scaling (freq freq_ref specind : R) : R :=
  Rpower (freq / freq_ref) (specind - 2).

End Radio.

(** *** Modified blackbody ([components.py]) *)

Module F.

(** Modelled from the spec: [cosmoglobe.utils.functions.blackbody_emission],
    which [Dust._get_freq_scaling] calls, is not among the sources; the spec
    has it as the Planck blackbody spectral radiance at temperature [T],
    [2 h freq^3 / (c^2 (exp(h freq / (k_B T)) - 1))], evaluated through
    [expm1].  It is evaluated in binary64. *)
Definition blackbody_emission `{Constants} (freq T : Binary64.float) : Binary64.float :=
  let x := Binary64.div (Binary64.mul (Binary64.Finite h) freq)
             (Binary64.mul (Binary64.Finite k_B) T) in
  Binary64.div
    (Binary64.mul (Binary64.mul (Binary64.Finite 2) (Binary64.Finite h))
       (Binary64.pow freq (Binary64.Finite 3)))
    (Binary64.mul (Binary64.square (Binary64.Finite c)) (Binary64.expm1 x)).

End F.

Module Dust.

(** [Dust._get_freq_scaling], in binary64. *)
Definition _get_freq_scaling `{Constants} (freq freq_ref beta T : Binary64.float)
    : Binary64.float :=
  let blackbody_ratio :=
    Binary64.div (F.blackbody_emission freq T) (F.blackbody_emission freq_ref T) in
  Binary64.mul
    (Binary64.pow (Binary64.div freq freq_ref) (Binary64.sub beta (Binary64.Finite 2)))
    blackbody_ratio.

End Dust.

(** *** Free-free ([models/ff.py]) *)

Definition gaunt (nu T_e : R) : R :=
  ln (exp (5.96 - (sqrt 3 / PI) * ln (nu * Rpower (T_e * 1e-4) (-1.5))) + np.e).

(** [gaunt_factor(nu, T_e)] with [nu] a Python number and [T_e] an array. *)
Definition gaunt_factor (nu : R) (T_e : ndarray) : ndarray :=
  elementwise (gaunt nu) T_e.

(** [LinearOpticallyThin._get_freq_scaling(nu, T_e)]; [nu_ref] is
    [self.params['nu_ref'].si.value]. *)
Module LinearOpticallyThin.

Definition _get_freq_scaling (nu_ref nu : R) (T_e : ndarray) : ndarray :=
  let T_e := astype T_e float64 in
  let scaling := true_divide (gaunt_factor nu T_e) (gaunt_factor nu_ref T_e) in
  elementwise (fun s => s * (nu_ref / nu) ^ 2) scaling.

End LinearOpticallyThin.

(** The formula of the free-free section of the specification. *)
Definition Gaunt_spec (nu Te : R) : R :=
  ln (exp (5.96 - (sqrt 3 / PI) * ln (nu * Rpower (Te * 1e-4) (-1.5))) + exp 1).

Definition freefree_scaling_spec (freq_ref freq Te : R) : R :=
  (freq_ref / freq) ^ 2 * (Gaunt_spec freq Te / Gaunt_spec freq_ref Te).

(** *** CMB ([components/cmb.py]) *)



Module CMB.


End CMB.


End Kernels.

(** ** CMB: the solar dipole ([components.py]) *)

Module Dipole.

Local Open Scope R_scope.

(** [healpy.remove_dipole(m, gal_cut=g)] with its default [copy=True]: a
    function of the map and the cut that leaves its argument alone and
    returns a map with as many pixels. *)
Class Healpy : Type := {
  hp_remove_dipole : list R -> R -> list R;
  hp_remove_dipole_length :
    forall m g, List.length (hp_remove_dipole m g) = List.length m }.

Module CMB.

(** The state of a CMB object: the rows of [amp] (one per Stokes parameter)
    and the attribute [dipole], which does not exist until [remove_dipole]
    creates it.  [get_dipole] hands out the stored array itself, not a copy;
    the methods never write into it. *)
Record t : Type := mk {
  amp : list (list R);
  dipole : option (list R) }.

Definition warning : Type := string.

(** Methods read and write [self] and may warn or raise. *)
Definition method (A : Type) : Type := t -> result (A * list warning * t).

Definition ret {A : Type} (a : A) : method A :=
  fun self => Ok (a, [], self).

Definition mbind {A B : Type} (m : method A) (k : A -> method B) : method B :=
  fun self =>
    match m self with
    | Ok (a, w, self') =>
        match k a self' with
        | Ok (b, w', self'') => Ok (b, w ++ w', self'')
        | Raise e => Raise e
        end
    | Raise e => Raise e
    end.

Definition get_self : method t := fun self => Ok (self, [], self).
Definition put_self (s : t) : method unit := fun _ => Ok (tt, [], s).
Definition warn (msg : warning) : method unit := fun self => Ok (tt, [msg], self).
Definition raise {A : Type} (e : exn) : method A := fun _ => Raise e.

Notation "x <~ m ;; k" := (mbind m (fun x => k))
  (at level 61, m at next level, right associativity).
Notation "m >> k" := (mbind m (fun _ => k))
  (at level 61, right associativity).

Fixpoint subtract (a b : list R) : list R :=
  match a, b with
  | x :: a', y :: b' => x - y :: subtract a' b'
  | _, _ => []
  end.

Fixpoint add (a b : list R) : list R :=
  match a, b with
  | x :: a', y :: b' => x + y :: add a' b'
  | _, _ => []
  end.

(** [self.amp[0]]. *)
Definition amp0 : method (list R) :=
  self <~ get_self ;;
  match amp self with
  | row :: _ => ret row
  | [] => raise IndexError
  end.

(** [self.amp[0] = row]. *)
Definition set_amp0 (row : list R) : method unit :=
  self <~ get_self ;;
  match amp self with
  | _ :: rest => put_self (mk (row :: rest) (dipole self))
  | [] => raise IndexError
  end.

Definition set_dipole (d : list R) : method unit :=
  self <~ get_self ;;
  put_self (mk (amp self) (Some d)).

Definition overriding_gal_cut : warning :=
  "Returning previously removed dipole signal (overriding gal_cut)."%string.

(** [CMB.get_dipole(gal_cut)]; [gal_cut] is the [.value] of the angle the
    decorator has let through. *)
Definition get_dipole `{Healpy} (gal_cut : R) : method (list R) :=
  self <~ get_self ;;
  match dipole self with
  | Some d => warn overriding_gal_cut >> ret d
  | None =>
      m <~ amp0 ;;
      let amp_without_dipole := hp_remove_dipole m gal_cut in
      m' <~ amp0 ;;
      ret (subtract m' amp_without_dipole)
  end.

(** [CMB.remove_dipole(gal_cut)]. *)
Definition remove_dipole `{Healpy} (gal_cut : R) : method unit :=
  m <~ amp0 ;;
  let amp_without_dipole := hp_remove_dipole m gal_cut in
  m' <~ amp0 ;;
  set_dipole (subtract m' amp_without_dipole) >>
  set_amp0 amp_without_dipole.

End CMB.

End Dipole.

(** ** Concrete instances of the interfaces *)

(** A fragment of astropy's units, enough to run the validators: units are
    convertible directly when they have the same physical type, [spectral()]
    relates frequency and wavelength, and [brightness_temperature(f)] relates
    surface brightness and temperature. *)
Module AstropyFragment.

Import Validation.

Inductive unit_name : Type :=
| GHz | Hz | micron | K | uK | Jy | mJy | steradian
| per (a b : unit_name).

Inductive physical_type : Type :=
| frequency | wavelength | temperature | spectral_flux_density
| surface_brightness | solid_angle | composite (a b : unit_name).

Fixpoint physical_type_of (u : unit_name) : physical_type :=
  match u with
  | GHz | Hz => frequency
  | micron => wavelength
  | K | uK => temperature
  | Jy | mJy => spectral_flux_density
  | steradian => solid_angle
  | per a b =>
      match physical_type_of a, physical_type_of b with
      | spectral_flux_density, solid_angle => surface_brightness
      | _, _ => composite a b
      end
  end.

Definition unit_name_eq_dec (a b : unit_name) : {a = b} + {a <> b}.
Proof. decide equality. Defined.

Definition physical_type_eq_dec (a b : physical_type) : {a = b} + {a <> b}.
Proof. decide equality; apply unit_name_eq_dec. Defined.

Definition same_physical_type (a b : unit_name) : bool :=
  if physical_type_eq_dec (physical_type_of a) (physical_type_of b)
  then true else false.

Definition via (e : equivalencies unit_name) (a b : unit_name) : bool :=
  match e, physical_type_of a, physical_type_of b with
  | spectral, frequency, wavelength => true
  | spectral, wavelength, frequency => true
  | brightness_temperature _, surface_brightness, temperature => true
  | brightness_temperature _, temperature, surface_brightness => true
  | _, _, _ => false
  end.

Definition units : Astropy := {|
  Unit := unit_name;
  directly_convertible := same_physical_type;
  convertible_via := via;
  unit_div := per;
  sr := steradian;
  DEFAULT_OUTPUT_UNIT := uK;
  DEFAULT_FREQ_UNIT := GHz |}.

End AstropyFragment.

(** * Properties of the validation layer *)

Module ValidationSpec.

Import Validation.

(** The pixel count healpy reads off a shape: the length of the map when it
    has one axis, the length of its rows when it has more; none for a scalar
    and for a sequence of no maps. *)
Definition npix_of (s : list nat) : option nat :=
  match s with
  | [] => None
  | 0 :: _ => None
  | [n] => Some n
  | _ :: npix :: _ => Some npix
  end.

(** The pixel counts healpy takes: [12 * nside ** 2], for any [nside]. *)
Definition valid_npix (npix : nat) : Prop :=
  exists nside, npix = 12 * (nside * nside).

(** The pixel counts of the glossary: [nside] a power of two. *)
Definition power_of_two_npix (npix : nat) : Prop :=
  exists k, npix = 12 * (2 ^ k * 2 ^ k).

Definition healpix_map (s : list nat) : Prop :=
  exists npix, npix_of s = Some npix /\ valid_npix npix.

Definition leading (s : list nat) : option nat := nth_error s 0.
Definition second (s : list nat) : option nat := nth_error s 1.

Section WithAstropy.

Context `{Astropy}.

Definition is_quantity (o : pyobj) : Prop := exists q, o = PyQuantity q.

Definition freq_ref_shape (q : Quantity Unit) : Prop :=
  shape q = [1; 1] \/ shape q = [3; 1].

(** Convertible directly or through the equivalencies [e]. *)
Definition convertible (e : equivalencies Unit) (u target : Unit) : Prop :=
  directly_convertible u target = true \/ convertible_via e u target = true.

(** The shapes numpy broadcasts together. *)
Definition broadcastable (s t : list nat) : Prop :=
  exists r, broadcast_shapes s t = Some r.

(** The conversion of an array of shape [s] and unit [u] to the default
    output unit under [brightness_temperature(fr)] goes through: by a plain
    scaling, or by the equivalence on operands that broadcast. *)
Definition converts (fr : Quantity Unit) (s : list nat) (u : Unit) : Prop :=
  directly_convertible u DEFAULT_OUTPUT_UNIT = true \/
  (convertible_via (brightness_temperature fr) u DEFAULT_OUTPUT_UNIT = true /\
   broadcastable s (shape fr)).

(** The conversion has to take the route of the equivalence and stops in
    numpy: [s] and the shape of [fr] do not broadcast. *)
Definition stops_in_broadcast (fr : Quantity Unit) (s : list nat) (u : Unit) : Prop :=
  directly_convertible u DEFAULT_OUTPUT_UNIT = false /\
  convertible_via (brightness_temperature fr) u DEFAULT_OUTPUT_UNIT = true /\
  ~ broadcastable s (shape fr).

Definition valid_freq_ref (o : pyobj) : Prop :=
  exists q, o = PyQuantity q /\ freq_ref_shape q /\
            convertible spectral (unit_of q) DEFAULT_FREQ_UNIT.

Lemma shape_eqb_true (s t : list nat) : shape_eqb s t = true <-> s = t.
Proof.
  unfold shape_eqb. destruct (list_eq_dec Nat.eq_dec s t); split; congruence.
Qed.

Lemma freq_ref_shape_test (q : Quantity Unit) :
  shape_eqb (shape q) [1; 1] || shape_eqb (shape q) [3; 1] = true
  <-> freq_ref_shape q.
Proof.
  unfold freq_ref_shape. rewrite orb_true_iff, !shape_eqb_true. tauto.
Qed.

(** Through [spectral()] a conversion depends on the units alone. *)
Lemma Quantity_to_ok (q : Quantity Unit) (target : Unit) :
  convertible spectral (unit_of q) target ->
  Quantity_to q target spectral = Ok (mkQuantity (shape q) target).
Proof.
  unfold convertible, Quantity_to. intros [Hc|Hc].
  - now rewrite Hc.
  - rewrite Hc. now destruct (directly_convertible (unit_of q) target).
Qed.

Lemma Quantity_to_raise (q : Quantity Unit) (target : Unit) (e : equivalencies Unit) :
  ~ convertible e (unit_of q) target ->
  Quantity_to q target e = Raise UnitConversionError.
Proof.
  unfold convertible, Quantity_to. intros Hc.
  destruct (directly_convertible (unit_of q) target); [tauto|].
  destruct (convertible_via e (unit_of q) target); [tauto | reflexivity].
Qed.

Lemma convertible_dec (e : equivalencies Unit) (u target : Unit) :
  convertible e u target \/ ~ convertible e u target.
Proof.
  unfold convertible.
  destruct (directly_convertible u target), (convertible_via e u target);
    intuition congruence.
Qed.

Lemma freq_ref_shape_dec (q : Quantity Unit) :
  freq_ref_shape q \/ ~ freq_ref_shape q.
Proof.
  rewrite <- freq_ref_shape_test.
  destruct (shape_eqb (shape q) [1; 1] || shape_eqb (shape q) [3; 1]);
    intuition congruence.
Qed.

(** The outcome of [SkyComponent._validate_freq_ref], case by case. *)
Lemma validate_freq_ref_cases (o : pyobj) :
  (~ is_quantity o /\ SkyComponent._validate_freq_ref o = Raise TypeError) \/
  (exists q, o = PyQuantity q /\ ~ freq_ref_shape q /\
             SkyComponent._validate_freq_ref o = Raise ValueError) \/
  (exists q, o = PyQuantity q /\ freq_ref_shape q /\
             ~ convertible spectral (unit_of q) DEFAULT_FREQ_UNIT /\
             SkyComponent._validate_freq_ref o = Raise UnitsError) \/
  (valid_freq_ref o /\ SkyComponent._validate_freq_ref o = Ok tt).
Proof.
  destruct o as [| |q]; simpl.
  - left. split; [intros [q Hq]; discriminate | reflexivity].
  - left. split; [intros [q Hq]; discriminate | reflexivity].
  - right. destruct (freq_ref_shape_dec q) as [Hs|Hs].
    + right. apply freq_ref_shape_test in Hs as Hb. rewrite Hb. simpl.
      destruct (convertible_dec spectral (unit_of q) DEFAULT_FREQ_UNIT) as [Hc|Hc].
      * right. rewrite (Quantity_to_ok _ _ Hc). split; [|reflexivity].
        exists q. auto.
      * left. rewrite (Quantity_to_raise _ _ _ Hc). exists q. auto.
    + left. exists q. rewrite <- freq_ref_shape_test in Hs.
      apply not_true_is_false in Hs as Hb. rewrite Hb. simpl.
      rewrite freq_ref_shape_test in Hs. auto.
Qed.

Lemma validate_freq_ref_ok (o : pyobj) :
  SkyComponent._validate_freq_ref o = Ok tt <-> valid_freq_ref o.
Proof.
  destruct (validate_freq_ref_cases o)
    as [[Hn He]|[(q & -> & Hs & He)|[(q & -> & Hs & Hc & He)|[Hv He]]]];
    rewrite He; split; try discriminate; try tauto.
  - intros (q & -> & _). exfalso. apply Hn. now exists q.
  - intros (q' & [= <-] & Hs' & _). contradiction.
  - intros (q' & [= <-] & _ & Hc'). contradiction.
Qed.

(** C6.  The base constructor stores its arguments and validates the
    reference frequency, and fails exactly when that validation does: with a
    TypeError iff [freq_ref] is not a Quantity; with a ValueError (the shape
    error) iff it is a Quantity whose shape is neither (1, 1) nor (3, 1);
    with a UnitsError iff it is a Quantity of one of these shapes that cannot
    be converted to the default frequency unit, directly or through the
    spectral equivalence.  Otherwise the validation passes and the component
    is returned; no other exception is raised. *)
Theorem freq_ref_validation (amp freq_ref : pyobj)
    (parameters : list (string * pyobj)) :
  let construction := SkyComponent.__init__ amp freq_ref parameters in
  (construction = Raise TypeError <-> ~ is_quantity freq_ref) /\
  (construction = Raise ValueError <->
     exists q, freq_ref = PyQuantity q /\ ~ freq_ref_shape q) /\
  (construction = Raise UnitsError <->
     exists q, freq_ref = PyQuantity q /\ freq_ref_shape q /\
               ~ convertible spectral (unit_of q) DEFAULT_FREQ_UNIT) /\
  (construction = Ok (SkyComponent.mk _ amp freq_ref parameters) <->
     valid_freq_ref freq_ref) /\
  (SkyComponent._validate_freq_ref freq_ref = Ok tt <-> valid_freq_ref freq_ref) /\
  ((exists e, construction = Raise e) <-> ~ valid_freq_ref freq_ref) /\
  (forall e, construction = Raise e ->
     e = TypeError \/ e = ValueError \/ e = UnitsError).
Proof.
  intros construction. subst construction. unfold SkyComponent.__init__, bind.
  pose proof (validate_freq_ref_ok freq_ref) as Hok.
  destruct (validate_freq_ref_cases freq_ref)
    as [[Hn He]|[(q & Hq & Hs & He)|[(q & Hq & Hs & Hc & He)|[Hv He]]]];
    rewrite He in *; clear He; unfold is_quantity in *;
    try (destruct Hv as (q & Hq & Hs & Hc)); try subst freq_ref;
    repeat split; intros; try discriminate;
    repeat match goal with
           | E : exists _, _ |- _ => destruct E
           | E : _ /\ _ |- _ => destruct E
           | E : PyQuantity _ = PyQuantity _ |- _ => injection E as <-
           | E : Raise _ = Raise _ |- _ => injection E as <-
           | E : valid_freq_ref _ |- _ => apply Hok in E
           end;
    try discriminate; try contradiction; try tauto; eauto 6;
    try (intros E; apply Hok in E; discriminate);
    exfalso; eauto.
Qed.

(** *** healpy's test of a map *)

Lemma isnpixok_iff (npix : nat) : hp.isnpixok npix = true <-> valid_npix npix.
Proof.
  unfold hp.isnpixok, valid_npix. rewrite andb_true_iff, !Nat.eqb_eq. split.
  - intros [Hm Hs]. exists (Nat.sqrt (npix / 12)). rewrite Hs.
    now apply Nat.Div0.div_exact.
  - intros [k ->]. rewrite (Nat.mul_comm 12).
    rewrite Nat.Div0.mod_mul, Nat.div_mul by discriminate.
    now rewrite Nat.sqrt_square.
Qed.

Lemma checked_nside_cases (s : list nat) :
  (healpix_map s /\ exists nside, checked_nside s = Ok nside) \/
  (~ healpix_map s /\ checked_nside s = Raise NsideError).
Proof.
  unfold healpix_map, checked_nside, hp.get_nside.
  destruct s as [|[|n] [|npix rest]]; simpl;
    try (right; split; [intros (? & [=] & _) | reflexivity]).
  - unfold hp.npix2nside. destruct (hp.isnpixok (S n)) eqn:E; simpl.
    + left. split; eauto. apply isnpixok_iff in E. eauto.
    + right. split; [|reflexivity]. intros (? & [= <-] & Hv).
      apply isnpixok_iff in Hv. congruence.
  - unfold hp.npix2nside. destruct (hp.isnpixok npix) eqn:E; simpl.
    + left. split; eauto. apply isnpixok_iff in E. eauto.
    + right. split; [|reflexivity]. intros (? & [= <-] & Hv).
      apply isnpixok_iff in Hv. congruence.
Qed.

Lemma healpix_map_leading (s : list nat) :
  healpix_map s -> exists n, leading s = Some n /\ 0 < n.
Proof.
  intros (npix & Hn & _). destruct s as [|[|n] rest]; try discriminate.
  exists (S n). split; [reflexivity | lia].
Qed.

Lemma valid_freq_ref_leading (o : pyobj) :
  valid_freq_ref o ->
  exists q n, o = PyQuantity q /\ leading (shape q) = Some n /\ (n = 1 \/ n = 3).
Proof.
  intros (q & -> & [Hs|Hs] & _); exists q; unfold leading; rewrite Hs;
    [exists 1 | exists 3]; auto.
Qed.

Lemma index_leading (s : list nat) (n : nat) :
  leading s = Some n -> index s 0 = Ok n.
Proof. unfold leading, index. now intros ->. Qed.

Lemma broadcastable_dec (s t : list nat) : broadcastable s t \/ ~ broadcastable s t.
Proof.
  unfold broadcastable. destruct (broadcast_shapes s t) as [r|].
  - left. now exists r.
  - right. intros [r Hr]. discriminate Hr.
Qed.

Lemma converts_convertible (fr : Quantity Unit) (s : list nat) (u : Unit) :
  converts fr s u -> convertible (brightness_temperature fr) u DEFAULT_OUTPUT_UNIT.
Proof. unfold converts, convertible. tauto. Qed.

Lemma stops_convertible (fr : Quantity Unit) (s : list nat) (u : Unit) :
  stops_in_broadcast fr s u ->
  convertible (brightness_temperature fr) u DEFAULT_OUTPUT_UNIT.
Proof. unfold stops_in_broadcast, convertible. tauto. Qed.

Lemma converts_or_stops (fr : Quantity Unit) (s : list nat) (u : Unit) :
  converts fr s u -> stops_in_broadcast fr s u -> False.
Proof.
  unfold converts, stops_in_broadcast. intros [Hd|[_ Hb]] (Hd' & _ & Hb');
    [congruence | tauto].
Qed.

(** The three outcomes of the checked conversion. *)
Lemma checked_output_unit_cases (u : Unit) (s : list nat) (fr : Quantity Unit) :
  (converts fr s u /\ checked_output_unit u s fr = Ok tt) \/
  (stops_in_broadcast fr s u /\ checked_output_unit u s fr = Raise ValueError) \/
  (~ convertible (brightness_temperature fr) u DEFAULT_OUTPUT_UNIT /\
   checked_output_unit u s fr = Raise UnitsError).
Proof.
  unfold checked_output_unit, Quantity_to, converts, stops_in_broadcast,
    convertible, broadcastable. cbn [shape unit_of].
  destruct (directly_convertible u DEFAULT_OUTPUT_UNIT); [left; auto|].
  destruct (convertible_via (brightness_temperature fr) u DEFAULT_OUTPUT_UNIT).
  - destruct (broadcast_shapes s (shape fr)) as [r|].
    + left. split; [right; split; [reflexivity | now exists r] | reflexivity].
    + right. left. repeat split. intros [r Hr]. discriminate Hr.
  - right. right. split; [|reflexivity]. intros [Hc|Hc]; discriminate Hc.
Qed.

Lemma checked_output_unit_ok (u : Unit) (s : list nat) (fr : Quantity Unit) :
  converts fr s u -> checked_output_unit u s fr = Ok tt.
Proof.
  intros Hc.
  destruct (checked_output_unit_cases u s fr) as [[_ He]|[[Hs _]|[Hn _]]];
    [exact He | |].
  - destruct (converts_or_stops _ _ _ Hc Hs).
  - destruct (Hn (converts_convertible _ _ _ Hc)).
Qed.

(** An array with at most two axes and the leading dimension of a valid
    reference frequency broadcasts against it. *)
Lemma broadcastable_rows (s t : list nat) :
  t = [1; 1] \/ t = [3; 1] -> s <> [] -> ndim s <= 2 ->
  leading s = leading t -> broadcastable s t.
Proof.
  unfold broadcastable, broadcast_shapes, leading, ndim.
  intros Ht Hs Hn Hl. destruct s as [|a [|n [|? ?]]]; simpl in Hn; try lia;
    [contradiction| |].
  - destruct Ht as [-> | ->]; injection Hl as ->; eexists; reflexivity.
  - destruct Ht as [-> | ->]; injection Hl as ->; cbn [rev app broadcast_aligned];
      rewrite Nat.eqb_refl; destruct (n =? 1); eexists; reflexivity.
Qed.

Lemma checked_output_unit_raise (u : Unit) (s : list nat) (fr : Quantity Unit) :
  ~ convertible (brightness_temperature fr) u DEFAULT_OUTPUT_UNIT ->
  checked_output_unit u s fr = Raise UnitsError.
Proof.
  intros Hc. unfold checked_output_unit.
  now rewrite (Quantity_to_raise (mkQuantity s u) _ _ Hc).
Qed.

Lemma checked_output_unit_stops (u : Unit) (s : list nat) (fr : Quantity Unit) :
  stops_in_broadcast fr s u -> checked_output_unit u s fr = Raise ValueError.
Proof.
  intros Hs.
  destruct (checked_output_unit_cases u s fr) as [[Hc _]|[[_ He]|[Hn _]]];
    [| exact He |].
  - destruct (converts_or_stops _ _ _ Hc Hs).
  - destruct (Hn (stops_convertible _ _ _ Hs)).
Qed.

(** Every clause of an outcome table follows from the one case at hand. *)
Ltac outcome_table :=
  repeat split; intros; try discriminate;
  repeat match goal with
         | E : exists _, _ |- _ => destruct E
         | E : _ /\ _ |- _ => destruct E
         | E : PyQuantity _ = PyQuantity _ |- _ => injection E as <-
         | E : Raise _ = Raise _ |- _ => injection E as <-
         end;
  try discriminate; try contradiction; try congruence; try tauto; eauto 8;
  try (exfalso; eauto; fail).

(** The outcome of [DiffuseComponent._validate_amp] once the reference
    frequency has been validated. *)
Lemma diffuse_amp_cases (self : SkyComponent.t) (amp : pyobj)
    (fr : Quantity Unit) :
  SkyComponent.freq_ref self = PyQuantity fr ->
  SkyComponent._validate_freq_ref (SkyComponent.freq_ref self) = Ok tt ->
  (~ is_quantity amp /\ DiffuseComponent._validate_amp self amp = Raise TypeError) \/
  (exists a, amp = PyQuantity a /\ ~ healpix_map (shape a) /\
             DiffuseComponent._validate_amp self amp = Raise NsideError) \/
  (exists a, amp = PyQuantity a /\ healpix_map (shape a) /\
             leading (shape a) <> leading (shape fr) /\
             DiffuseComponent._validate_amp self amp = Raise ValueError) \/
  (exists a, amp = PyQuantity a /\ healpix_map (shape a) /\
             leading (shape a) = leading (shape fr) /\
             stops_in_broadcast fr (shape a) (unit_of a) /\
             DiffuseComponent._validate_amp self amp = Raise ValueError) \/
  (exists a, amp = PyQuantity a /\ healpix_map (shape a) /\
             leading (shape a) = leading (shape fr) /\
             ~ convertible (brightness_temperature fr) (unit_of a) DEFAULT_OUTPUT_UNIT /\
             DiffuseComponent._validate_amp self amp = Raise UnitsError) \/
  (exists a, amp = PyQuantity a /\ healpix_map (shape a) /\
             leading (shape a) = leading (shape fr) /\
             converts fr (shape a) (unit_of a) /\
             DiffuseComponent._validate_amp self amp = Ok tt).
Proof.
  intros Hfr Hok. apply validate_freq_ref_ok, valid_freq_ref_leading in Hok.
  destruct Hok as (q & f0 & Hq & Hf0 & _). rewrite Hfr in Hq. injection Hq as <-.
  destruct amp as [| |a]; simpl;
    try (left; split; [intros [? [=]] | reflexivity]).
  right. destruct (checked_nside_cases (shape a)) as [[Hm [n Hn]]|[Hm Hn]];
    rewrite Hn; simpl; [right | left; eauto].
  rewrite Hfr. destruct (healpix_map_leading _ Hm) as (a0 & Ha0 & _).
  rewrite (index_leading _ _ Ha0), (index_leading _ _ Hf0). simpl.
  destruct (Nat.eqb_spec a0 f0) as [->|Hne]; simpl.
  - right.
    destruct (checked_output_unit_cases (unit_of a) (shape a) fr)
      as [[Hc He]|[[Hc He]|[Hc He]]]; rewrite He.
    + right. right. exists a. rewrite Ha0, Hf0. auto.
    + left. exists a. rewrite Ha0, Hf0. auto.
    + right. left. exists a. rewrite Ha0, Hf0. auto.
  - left. exists a. rewrite Ha0, Hf0. repeat split; auto. congruence.
Qed.

(** C7, as the code has it.  Once the reference frequency is validated,
    [DiffuseComponent._validate_amp] raises a TypeError iff [amp] is not a
    Quantity; an NsideError (the resolution error) iff it is a Quantity whose
    pixel count is not [12 * nside * nside] for some integer [nside] (healpy
    does not ask for a power of two; a scalar and a sequence of no maps have
    no pixel count); a ValueError (the shape error) iff the pixel count is
    valid and either the leading dimension differs from that of [freq_ref],
    or it agrees and the unit, which only converts through
    [brightness_temperature(freq_ref)], meets a shape that numpy cannot
    broadcast against that of [freq_ref]; a UnitsError iff the pixel count is
    valid, the leading dimensions agree and the unit cannot be converted to
    the default output unit, directly or through the equivalence; and it
    succeeds in the one remaining case.  No other exception is raised.  A map
    with at most two axes always broadcasts, so for such a map the ValueError
    is that of the leading dimension alone. *)
Theorem amp_validation (self : SkyComponent.t) (amp : pyobj) (fr : Quantity Unit) :
  SkyComponent.freq_ref self = PyQuantity fr ->
  SkyComponent._validate_freq_ref (SkyComponent.freq_ref self) = Ok tt ->
  let outcome := DiffuseComponent._validate_amp self amp in
  (outcome = Raise TypeError <-> ~ is_quantity amp) /\
  (outcome = Raise NsideError <->
     exists a, amp = PyQuantity a /\ ~ healpix_map (shape a)) /\
  (outcome = Raise ValueError <->
     exists a, amp = PyQuantity a /\ healpix_map (shape a) /\
               (leading (shape a) <> leading (shape fr) \/
                (leading (shape a) = leading (shape fr) /\
                 stops_in_broadcast fr (shape a) (unit_of a)))) /\
  (outcome = Raise UnitsError <->
     exists a, amp = PyQuantity a /\ healpix_map (shape a) /\
               leading (shape a) = leading (shape fr) /\
               ~ convertible (brightness_temperature fr) (unit_of a) DEFAULT_OUTPUT_UNIT) /\
  (outcome = Ok tt <->
     exists a, amp = PyQuantity a /\ healpix_map (shape a) /\
               leading (shape a) = leading (shape fr) /\
               converts fr (shape a) (unit_of a)) /\
  (forall e, outcome = Raise e ->
     e = TypeError \/ e = NsideError \/ e = ValueError \/ e = UnitsError) /\
  (forall a, amp = PyQuantity a -> ndim (shape a) <= 2 ->
     leading (shape a) = leading (shape fr) ->
     broadcastable (shape a) (shape fr) /\ ~ stops_in_broadcast fr (shape a) (unit_of a)).
Proof.
  intros Hfr Hok outcome. subst outcome. unfold is_quantity.
  assert (Hrows : forall a : Quantity Unit, ndim (shape a) <= 2 ->
            leading (shape a) = leading (shape fr) ->
            broadcastable (shape a) (shape fr)).
  { intros a Hn Hl. apply validate_freq_ref_ok in Hok.
    destruct Hok as (q & Hq & Hs & _). rewrite Hfr in Hq. injection Hq as <-.
    apply broadcastable_rows; auto.
    intros E. rewrite E in Hl. unfold leading in Hl.
    destruct Hs as [Hs|Hs]; rewrite Hs in Hl; discriminate Hl. }
  assert (Hlast : forall a, amp = PyQuantity a -> ndim (shape a) <= 2 ->
            leading (shape a) = leading (shape fr) ->
            broadcastable (shape a) (shape fr)
            /\ ~ stops_in_broadcast fr (shape a) (unit_of a)).
  { intros a _ Hn Hl. split; [now apply Hrows|].
    intros (_ & _ & Hb). apply Hb. now apply Hrows. }
  destruct (diffuse_amp_cases self amp fr Hfr Hok)
    as [[Hn He]|[(a & Ha & Hm & He)|[(a & Ha & Hm & Hl & He)
       |[(a & Ha & Hm & Hl & Hc & He)|[(a & Ha & Hm & Hl & Hc & He)
       |(a & Ha & Hm & Hl & Hc & He)]]]]];
    rewrite He; clear He; try subst amp; unfold is_quantity in *;
    try pose proof (stops_convertible _ _ _ Hc) as Hcv;
    try pose proof (converts_convertible _ _ _ Hc) as Hcv;
    try pose proof (converts_or_stops fr (shape a) (unit_of a)) as Hex;
    try pose proof (converts_convertible fr (shape a) (unit_of a)) as Hcc;
    try pose proof (stops_convertible fr (shape a) (unit_of a)) as Hsc;
    (split; [|split; [|split; [|split; [|split; [|split; [|exact Hlast]]]]]]);
    clear Hlast Hrows; outcome_table.
Qed.

Lemma bind_Ok {A B : Type} (a : A) (k : A -> result B) : bind (Ok a) k = k a.
Proof. reflexivity. Qed.

Lemma bind_assoc {A B C : Type} (m : result A) (k : A -> result B)
    (k' : B -> result C) :
  bind (bind m k) k' = bind m (fun a => bind (k a) k').
Proof. now destruct m. Qed.

Lemma diffuse_init_validated (amp freq_ref : pyobj)
    (parameters : list (string * pyobj)) :
  SkyComponent._validate_freq_ref freq_ref = Ok tt ->
  DiffuseComponent.__init__ amp freq_ref parameters
  = (let self := SkyComponent.mk _ amp freq_ref parameters in
     DiffuseComponent._validate_amp self amp ;;;
     DiffuseComponent._validate_spectral_parameters self parameters ;;;
     Ok self).
Proof.
  intros Hfr. unfold DiffuseComponent.__init__, SkyComponent.__init__.
  now rewrite Hfr.
Qed.

(** *** Spectral parameters *)

Lemma diffuse_parameters_app (self : SkyComponent.t)
    (before after : list (string * pyobj)) (name : string) (parameter : pyobj) :
  DiffuseComponent._validate_spectral_parameters self before = Ok tt ->
  DiffuseComponent._validate_spectral_parameters self (before ++ (name, parameter) :: after)
  = (DiffuseComponent.validate_parameter self parameter ;;;
     DiffuseComponent._validate_spectral_parameters self after).
Proof.
  induction before as [|[n p] before IH]; simpl; [reflexivity|].
  destruct (DiffuseComponent.validate_parameter self p) as [[]|e]; simpl; [|discriminate].
  exact IH.
Qed.

(** What a successful validation of [amp] leaves to the parameters: [amp] is
    a Quantity with a positive leading dimension. *)
Lemma validated_amp_leading (self : SkyComponent.t) (amp : pyobj) :
  SkyComponent._validate_freq_ref (SkyComponent.freq_ref self) = Ok tt ->
  DiffuseComponent._validate_amp self amp = Ok tt ->
  exists a n, amp = PyQuantity a /\ leading (shape a) = Some n /\ 0 < n.
Proof.
  intros Hfr Hamp.
  destruct (valid_freq_ref_leading _ (proj1 (validate_freq_ref_ok _) Hfr))
    as (fr & _ & Hq & _).
  destruct (diffuse_amp_cases self amp fr Hq Hfr)
    as [[_ He]|[(a & _ & _ & He)|[(a & _ & _ & _ & He)
       |[(a & _ & _ & _ & _ & He)|[(a & _ & _ & _ & _ & He)|(a & Ha & Hm & _)]]]]];
    try congruence.
  destruct (healpix_map_leading _ Hm) as (n & Hn & Hpos). eauto.
Qed.

Lemma checked_nside_rows (n npix : nat) (rest : list nat) :
  0 < n ->
  (valid_npix npix -> exists nside, checked_nside (n :: npix :: rest) = Ok nside) /\
  (~ valid_npix npix -> checked_nside (n :: npix :: rest) = Raise NsideError).
Proof.
  intros Hn.
  assert (Hiff : healpix_map (n :: npix :: rest) <-> valid_npix npix).
  { unfold healpix_map. destruct n; [lia|]. simpl. split.
    - now intros (? & [= <-] & Hv).
    - eauto. }
  destruct (checked_nside_cases (n :: npix :: rest)) as [[Hm He]|[Hm He]];
    split; intros Hv; try tauto.
Qed.

(** The outcome of the body of the loop for one Quantity, when [self.amp]
    is a Quantity with leading dimension [a0 > 0]. *)
Lemma diffuse_parameter_cases (self : SkyComponent.t)
    (a q : Quantity Unit) (a0 : nat) :
  SkyComponent.amp self = PyQuantity a -> leading (shape a) = Some a0 -> 0 < a0 ->
  let outcome := DiffuseComponent.validate_parameter self (PyQuantity q) in
  (ndim (shape q) < 2 \/ leading (shape q) <> Some a0 -> outcome = Raise ValueError) /\
  (forall M, 2 <= ndim (shape q) -> leading (shape q) = Some a0 ->
             second (shape q) = Some M -> 1 < M -> ~ valid_npix M ->
             outcome = Raise NsideError) /\
  (forall M, 2 <= ndim (shape q) -> leading (shape q) = Some a0 ->
             second (shape q) = Some M -> M <= 1 \/ valid_npix M ->
             outcome = Ok tt).
Proof.
  intros Ha Ha0 Hpos outcome. subst outcome.
  unfold DiffuseComponent.validate_parameter. rewrite Ha.
  pose proof (index_leading _ _ Ha0) as Hi.
  unfold ndim, leading, second.
  destruct (shape q) as [|p0 [|p1 rest]]; simpl; rewrite ?Hi; simpl.
  - split; [reflexivity | split; intros; lia].
  - split; [reflexivity | split; intros; lia].
  - split; [|split].
    + intros [Hlt|Hne]; [lia|].
      destruct (Nat.eqb_spec p0 a0) as [->|_]; [congruence | reflexivity].
    + intros M _ [= ->] [= ->] HM Hv. rewrite Nat.eqb_refl. simpl.
      apply Nat.ltb_lt in HM. rewrite HM.
      now rewrite (proj2 (checked_nside_rows a0 M rest Hpos) Hv).
    + intros M _ [= ->] [= ->] HM. rewrite Nat.eqb_refl. simpl.
      destruct (Nat.ltb_spec 1 M) as [Hlt|Hle]; [|reflexivity].
      destruct HM as [HM|HM]; [lia|].
      now destruct (proj1 (checked_nside_rows a0 M rest Hpos) HM) as [nside ->].
Qed.

(** C8, as the code has it.  In the construction of a diffuse component
    whose reference frequency, amplitude map and earlier parameters have
    passed, a parameter (a Quantity) makes the construction raise a
    ValueError (the shape error) when its rank is below 2 or its leading
    dimension differs from that of [amp], and an NsideError (the resolution
    error) when its second dimension exceeds 1 and is not a pixel count
    healpy takes, [12 * nside * nside] for some integer [nside]; a parameter
    of shape (S, 1), or (S, M) with M such a pixel count, S being the leading
    dimension of [amp], passes, and the construction goes on with the
    parameters after it.  The pixel counts healpy takes include those of
    the glossary, [12 * nside ** 2] with [nside] a power of two, and others
    beside them. *)
Theorem spectral_parameter_validation (amp freq_ref : pyobj)
    (before after : list (string * pyobj)) (name : string)
    (a q : Quantity Unit) :
  let parameters := before ++ (name, PyQuantity q) :: after in
  let self := SkyComponent.mk _ amp freq_ref parameters in
  amp = PyQuantity a ->
  SkyComponent._validate_freq_ref freq_ref = Ok tt ->
  DiffuseComponent._validate_amp self amp = Ok tt ->
  DiffuseComponent._validate_spectral_parameters self before = Ok tt ->
  (ndim (shape q) < 2 \/ leading (shape q) <> leading (shape a) ->
   DiffuseComponent.__init__ amp freq_ref parameters = Raise ValueError) /\
  (forall M, 2 <= ndim (shape q) -> leading (shape q) = leading (shape a) ->
             second (shape q) = Some M -> 1 < M -> ~ valid_npix M ->
             DiffuseComponent.__init__ amp freq_ref parameters = Raise NsideError) /\
  (forall S M, leading (shape a) = Some S ->
               shape q = [S; 1] \/ (shape q = [S; M] /\ valid_npix M) ->
               DiffuseComponent.validate_parameter self (PyQuantity q) = Ok tt /\
               DiffuseComponent.__init__ amp freq_ref parameters
               = (DiffuseComponent._validate_spectral_parameters self after ;;; Ok self)) /\
  (forall M, power_of_two_npix M -> valid_npix M).
Proof.
  intros parameters self Hamp Hfr Hva Hbefore.
  destruct (validated_amp_leading self amp Hfr Hva) as (a' & a0 & Ha' & Ha0 & Hpos).
  rewrite Hamp in Ha'. injection Ha' as <-.
  assert (Hself : SkyComponent.amp self = PyQuantity a) by exact Hamp.
  destruct (diffuse_parameter_cases self a q a0 Hself Ha0 Hpos)
    as (Hshape & Hnside & Hpass).
  assert (Hinit : DiffuseComponent.__init__ amp freq_ref parameters
                  = (DiffuseComponent.validate_parameter self (PyQuantity q) ;;;
                     DiffuseComponent._validate_spectral_parameters self after ;;; Ok self)).
  { rewrite (diffuse_init_validated _ _ _ Hfr).
    change (DiffuseComponent._validate_amp self amp ;;;
            DiffuseComponent._validate_spectral_parameters self parameters ;;; Ok self
            = (DiffuseComponent.validate_parameter self (PyQuantity q) ;;;
               DiffuseComponent._validate_spectral_parameters self after ;;; Ok self)).
    rewrite Hva, bind_Ok. unfold parameters at 1.
    rewrite (diffuse_parameters_app self before after name _ Hbefore).
    apply bind_assoc. }
  rewrite Hinit, Ha0. split; [|split; [|split]].
  - intros Hbad. now rewrite (Hshape Hbad).
  - intros M H2 Hl Hs HM Hv. now rewrite (Hnside M H2 Hl Hs HM Hv).
  - intros S M HS Hq. injection HS as <-.
    assert (Hp : DiffuseComponent.validate_parameter self (PyQuantity q) = Ok tt).
    { destruct Hq as [Hs|[Hs Hv]].
      - apply (Hpass 1); rewrite ?Hs; simpl; auto.
      - apply (Hpass M); rewrite ?Hs; simpl; auto. }
    now rewrite Hp.
  - intros M [k ->]. now exists (2 ^ k).
Qed.

(** *** Point sources *)

(** The outcome of [PointSourceComponent._validate_amp] once the reference
    frequency has been validated. *)
Lemma point_source_amp_cases (self : SkyComponent.t) (amp : pyobj)
    (fr : Quantity Unit) :
  SkyComponent.freq_ref self = PyQuantity fr ->
  SkyComponent._validate_freq_ref (SkyComponent.freq_ref self) = Ok tt ->
  (~ is_quantity amp /\ PointSourceComponent._validate_amp self amp = Raise TypeError) \/
  (exists a, amp = PyQuantity a /\ shape a = [] /\
             PointSourceComponent._validate_amp self amp = Raise IndexError) \/
  (exists a, amp = PyQuantity a /\ shape a <> [] /\
             leading (shape a) <> leading (shape fr) /\
             PointSourceComponent._validate_amp self amp = Raise ValueError) \/
  (exists a, amp = PyQuantity a /\
             leading (shape a) = leading (shape fr) /\
             stops_in_broadcast fr (shape a) (unit_div (unit_of a) sr) /\
             PointSourceComponent._validate_amp self amp = Raise ValueError) \/
  (exists a, amp = PyQuantity a /\
             leading (shape a) = leading (shape fr) /\
             ~ convertible (brightness_temperature fr)
                 (unit_div (unit_of a) sr) DEFAULT_OUTPUT_UNIT /\
             PointSourceComponent._validate_amp self amp = Raise UnitsError) \/
  (exists a, amp = PyQuantity a /\
             leading (shape a) = leading (shape fr) /\
             converts fr (shape a) (unit_div (unit_of a) sr) /\
             PointSourceComponent._validate_amp self amp = Ok tt).
Proof.
  intros Hfr Hok. apply validate_freq_ref_ok, valid_freq_ref_leading in Hok.
  destruct Hok as (q & f0 & Hq & Hf0 & _). rewrite Hfr in Hq. injection Hq as <-.
  destruct amp as [| |a];
    try (left; split; [intros [? [=]] | reflexivity]).
  right. unfold PointSourceComponent._validate_amp. rewrite Hfr.
  cbn [shape_attr bind]. rewrite (index_leading _ _ Hf0), Hf0. cbn [bind].
  unfold leading, index. destruct (shape a) as [|a0 rest] eqn:Hs; cbn [nth_error bind].
  - left. exists a. auto.
  - right. destruct (Nat.eqb_spec a0 f0) as [->|Hne]; cbn [negb].
    + right. rewrite <- Hs.
      destruct (checked_output_unit_cases (unit_div (unit_of a) sr) (shape a) fr)
        as [[Hc He]|[[Hc He]|[Hc He]]]; rewrite He.
      * right. right. exists a. rewrite Hs.
        split; [reflexivity|]. split; [reflexivity|].
        split; [rewrite <- Hs; assumption | reflexivity].
      * left. exists a. rewrite Hs.
        split; [reflexivity|]. split; [reflexivity|].
        split; [rewrite <- Hs; assumption | reflexivity].
      * right. left. exists a. rewrite Hs. auto.
    + left. exists a. rewrite Hs. repeat split; auto; congruence.
Qed.

(** A parameter is checked as in the diffuse family, the pixel count apart. *)
Lemma point_source_parameter_rule (self : SkyComponent.t) (parameter : pyobj) :
  match DiffuseComponent.validate_parameter self parameter with
  | Ok _ | Raise NsideError =>
      PointSourceComponent.validate_parameter self parameter = Ok tt
  | Raise e => PointSourceComponent.validate_parameter self parameter = Raise e
  end.
Proof.
  unfold DiffuseComponent.validate_parameter, PointSourceComponent.validate_parameter.
  destruct parameter as [| |q]; try reflexivity.
  destruct (shape q) as [|p0 [|p1 rest]] eqn:Hq; try reflexivity.
  unfold index. cbn [ndim List.length Nat.ltb Nat.leb nth_error bind].
  destruct (shape_attr (SkyComponent.amp self)) as [s|e] eqn:Hs; cbn [bind].
  - destruct s as [|a0 s']; cbn [bind]; [reflexivity|].
    destruct (Nat.eqb_spec p0 a0) as [->|Hne]; cbn [negb]; [|reflexivity].
    destruct p1 as [|[|p1]]; try reflexivity.
    destruct (checked_nside_cases (a0 :: S (S p1) :: rest)) as [[_ [n Hn]]|[_ Hn]];
      rewrite Hn; reflexivity.
  - unfold shape_attr in Hs.
    destruct (SkyComponent.amp self); inversion Hs; reflexivity.
Qed.

(** Two shapes that both broadcast against that of [fr] fare alike in the
    checked conversion. *)
Lemma checked_output_unit_rows (u : Unit) (s s' : list nat) (fr : Quantity Unit) :
  broadcastable s (shape fr) -> broadcastable s' (shape fr) ->
  checked_output_unit u s fr = checked_output_unit u s' fr.
Proof.
  intros Hb Hb'.
  destruct (checked_output_unit_cases u s fr) as [[Hc He]|[[Hc He]|[Hc He]]];
    destruct (checked_output_unit_cases u s' fr) as [[Hc' He']|[[Hc' He']|[Hc' He']]];
    rewrite He, He'; try reflexivity; exfalso;
    try (destruct Hc as (_ & _ & Hn); now apply Hn);
    try (destruct Hc' as (_ & _ & Hn); now apply Hn);
    try (apply Hc'; now apply converts_convertible with s);
    try (apply Hc; now apply converts_convertible with s').
Qed.

Lemma point_source_parameters_pass (self : SkyComponent.t)
    (parameters : list (string * pyobj)) :
  PointSourceComponent._validate_spectral_parameters self parameters = Ok tt ->
  forall name parameter, In (name, parameter) parameters ->
    PointSourceComponent.validate_parameter self parameter = Ok tt.
Proof.
  induction parameters as [|[n p] parameters IH]; simpl; [intros _ ? ? []|].
  destruct (PointSourceComponent.validate_parameter self p) as [[]|e] eqn:Hp;
    cbn [bind]; [|discriminate].
  intros Hrest name parameter [[= <- <-]|Hin]; [exact Hp | now apply (IH Hrest name)].
Qed.

(** C9.  The construction of a point-source component
    - fails with the error of [SkyComponent._validate_freq_ref] whenever that validation
      fails, as the construction of a diffuse component does;
    - once the reference frequency is validated, validates [amp] by its type
      (TypeError), its leading dimension against that of [freq_ref]
      (ValueError; IndexError for an [amp] without axes) and the conversion
      of [amp / sr] to the default output unit under
      [brightness_temperature(freq_ref)]: a UnitsError iff the leading
      dimensions agree and the unit does not convert, and the ValueError of
      numpy iff they agree, the unit converts through the equivalence only
      and the shape of [amp] does not broadcast against that of [freq_ref];
      it never raises an NsideError, and an [amp] of shape (S, n) fares the
      same for every [n]: no pixel count is asked of the second dimension;
    - checks a parameter as the diffuse family does, the pixel count apart,
      and succeeds only if every parameter passes that check;
    - succeeds only if the class has a catalog whose second dimension equals
      that of [amp], and raises a ValueError when everything before the
      catalog has passed and the two differ. *)
Theorem point_source_validation (catalog : option (list nat))
    (amp freq_ref : pyobj) (parameters : list (string * pyobj)) :
  let self := SkyComponent.mk _ amp freq_ref parameters in
  let construction := PointSourceComponent.__init__ catalog amp freq_ref parameters in
  (forall e, SkyComponent._validate_freq_ref freq_ref = Raise e ->
     construction = Raise e /\
     DiffuseComponent.__init__ amp freq_ref parameters = Raise e) /\
  (forall fr, freq_ref = PyQuantity fr -> SkyComponent._validate_freq_ref freq_ref = Ok tt ->
     let outcome := PointSourceComponent._validate_amp self amp in
     (outcome = Raise TypeError <-> ~ is_quantity amp) /\
     (outcome = Raise IndexError <-> exists a, amp = PyQuantity a /\ shape a = []) /\
     (outcome = Raise ValueError <->
        exists a, amp = PyQuantity a /\ shape a <> [] /\
                  (leading (shape a) <> leading (shape fr) \/
                   (leading (shape a) = leading (shape fr) /\
                    stops_in_broadcast fr (shape a) (unit_div (unit_of a) sr)))) /\
     (outcome = Raise UnitsError <->
        exists a, amp = PyQuantity a /\
                  leading (shape a) = leading (shape fr) /\
                  ~ convertible (brightness_temperature fr)
                      (unit_div (unit_of a) sr) DEFAULT_OUTPUT_UNIT) /\
     (outcome = Ok tt <->
        exists a, amp = PyQuantity a /\
                  leading (shape a) = leading (shape fr) /\
                  converts fr (shape a) (unit_div (unit_of a) sr)) /\
     outcome <> Raise NsideError /\
     (forall u S n n',
        PointSourceComponent._validate_amp self (PyQuantity (mkQuantity [S; n] u))
        = PointSourceComponent._validate_amp self (PyQuantity (mkQuantity [S; n'] u)))) /\
  (forall parameter,
     match DiffuseComponent.validate_parameter self parameter with
     | Ok _ | Raise NsideError =>
         PointSourceComponent.validate_parameter self parameter = Ok tt
     | Raise e => PointSourceComponent.validate_parameter self parameter = Raise e
     end) /\
  (succeeds construction = true ->
     (exists c a n, catalog = Some c /\ amp = PyQuantity a /\
                    second c = Some n /\ second (shape a) = Some n) /\
     (forall name parameter, In (name, parameter) parameters ->
        PointSourceComponent.validate_parameter self parameter = Ok tt)) /\
  (forall c a n m, catalog = Some c -> amp = PyQuantity a ->
     SkyComponent._validate_freq_ref freq_ref = Ok tt ->
     PointSourceComponent._validate_amp self amp = Ok tt ->
     second c = Some n -> second (shape a) = Some m -> n <> m ->
     construction = Raise ValueError).
Proof.
  intros self construction. subst construction.
  split; [|split; [|split; [exact (point_source_parameter_rule self)|split]]].
  - intros e He. unfold PointSourceComponent.__init__, DiffuseComponent.__init__,
      SkyComponent.__init__. now rewrite He.
  - intros fr Hfr Hok outcome. subst outcome.
    assert (Hself : SkyComponent.freq_ref self = PyQuantity fr) by exact Hfr.
    assert (Hok' : SkyComponent._validate_freq_ref (SkyComponent.freq_ref self) = Ok tt) by exact Hok.
    destruct (valid_freq_ref_leading _ (proj1 (validate_freq_ref_ok _) Hok))
      as (fr' & f0 & Hfr' & Hf0 & _).
    rewrite Hfr in Hfr'. injection Hfr' as <-.
    assert (Hrows : forall u S n n',
              PointSourceComponent._validate_amp self (PyQuantity (mkQuantity [S; n] u))
              = PointSourceComponent._validate_amp self (PyQuantity (mkQuantity [S; n'] u))).
    { intros u S n n'. unfold PointSourceComponent._validate_amp. rewrite Hself.
      cbn [shape_attr bind shape unit_of index nth_error].
      rewrite (index_leading _ _ Hf0). cbn [bind].
      destruct (Nat.eqb_spec S f0) as [->|Hne]; cbn [negb]; [|reflexivity].
      apply validate_freq_ref_ok in Hok.
      destruct Hok as (q & Hq & Hs & _). rewrite Hfr in Hq. injection Hq as <-.
      apply checked_output_unit_rows; apply broadcastable_rows; auto;
        try discriminate; unfold leading; now rewrite Hf0. }
    destruct (point_source_amp_cases self amp fr Hself Hok')
      as [[Hn He]|[(a & Ha & Hs & He)|[(a & Ha & Hs & Hl & He)
         |[(a & Ha & Hl & Hc & He)|[(a & Ha & Hl & Hc & He)
         |(a & Ha & Hl & Hc & He)]]]]];
      rewrite He; clear He; try subst amp; unfold is_quantity in *;
      try pose proof (stops_convertible _ _ _ Hc) as Hcv;
      try pose proof (converts_convertible _ _ _ Hc) as Hcv;
      try pose proof (converts_or_stops fr (shape a) (unit_div (unit_of a) sr)) as Hex;
      try pose proof (converts_convertible fr (shape a) (unit_div (unit_of a) sr)) as Hcc;
      try pose proof (stops_convertible fr (shape a) (unit_div (unit_of a) sr)) as Hsc;
      (split; [|split; [|split; [|split; [|split; [|split; [discriminate|exact Hrows]]]]]]);
      clear Hrows; outcome_table.
    all: try (apply Hs; assumption).
    all: try (exists a; split; [reflexivity|];
              split; [|right; split; assumption];
              intros E; rewrite E, Hf0 in Hl; discriminate Hl).
    all: exfalso;
      match goal with
      | L : leading (shape ?q) = leading (shape _), E : shape ?q = [] |- _ =>
          rewrite E, Hf0 in L; discriminate L
      end.
  - unfold PointSourceComponent.__init__, SkyComponent.__init__.
    destruct (SkyComponent._validate_freq_ref freq_ref) as [[]|];
      cbn [bind succeeds]; [|intros [=]].
    destruct (PointSourceComponent._validate_amp _ amp) as [[]|];
      cbn [bind succeeds]; [|intros [=]].
    destruct catalog as [c|]; cbn [bind succeeds]; [|intros [=]].
    unfold PointSourceComponent._validate_catalog, index, second. cbn [SkyComponent.amp].
    destruct (nth_error c 1) as [c1|] eqn:Hc1; cbn [bind succeeds]; [|intros [=]].
    destruct amp as [| |a]; cbn [bind succeeds shape_attr];
      try (intros E; discriminate E).
    destruct (nth_error (shape a) 1) as [a1|] eqn:Ha1;
      cbn [bind succeeds]; [|intros [=]].
    destruct (Nat.eqb_spec c1 a1) as [->|Hne];
      cbn [bind succeeds negb]; [|intros [=]].
    destruct (PointSourceComponent._validate_spectral_parameters _ parameters)
      as [[]|] eqn:Hps; cbn [bind succeeds]; [|intros [=]].
    intros _. split; [exists c, a, a1; auto|].
    exact (point_source_parameters_pass _ _ Hps).
  - intros c a n m -> Ha Hok Hva Hc Hs Hne. subst self.
    unfold PointSourceComponent.__init__, SkyComponent.__init__.
    rewrite Hok. cbn [bind]. rewrite Hva. cbn [bind].
    unfold PointSourceComponent._validate_catalog, index, second in *.
    cbn [SkyComponent.amp]. rewrite Hc, Ha. cbn [bind shape_attr].
    rewrite Hs. cbn [bind].
    apply Nat.eqb_neq in Hne. now rewrite Hne.
Qed.

End WithAstropy.

(** *** The statements at concrete components *)

Import AstropyFragment.

(** A reference frequency of shape (1, 1) in GHz, a 12-pixel map in uK and a
    constant spectral index: the components of the end-to-end example. *)
Definition nu_ref : Quantity unit_name := mkQuantity [1; 1] GHz.
Definition map12 : Quantity unit_name := mkQuantity [1; 12] uK.
Definition map108 : Quantity unit_name := mkQuantity [1; 108] uK.
Definition beta : Quantity unit_name := mkQuantity [1; 1] K.

Definition component (a : Quantity unit_name)
    (parameters : list (string * @pyobj units)) : @SkyComponent.t units :=
  @SkyComponent.mk units (@PyQuantity units a) (@PyQuantity units nu_ref) parameters.

Lemma amp_validation_witness :
  @SkyComponent.freq_ref units (component map12 []) = @PyQuantity units nu_ref /\
  @SkyComponent._validate_freq_ref units (@SkyComponent.freq_ref units (component map12 [])) = Ok tt /\
  @DiffuseComponent._validate_amp units (component map12 []) (@PyQuantity units map12) = Ok tt.
Proof.
  split; [reflexivity | split; [reflexivity|]].
  apply (@amp_validation units (component map12 []) (@PyQuantity units map12)
           nu_ref eq_refl eq_refl).
  exists map12. repeat split.
  - exists 12. split; [reflexivity | exists 1; reflexivity].
  - left. reflexivity.
Defined.

Lemma not_power_of_two_108 : ~ power_of_two_npix 108.
Proof.
  intros [k Hk]. destruct k as [|[|k]]; simpl in Hk; lia.
Qed.

(** C7, as stated, fails on a map of 108 pixels: 108 = 12 * 3 * 3 is not
    [12 * nside * nside] for a power of two [nside], and the map is accepted
    all the same. *)
Lemma amp_validation_counterexample :
  @SkyComponent._validate_freq_ref units (@PyQuantity units nu_ref) = Ok tt /\
  ~ power_of_two_npix 108 /\
  @DiffuseComponent._validate_amp units (component map108 []) (@PyQuantity units map108)
  = Ok tt.
Proof.
  split; [reflexivity | split; [exact not_power_of_two_108 | reflexivity]].
Qed.

Lemma spectral_parameter_validation_witness :
  @DiffuseComponent.__init__ units (@PyQuantity units map12) (@PyQuantity units nu_ref)
    [("beta"%string, @PyQuantity units beta)]
  = Ok (component map12 [("beta"%string, @PyQuantity units beta)]).
Proof.
  exact (proj2 (proj1 (proj2 (proj2
    (@spectral_parameter_validation units
       (@PyQuantity units map12) (@PyQuantity units nu_ref)
       [] [] "beta"%string map12 beta eq_refl eq_refl eq_refl eq_refl)))
    1 0 eq_refl (or_introl eq_refl))).
Defined.

(** A spectral index given on 108 pixels. *)
Definition beta108 : Quantity unit_name := mkQuantity [1; 108] K.

(** C8, as stated, fails on a parameter of shape (1, 108): its second
    dimension exceeds 1 and is not a pixel count of the glossary, and the
    construction raises no NsideError: it succeeds. *)
Lemma spectral_parameter_validation_counterexample :
  second (shape beta108) = Some 108 /\ 1 < 108 /\ ~ power_of_two_npix 108 /\
  @DiffuseComponent.__init__ units (@PyQuantity units map12) (@PyQuantity units nu_ref)
    [("beta"%string, @PyQuantity units beta108)]
  = Ok (component map12 [("beta"%string, @PyQuantity units beta108)]).
Proof.
  split; [reflexivity|]. split; [lia|].
  split; [exact not_power_of_two_108 | reflexivity].
Qed.

End ValidationSpec.

(** * Properties of the AME scaling *)

Module AMESpec.

Import AME.
Local Open Scope Q_scope.

(** The sample frequencies of a template increase, as [np.interp] expects. *)
Definition increasing (xs : list Q) : Prop := StronglySorted Qlt xs.

(** [y] is the linear interpolation of the template at [x]: the amplitude of
    a sample point at [x], or the value at [x] of the line through the two
    neighbouring sample points. *)
Definition interpolation (t : template) (x y : Q) : Prop :=
  (exists xp, In (xp, y) t /\ xp == x) \/
  (exists l1 x0 y0 x1 y1 l2,
      t = l1 ++ (x0, y0) :: (x1, y1) :: l2 /\ x0 < x /\ x < x1 /\
      y = (y1 - y0) / (x1 - x0) * (x - x0) + y0).

(** Outside the sampled range [np.interp] returns the amplitude of the
    nearest end of the template. *)
Definition clamped_interpolation (t : template) (x y : Q) : Prop :=
  interpolation t x y \/
  (exists x0 rest, t = (x0, y) :: rest /\ x < x0) \/
  (exists p rest, t = p :: rest /\ fst (last rest p) < x /\ y = snd (last rest p)).

Lemma Qltb_lt (x y : Q) : Qltb x y = true <-> x < y.
Proof.
  unfold Qltb. rewrite negb_true_iff, <- not_true_iff_false, Qle_bool_iff.
  split; [apply Qnot_le_lt | apply Qlt_not_le].
Qed.

Lemma Qltb_ge (x y : Q) : Qltb x y = false <-> y <= x.
Proof.
  unfold Qltb. rewrite negb_false_iff, Qle_bool_iff. tauto.
Qed.

Lemma interpolation_cons (p : Q * Q) (t : template) (x y : Q) :
  interpolation t x y -> interpolation (p :: t) x y.
Proof.
  intros [(xp & Hin & Hx)|(l1 & x0 & y0 & x1 & y1 & l2 & -> & H)].
  - left. exists xp. split; [now right | exact Hx].
  - right. exists (p :: l1), x0, y0, x1, y1, l2. now split.
Qed.

Lemma last_nonempty {A : Type} (l : list A) (a d d' : A) :
  last (a :: l) d = last (a :: l) d'.
Proof.
  revert a. induction l as [|b l IH]; intros a; [reflexivity|].
  change (last (b :: l) d = last (b :: l) d'). apply IH.
Qed.

(** The search of [np.interp], started at a sample point at or below [x]. *)
Lemma interp_from_spec (rest : template) (x x0 y0 : Q) :
  x0 <= x ->
  interpolation ((x0, y0) :: rest) x (np.interp_from x x0 y0 rest) \/
  (fst (last rest (x0, y0)) < x /\
   np.interp_from x x0 y0 rest = snd (last rest (x0, y0))).
Proof.
  revert x0 y0. induction rest as [|[x1 y1] rest IH]; intros x0 y0 Hle; simpl.
  - destruct (Qlt_le_dec x0 x) as [Hlt|Hge].
    + right. auto.
    + left. left. exists x0. split; [now left | now apply Qle_antisym].
  - destruct (Qltb x x1) eqn:Hx1.
    + apply Qltb_lt in Hx1. left. destruct (Qeq_bool x0 x) eqn:Heq.
      * apply Qeq_bool_iff in Heq. left. exists x0. split; [now left | exact Heq].
      * apply Qeq_bool_neq in Heq. right.
        exists [], x0, y0, x1, y1, rest. repeat split; auto.
        apply Qle_lteq in Hle. tauto.
    + apply Qltb_ge in Hx1. destruct (IH x1 y1 Hx1) as [Hi|[Hl Hv]].
      * left. now apply interpolation_cons.
      * right. destruct rest as [|p rest]; [auto|].
        now rewrite (last_nonempty rest p (x0, y0) (x1, y1)).
Qed.

Lemma combine_rows (t : template) : combine (row0 t) (row1 t) = t.
Proof.
  induction t as [|[x y] t IH]; simpl; [reflexivity | now rewrite IH].
Qed.

Lemma np_interp_rows (x : Q) (t : template) :
  np.interp x (row0 t) (row1 t) = np.interp_points x t.
Proof.
  unfold np.interp. rewrite (combine_rows t).
  unfold row0, row1. now rewrite !length_map, Nat.eqb_refl.
Qed.

Lemma np_interp_spec (p : Q * Q) (rest : template) (x : Q) :
  exists y, np.interp x (row0 (p :: rest)) (row1 (p :: rest)) = Ok y /\
            clamped_interpolation (p :: rest) x y.
Proof.
  rewrite np_interp_rows. destruct p as [x0 y0]. unfold np.interp_points. destruct (Qltb x x0) eqn:Hx.
  - apply Qltb_lt in Hx. exists y0. split; [reflexivity|].
    right. left. exists x0, rest. auto.
  - apply Qltb_ge in Hx. exists (np.interp_from x x0 y0 rest). split; [reflexivity|].
    destruct (interp_from_spec rest x x0 y0 Hx) as [Hi|[Hl Hv]].
    + now left.
    + right. right. exists (x0, y0), rest. auto.
Qed.

(** Strictly between the first and the last sample frequency the result is
    an interpolation proper. *)
Lemma np_interp_inside (p : Q * Q) (rest : template) (x : Q) :
  fst p < x -> x < fst (last rest p) ->
  exists y, np.interp x (row0 (p :: rest)) (row1 (p :: rest)) = Ok y /\
            interpolation (p :: rest) x y.
Proof.
  intros Hlo Hhi. rewrite np_interp_rows.
  destruct p as [x0 y0]. simpl in Hlo. unfold np.interp_points.
  assert (Hx : Qltb x x0 = false) by (apply Qltb_ge; now apply Qlt_le_weak).
  rewrite Hx. exists (np.interp_from x x0 y0 rest). split; [reflexivity|].
  destruct (interp_from_spec rest x x0 y0 (Qlt_le_weak _ _ Hlo)) as [Hi|[Hl _]];
    [exact Hi|].
  exfalso. apply (Qlt_irrefl x). now apply Qlt_trans with (fst (last rest (x0, y0))).
Qed.

(** On an increasing array the minimum is the first entry and the maximum
    the last. *)
Lemma Qmin_lt (x y : Q) : x < y -> Qmin x y = x.
Proof.
  intros Hlt. unfold Qmin, GenericMinMax.gmin.
  destruct (x ?= y) eqn:Hc; try reflexivity.
  apply Qgt_alt in Hc. exfalso. apply (Qlt_irrefl x). now apply Qlt_trans with y.
Qed.

Lemma Qmax_lt (x y : Q) : x < y -> Qmax x y = y.
Proof.
  intros Hlt. unfold Qmax, GenericMinMax.gmax.
  destruct (x ?= y) eqn:Hc; try reflexivity.
  - apply Qeq_alt in Hc. exfalso. rewrite Hc in Hlt. now apply (Qlt_irrefl y).
  - apply Qgt_alt in Hc. exfalso. apply (Qlt_irrefl x). now apply Qlt_trans with y.
Qed.

Lemma np_min_increasing (x : Q) (rest : list Q) :
  increasing (x :: rest) -> np.min (x :: rest) = Ok x.
Proof.
  unfold increasing, np.min. intros Hs. f_equal.
  apply StronglySorted_inv in Hs as [_ Hall].
  induction rest as [|y rest IH]; simpl; [reflexivity|].
  inversion Hall as [|? ? Hy Hrest]; subst.
  rewrite (Qmin_lt _ _ Hy). now apply IH.
Qed.

Lemma np_max_increasing (x : Q) (rest : list Q) :
  increasing (x :: rest) -> np.max (x :: rest) = Ok (last rest x).
Proof.
  unfold increasing, np.max. intros Hs. f_equal. revert x Hs.
  induction rest as [|y rest IH]; intros x Hs; simpl; [reflexivity|].
  apply StronglySorted_inv in Hs as [Hs Hall].
  inversion Hall as [|? ? Hy _]; subst.
  rewrite (Qmax_lt _ _ Hy), (IH y Hs).
  destruct rest; [reflexivity | apply last_nonempty].
Qed.

Lemma last_row0 (p : Q * Q) (rest : template) :
  last (row0 rest) (fst p) = fst (last rest p).
Proof.
  revert p. induction rest as [|q rest IH]; intros p; [reflexivity|].
  destruct rest as [|r rest]; [reflexivity|].
  change (last (row0 (r :: rest)) (fst p) = fst (last (r :: rest) p)).
  apply IH.
Qed.

Lemma mapM_total {A B : Type} (f : A -> result B) (d : B) (l : list A) :
  (forall a, In a l -> exists b, f a = Ok b) ->
  mapM f l = Ok (map (fun a => match f a with Ok b => b | Raise _ => d end) l).
Proof.
  induction l as [|a l IH]; intros Hf; simpl; [reflexivity|].
  destruct (Hf a (or_introl eq_refl)) as [b Hb]. rewrite Hb. simpl.
  rewrite IH by (intros a' Ha'; apply Hf; now right). reflexivity.
Qed.

Lemma divide_map {A : Type} (f g : A -> Q) (l : list A) :
  divide (map f l) (map g l) = map (fun a => f a / g a) l.
Proof. induction l as [|a l IH]; simpl; [reflexivity | now rewrite IH]. Qed.

(** The value of [np.interp] on a template that is not empty. *)
Definition interp_value (t : template) (x : Q) : Q :=
  match np.interp x (row0 t) (row1 t) with Ok y => y | Raise _ => 0 end.

(** C1, as the code has it.  For a template with increasing frequencies,
    [lo] and [hi] being the minimum and the maximum of its frequencies:
    - if some entry of [freq * peak_scale] is not strictly between [lo] and
      [hi], the result is the scalar 0; [freq_ref * peak_scale] is not
      looked at, and a frequency on the boundary counts as outside;
    - otherwise the result is the array, entry by entry, of the linear
      interpolation of the template at [freq * peak_scale] divided by the
      value of [np.interp] at [freq_ref * peak_scale], which is the linear
      interpolation inside the sampled range and the amplitude of the
      nearest end of the template outside it. *)
Theorem AME_scaling (spdust2 : template) (freq freq_ref : Q) (nu_p : list Q)
    (lo hi : Q) :
  increasing (row0 spdust2) ->
  np.min (row0 spdust2) = Ok lo ->
  np.max (row0 spdust2) = Ok hi ->
  let scaled := fun p => freq * (GHz 30 / p) in
  let scaled_ref := fun p => freq_ref * (GHz 30 / p) in
  let scaling := _get_freq_scaling spdust2 freq freq_ref nu_p in
  ((exists p, In p nu_p /\ ~ (lo < scaled p /\ scaled p < hi)) ->
   scaling = Ok (Scalar 0)) /\
  ((forall p, In p nu_p -> lo < scaled p /\ scaled p < hi) ->
   exists interp interp_ref : Q -> Q,
     scaling = Ok (Array (map (fun p => interp p / interp_ref p) nu_p)) /\
     (forall p, In p nu_p -> interpolation spdust2 (scaled p) (interp p)) /\
     (forall p, In p nu_p ->
        clamped_interpolation spdust2 (scaled_ref p) (interp_ref p))).
Proof.
  intros Hinc Hmin Hmax scaled scaled_ref scaling. subst scaling.
  unfold _get_freq_scaling. rewrite Hmin, Hmax. cbn [bind].
  destruct spdust2 as [|pt rest]; [discriminate|].
  change (row0 (pt :: rest)) with (fst pt :: row0 rest) in Hinc, Hmin, Hmax.
  rewrite (np_min_increasing _ _ Hinc) in Hmin. injection Hmin as <-.
  rewrite (np_max_increasing _ _ Hinc), last_row0 in Hmax. injection Hmax as <-.
  set (inside := fun s : Q =>
         Qltb (fst pt) (freq * s) && Qltb (freq * s) (fst (last rest pt))).
  split.
  - intros (p & Hin & Hout).
    destruct (forallb inside (map (fun p => GHz 30 / p) nu_p)) eqn:Hall;
      [|reflexivity].
    exfalso. apply Hout. rewrite forallb_forall in Hall.
    specialize (Hall (GHz 30 / p) (in_map _ _ _ Hin)). unfold inside in Hall.
    apply andb_true_iff in Hall as [H1 H2]. now rewrite <- !Qltb_lt.
  - intros Hall.
    assert (Hchk : forallb inside (map (fun p => GHz 30 / p) nu_p) = true).
    { apply forallb_forall. intros s Hs.
      apply in_map_iff in Hs as (p & <- & Hin). unfold inside.
      destruct (Hall p Hin) as [H1 H2]. apply andb_true_iff.
      now rewrite !Qltb_lt. }
    rewrite Hchk. cbn [negb].
    exists (fun p => interp_value (pt :: rest) (scaled p)),
           (fun p => interp_value (pt :: rest) (scaled_ref p)).
    split; [|split].
    + rewrite (mapM_total _ 0), (mapM_total _ 0);
        try (intros s _; destruct (np_interp_spec pt rest (freq_ref * s)) as (y & -> & _);
             now exists y);
        try (intros s _; destruct (np_interp_spec pt rest (freq * s)) as (y & -> & _);
             now exists y).
      cbn [bind]. rewrite !map_map, divide_map. reflexivity.
    + intros p Hin. destruct (Hall p Hin) as [H1 H2].
      destruct (np_interp_inside pt rest (scaled p) H1 H2) as (y & Hy & Hi).
      unfold interp_value. now rewrite Hy.
    + intros p _. destruct (np_interp_spec pt rest (scaled_ref p)) as (y & Hy & Hc).
      unfold interp_value. now rewrite Hy.
Qed.

(** A template with the two sample points (10 GHz, 1.0) and (20 GHz, 2.0),
    and a peak frequency of 30 GHz, for which [peak_scale] is 1. *)
Definition two_points : template := [(GHz 10, 1); (GHz 20, 2)].

(** Queried at 15 GHz, the two-point template gives 1.5. *)
Example np_interp_15GHz :
  exists y, np.interp (GHz 15) (row0 two_points) (row1 two_points) = Ok y /\
            y == 1.5.
Proof. eexists. split; [vm_compute; reflexivity | reflexivity]. Qed.

Lemma increasing_two_points : increasing (row0 two_points).
Proof.
  repeat constructor.
Qed.

Lemma AME_scaling_witness :
  exists interp interp_ref : Q -> Q,
    _get_freq_scaling two_points (GHz 15) (GHz 10) [GHz 30]
    = Ok (Array (map (fun p => interp p / interp_ref p) [GHz 30])) /\
    (forall p, In p [GHz 30] ->
       interpolation two_points (GHz 15 * (GHz 30 / p)) (interp p)) /\
    (forall p, In p [GHz 30] ->
       clamped_interpolation two_points (GHz 10 * (GHz 30 / p)) (interp_ref p)).
Proof.
  apply (AME_scaling two_points (GHz 15) (GHz 10) [GHz 30] (GHz 10) (GHz 20)
           increasing_two_points eq_refl eq_refl).
  intros p [<-|[]]. split; reflexivity.
Defined.

(** C1, as stated, fails twice on the two-point template.  With [freq] at
    15 GHz and [freq_ref] at 5 GHz, [freq_ref * peak_scale] lies below the
    template and the result is not the scalar 0 but the interpolated 1.5
    over the clamped 1.0.  With [freq] at 10 GHz, on the boundary, and
    [freq_ref] at 20 GHz, both scaled frequencies lie in the closed interval
    and the result is the scalar 0, not an array of interpolation ratios. *)
Lemma AME_scaling_counterexample :
  (GHz 5 * (GHz 30 / GHz 30) < GHz 10 /\
   exists y, _get_freq_scaling two_points (GHz 15) (GHz 5) [GHz 30]
             = Ok (Array [y]) /\ y == 1.5) /\
  (GHz 10 <= GHz 10 * (GHz 30 / GHz 30) <= GHz 20 /\
   GHz 10 <= GHz 20 * (GHz 30 / GHz 30) <= GHz 20 /\
   _get_freq_scaling two_points (GHz 10) (GHz 20) [GHz 30] = Ok (Scalar 0)).
Proof.
  split; [split | repeat split]; try (vm_compute; reflexivity);
    try (vm_compute; discriminate).
  eexists. split; [vm_compute; reflexivity | reflexivity].
Qed.

End AMESpec.

(** * Properties of the binary64 operations *)

Module Binary64Spec.

Import Binary64.

Local Open Scope R_scope.

(** A result that neither overflows nor underflows. *)
Definition in_range (r : R) : Prop :=
  underflow_threshold < Rabs r /\ Rabs r < overflow_threshold.

Lemma Reqb_true (x y : R) : x = y -> Reqb x y = true.
Proof. intros ->. unfold Reqb. now destruct (Req_dec_T y y). Qed.

Lemma Reqb_false (x y : R) : x <> y -> Reqb x y = false.
Proof. intros Hne. unfold Reqb. now destruct (Req_dec_T x y). Qed.

Lemma Rltb_true (x y : R) : x < y -> Rltb x y = true.
Proof. intros Hlt. unfold Rltb. now destruct (Rlt_dec x y). Qed.

Lemma Rltb_false (x y : R) : y <= x -> Rltb x y = false.
Proof. intros Hle. unfold Rltb. destruct (Rlt_dec x y); [lra | reflexivity]. Qed.

Lemma thresholds : underflow_threshold < 1e-300 /\ 1e300 < overflow_threshold.
Proof. unfold underflow_threshold, overflow_threshold. split; lra. Qed.

Lemma round_in_range (r : R) : in_range r -> round r = Finite r.
Proof.
  intros [Hlo Hhi]. unfold round.
  destruct (Rle_dec overflow_threshold (Rabs r)); [lra|].
  destruct (Rle_dec (Rabs r) underflow_threshold); [lra | reflexivity].
Qed.

Lemma round_overflow (r : R) : overflow_threshold <= r -> round r = Infinity false.
Proof.
  intros Hr. unfold round.
  assert (Hpos : 0 < overflow_threshold) by (pose proof thresholds; lra).
  rewrite Rabs_pos_eq by lra.
  destruct (Rle_dec overflow_threshold r); [|lra].
  now rewrite Rltb_false by lra.
Qed.

(** A positive number between the two thresholds is in range. *)
Lemma in_range_pos (r : R) :
  underflow_threshold < r -> r < overflow_threshold -> in_range r.
Proof.
  intros Hlo Hhi. unfold in_range.
  assert (0 < underflow_threshold).
  { unfold underflow_threshold. apply Rinv_0_lt_compat. apply pow_lt. lra. }
  rewrite Rabs_pos_eq by lra. auto.
Qed.

Lemma in_range_mid (r : R) : 1e-300 <= r <= 1e300 -> in_range r.
Proof.
  intros [Hlo Hhi]. pose proof thresholds. apply in_range_pos; lra.
Qed.

Lemma in_range_nonzero (r : R) : in_range r -> r <> 0.
Proof.
  intros [Hlo _] ->. rewrite Rabs_R0 in Hlo.
  assert (0 < underflow_threshold); [|lra].
  unfold underflow_threshold. apply Rinv_0_lt_compat. apply pow_lt. lra.
Qed.

Lemma mul_in_range (a b : R) : in_range (a * b) -> mul (Finite a) (Finite b) = Finite (a * b).
Proof. intros Hr. simpl. now apply round_in_range. Qed.

Lemma div_in_range (a b : R) :
  b <> 0 -> in_range (a / b) -> div (Finite a) (Finite b) = Finite (a / b).
Proof.
  intros Hb Hr. simpl. rewrite (Reqb_false b 0 Hb). now apply round_in_range.
Qed.

Lemma div_self (a : R) : a <> 0 -> div (Finite a) (Finite a) = Finite 1.
Proof.
  intros Ha. simpl. rewrite (Reqb_false a 0 Ha).
  replace (a / a) with 1 by (field; exact Ha).
  apply round_in_range. apply in_range_mid. lra.
Qed.

(** [1 ** y] is 1 whatever [y], NaN included. *)
Lemma pow_one (y : float) : pow (Finite 1) y = Finite 1.
Proof.
  destruct y as [b|s|]; simpl.
  - destruct (Reqb b 0); [reflexivity|]. now rewrite (Reqb_true 1 1 eq_refl).
  - rewrite Rabs_R1. now rewrite (Reqb_true 1 1 eq_refl).
  - now rewrite (Reqb_true 1 1 eq_refl).
Qed.

(** A positive base: the power of the reals, unless it leaves the range. *)
Lemma pow_in_range (a b : R) :
  0 < a -> b <> 0 -> in_range (Rpower a b) ->
  pow (Finite a) (Finite b) = Finite (Rpower a b).
Proof.
  intros Ha Hb Hr. simpl. rewrite (Reqb_false b 0 Hb).
  destruct (Req_dec_T a 1) as [->|Hne].
  - rewrite (Reqb_true 1 1 eq_refl). f_equal. unfold Rpower.
    now rewrite ln_1, Rmult_0_r, exp_0.
  - rewrite (Reqb_false a 1 Hne), (Rltb_true 0 a Ha). now apply round_in_range.
Qed.

(** A finite float that is not zero. *)
Definition usable (x : float) : Prop := exists b, x = Finite b /\ b <> 0.

(** Nothing divided by an infinity is usable. *)
Lemma div_infinity (x : float) (s : bool) : ~ usable (div x (Infinity s)).
Proof.
  destruct x as [a|s'|]; simpl; intros (b & E & Hb); try discriminate E.
  injection E as <-. now apply Hb.
Qed.

(** *** Bounds on the exponential *)

Lemma exp_pow (x : R) (n : nat) : Rtrigo_def.exp (INR n * x) = Rtrigo_def.exp x ^ n.
Proof.
  induction n as [|n IH].
  - simpl. rewrite Rmult_0_l. apply exp_0.
  - rewrite S_INR, Rmult_plus_distr_r, Rmult_1_l, exp_plus, IH. simpl. ring.
Qed.

Lemma exp_1_ge : 5 / 2 <= Rtrigo_def.exp 1.
Proof.
  replace 1 with (INR 8 * (1 / 8)) by (simpl; lra).
  rewrite exp_pow.
  assert (Hb : 9 / 8 < Rtrigo_def.exp (1 / 8)).
  { pose proof (exp_ineq1 (1 / 8)). lra. }
  apply Rle_trans with ((9 / 8) ^ 8); [lra|].
  apply pow_incr. lra.
Qed.

Lemma exp_lower (x : R) (n : nat) : INR n <= x -> (5 / 2) ^ n <= Rtrigo_def.exp x.
Proof.
  intros Hx. apply Rle_trans with (Rtrigo_def.exp (INR n)).
  - replace (INR n) with (INR n * 1) by ring. rewrite exp_pow.
    apply pow_incr. split; [lra | apply exp_1_ge].
  - destruct Hx as [Hx|Hx]; [left; now apply exp_increasing | right; now rewrite Hx].
Qed.

Lemma exp_upper (x : R) (n : nat) : x <= INR n -> Rtrigo_def.exp x <= 3 ^ n.
Proof.
  intros Hx. apply Rle_trans with (Rtrigo_def.exp (INR n)).
  - destruct Hx as [Hx|Hx]; [left; now apply exp_increasing | right; now rewrite Hx].
  - replace (INR n) with (INR n * 1) by ring. rewrite exp_pow.
    apply pow_incr. split; [left; apply exp_pos | apply exp_le_3].
Qed.



End Binary64Spec.

(** * Properties of the numeric kernels *)

Module KernelsSpec.

Import Kernels.

Local Open Scope R_scope.

(** CODATA values of the constants and the CMB temperature of the
    docstring of [cmb.py], in SI units. *)
Definition codata : Constants.
Proof.
  refine {| h := 6.62607015e-34; c := 299792458;
            k_B := 1.380649e-23; T_0 := 2.7255 |}; lra.
Defined.

Lemma Rpower_base_1 (y : R) : Rpower 1 y = 1.
Proof. unfold Rpower. now rewrite ln_1, Rmult_0_r, exp_0. Qed.





(** *** Free-free *)

Lemma zip_with_map (f : R -> R -> R) (g g' : R -> R) (l : list R) :
  zip_with f (map g l) (map g' l) = map (fun x => f (g x) (g' x)) l.
Proof. induction l as [|x l IH]; simpl; [reflexivity | now rewrite IH]. Qed.


(** C3.  [LinearOpticallyThin._get_freq_scaling] evaluates both Gaunt
    factors on [T_e] cast to float64, a cast that keeps the values, so that
    the result is a float64 array of the shape of [T_e] whatever the dtype
    of [T_e] was; its entry for an electron temperature [Te] is
    [(nu_ref / nu) ** 2 * Gaunt(nu, Te) / Gaunt(nu_ref, Te)], with [Gaunt]
    the formula of the specification. *)
Theorem freefree_scaling (nu_ref nu : R) (T_e : ndarray) :
  let T_e64 := astype T_e float64 in
  let scaling := LinearOpticallyThin._get_freq_scaling nu_ref nu T_e in
  dt T_e64 = float64 /\ data T_e64 = data T_e /\
  dt (gaunt_factor nu T_e64) = float64 /\
  dt (gaunt_factor nu_ref T_e64) = float64 /\
  scaling
  = elementwise (fun s => s * (nu_ref / nu) ^ 2)
      (true_divide (gaunt_factor nu T_e64) (gaunt_factor nu_ref T_e64)) /\
  dt scaling = float64 /\
  shape scaling = shape T_e /\
  data scaling = map (freefree_scaling_spec nu_ref nu) (data T_e) /\
  (forall Te, gaunt nu Te = Gaunt_spec nu Te).
Proof.
  cbv zeta. repeat split.
  unfold LinearOpticallyThin._get_freq_scaling, gaunt_factor, elementwise,
    true_divide, astype. cbn [data dt shape].
  rewrite zip_with_map, map_map. apply map_ext. intros Te.
  unfold freefree_scaling_spec, Gaunt_spec, gaunt, np.e, Rdiv. ring.
Qed.

Import Binary64.
Import Binary64Spec.


Section WithConstants.

Context `{Constants}.

(** At [freq = freq_ref > 0] the quotient of the
    frequencies is 1 and so is every power of it. *)
Lemma power_law_at_reference (freq_ref exponent : R) :
  0 < freq_ref -> Rpower (freq_ref / freq_ref) exponent = 1.
Proof.
  intros Hf. replace (freq_ref / freq_ref) with 1 by (field; lra).
  apply Rpower_base_1.
Qed.

(** *** Modified blackbody *)

(** The Planck formula over the reals. *)
Definition planck (freq T : R) : R :=
  let x := h * freq / (k_B * T) in
  2 * h * Rpower freq 3 / (c * c * (Rtrigo_def.exp x - 1)).

(** No intermediate result of [blackbody_emission] leaves the range. *)
Definition blackbody_in_range (freq T : R) : Prop :=
  let x := h * freq / (k_B * T) in
  Forall in_range
    [h * freq; k_B * T; x; 2 * h; Rpower freq 3; 2 * h * Rpower freq 3;
     c * c; Rtrigo_def.exp x - 1; c * c * (Rtrigo_def.exp x - 1); planck freq T].

Lemma blackbody_emission_value (freq T : R) :
  0 < freq -> blackbody_in_range freq T ->
  F.blackbody_emission (Finite freq) (Finite T) = Finite (planck freq T) /\
  planck freq T <> 0.
Proof.
  intros Hf Hr. unfold blackbody_in_range in Hr. cbv zeta in Hr.
  repeat match goal with
         | E : Forall _ (_ :: _) |- _ => inversion E; subst; clear E
         end.
  match goal with E : in_range (planck _ _) |- _ => pose proof (in_range_nonzero _ E) end.
  split; [|assumption].
  unfold F.blackbody_emission, square, expm1. cbv zeta.
  rewrite !mul_in_range by assumption.
  rewrite div_in_range by (try apply in_range_nonzero; assumption).
  rewrite round_in_range by assumption.
  rewrite pow_in_range by (try assumption; lra).
  rewrite !mul_in_range by assumption.
  rewrite div_in_range by (try apply in_range_nonzero; assumption).
  reflexivity.
Qed.

(** Once [expm1(x)] overflows, the Planck value is 0.0. *)
Lemma blackbody_emission_zero (freq T : R) :
  let x := h * freq / (k_B * T) in
  0 < freq ->
  Forall in_range
    [h * freq; k_B * T; x; 2 * h; Rpower freq 3; 2 * h * Rpower freq 3; c * c] ->
  overflow_threshold <= Rtrigo_def.exp x - 1 ->
  F.blackbody_emission (Finite freq) (Finite T) = Finite 0.
Proof.
  intros x Hf Hr Hover. subst x.
  repeat match goal with
         | E : Forall _ (_ :: _) |- _ => inversion E; subst; clear E
         end.
  unfold F.blackbody_emission, square, expm1. cbv zeta.
  rewrite !mul_in_range by assumption.
  rewrite div_in_range by (try apply in_range_nonzero; assumption).
  rewrite (round_overflow _ Hover).
  rewrite pow_in_range by (try assumption; lra).
  rewrite mul_in_range by assumption.
  cbn [mul div].
  match goal with E : in_range (c * c) |- _ =>
    now rewrite (Reqb_false (c * c) 0 (in_range_nonzero _ E)) end.
Qed.

(** The dust scaling at the reference frequency is decided by the Planck
    value there. *)
Lemma dust_at_reference (freq_ref : R) (beta T : float) :
  freq_ref <> 0 ->
  let B := F.blackbody_emission (Finite freq_ref) T in
  (usable B ->
   Dust._get_freq_scaling (Finite freq_ref) (Finite freq_ref) beta T = Finite 1) /\
  (~ usable B ->
   Dust._get_freq_scaling (Finite freq_ref) (Finite freq_ref) beta T = NaN).
Proof.
  intros Hf B. unfold Dust._get_freq_scaling. cbv zeta. fold B.
  rewrite (div_self freq_ref Hf), pow_one. split.
  - intros (b & -> & Hb). rewrite (div_self b Hb). simpl.
    rewrite Rmult_1_r. apply round_in_range. apply in_range_mid. lra.
  - intros Hn. destruct B as [b|s|]; [|reflexivity|reflexivity].
    destruct (Req_dec_T b 0) as [->|Hb].
    + simpl. now rewrite (Reqb_true 0 0 eq_refl).
    + exfalso. apply Hn. now exists b.
Qed.

(** C2, as the code has it.  At [freq = freq_ref > 0] the power laws of
    Synchrotron (exponent [beta]) and Radio (exponent [specind - 2]) are 1 for
    every exponent.  The modified blackbody of Dust is 1, for every [beta],
    exactly when the Planck value at [freq_ref] and [T] is a finite float
    other than zero, and NaN otherwise; the Planck value is such a float
    whenever no intermediate result of its formula overflows or
    underflows. *)
Theorem scaling_at_reference_frequency (freq_ref : R) :
  0 < freq_ref ->
  (forall beta, Synchrotron._get_freq_scaling freq_ref freq_ref beta = 1) /\
  (forall specind, Radio._get_freq_scaling freq_ref freq_ref specind = 1) /\
  (forall beta T,
     let B := F.blackbody_emission (Finite freq_ref) T in
     (usable B ->
      Dust._get_freq_scaling (Finite freq_ref) (Finite freq_ref) beta T = Finite 1) /\
     (~ usable B ->
      Dust._get_freq_scaling (Finite freq_ref) (Finite freq_ref) beta T = NaN)) /\
  (forall T, blackbody_in_range freq_ref T ->
     usable (F.blackbody_emission (Finite freq_ref) (Finite T))).
Proof.
  intros Hf. unfold Synchrotron._get_freq_scaling, Radio._get_freq_scaling.
  split; [intros; now apply power_law_at_reference|].
  split; [intros; now apply power_law_at_reference|].
  split.
  - intros beta T. apply dust_at_reference. lra.
  - intros T Hr. destruct (blackbody_emission_value freq_ref T Hf Hr) as [Hv Hn].
    exists (planck freq_ref T). auto.
Qed.

(** *** CMB *)






End WithConstants.

(** *** The kernels at concrete inputs, with the CODATA constants *)

Lemma Rpower_3 (x : R) : 0 < x -> Rpower x 3 = x * x * x.
Proof.
  intros Hx. replace 3 with (INR 3) by (simpl; lra).
  rewrite Rpower_pow by exact Hx. simpl. ring.
Qed.

Lemma expm1_small (x : R) : 0 < x <= 1 -> x < Rtrigo_def.exp x - 1 <= 2.
Proof.
  intros [Hlo Hhi]. pose proof (exp_ineq1 x ltac:(lra)).
  pose proof (exp_upper x 1 ltac:(simpl; lra)). lra.
Qed.

Lemma codata_h : @h codata = 6.62607015e-34.
Proof. reflexivity. Qed.

Lemma codata_c : @c codata = 299792458.
Proof. reflexivity. Qed.

Lemma codata_k_B : @k_B codata = 1.380649e-23.
Proof. reflexivity. Qed.






(** At 30 GHz and 20 K, [x] is about 0.072 and the Planck value about
    5e-18 in SI units. *)
Lemma dust_30GHz_in_range : @blackbody_in_range codata 30e9 20.
Proof.
  unfold blackbody_in_range, planck. cbv zeta.
  rewrite codata_h, codata_k_B, codata_c.
  set (x := 6.62607015e-34 * 30e9 / (1.380649e-23 * 20)).
  assert (Hx : 0.07 <= x <= 0.08) by (unfold x; lra).
  pose proof (expm1_small x ltac:(lra)) as He.
  set (e := Rtrigo_def.exp x) in *.
  rewrite Rpower_3 by lra.
  set (d := 299792458 * 299792458 * (e - 1)).
  assert (Hd : 1e15 <= d <= 1e18) by (unfold d; lra).
  assert (Hinv : / 1e18 <= / d <= / 1e15)
    by (split; apply Rinv_le_contravar; lra).
  repeat constructor; apply in_range_mid; unfold Rdiv; lra.
Qed.

Lemma scaling_at_reference_frequency_witness :
  @Dust._get_freq_scaling codata (Finite 30e9) (Finite 30e9) (Finite 1.5) (Finite 20)
  = Finite 1.
Proof.
  assert (Hpos : 0 < 30e9) by lra.
  destruct (@scaling_at_reference_frequency codata 30e9 Hpos)
    as (_ & _ & Hdust & Husable).
  apply Hdust. apply Husable. exact dust_30GHz_in_range.
Defined.

(** C2, as stated, fails for Dust at 857 GHz and 0.05 K: [x] is about
    822.6, [expm1(x)] overflows, both Planck values are 0.0, and their
    quotient, and with it the scaling at the reference frequency, is nan. *)
Lemma scaling_at_reference_frequency_counterexample :
  0 < 857e9 /\ 0 < 0.05 /\
  @F.blackbody_emission codata (Finite 857e9) (Finite 0.05) = Finite 0 /\
  @Dust._get_freq_scaling codata (Finite 857e9) (Finite 857e9) (Finite 1.5) (Finite 0.05)
  = NaN.
Proof.
  assert (Hzero : @F.blackbody_emission codata (Finite 857e9) (Finite 0.05) = Finite 0).
  { apply blackbody_emission_zero; rewrite ?codata_h, ?codata_k_B, ?codata_c.
    all: set (x := 6.62607015e-34 * 857e9 / (1.380649e-23 * 0.05)).
    all: assert (Hx : 822 <= x <= 823) by (unfold x; lra).
    - lra.
    - rewrite Rpower_3 by lra. repeat constructor; apply in_range_mid; lra.
    - pose proof (exp_lower x 822 ltac:(rewrite INR_IZR_INZ; simpl; lra)) as Hlo.
      unfold overflow_threshold. lra. }
  split; [lra|]. split; [lra|]. split; [exact Hzero|].
  apply (@dust_at_reference codata 857e9 (Finite 1.5) (Finite 0.05)); [lra|].
  rewrite Hzero. intros (b & E & Hb). injection E as <-. now apply Hb.
Qed.

End KernelsSpec.

(** * Properties of the dipole methods *)

Module DipoleSpec.

Import Dipole.
Import CMB.

Local Open Scope R_scope.

Lemma add_subtract (a b : list R) :
  List.length b = List.length a -> add (subtract a b) b = a.
Proof.
  revert b. induction a as [|x a IH]; intros [|y b] Hlen; simpl in *;
    try discriminate; [reflexivity|].
  rewrite IH by congruence. f_equal. ring.
Qed.

Section WithHealpy.

Context `{Healpy}.

(** The dipole [get_dipole] fits on a map that has none removed. *)
Definition fitted_dipole (row : list R) (gal_cut : R) : list R :=
  subtract row (hp_remove_dipole row gal_cut).

Lemma get_dipole_cached (self : CMB.t) (d : list R) (gal_cut : R) :
  dipole self = Some d ->
  CMB.get_dipole gal_cut self = Ok (d, [overriding_gal_cut], self).
Proof.
  intros Hd. unfold CMB.get_dipole, mbind, get_self, warn, ret. now rewrite Hd.
Qed.

Lemma get_dipole_fresh (row : list R) (rest : list (list R)) (gal_cut : R) :
  CMB.get_dipole gal_cut (CMB.mk (row :: rest) None)
  = Ok (fitted_dipole row gal_cut, [], CMB.mk (row :: rest) None).
Proof. reflexivity. Qed.

Lemma remove_dipole_state (row : list R) (rest : list (list R))
    (old : option (list R)) (gal_cut : R) :
  CMB.remove_dipole gal_cut (CMB.mk (row :: rest) old)
  = Ok (tt, [], CMB.mk (hp_remove_dipole row gal_cut :: rest)
                      (Some (fitted_dipole row gal_cut))).
Proof. reflexivity. Qed.

(** C5.  Once [remove_dipole] has run on a component with intensity map
    [row], every later [get_dipole], whatever its [gal_cut], returns the
    dipole that was removed, warns that [gal_cut] is overridden and leaves
    the component as it is; that dipole is [row] minus the intensity map now
    stored, and added back to the stored map it gives [row] again.  More
    generally a component that has a [dipole] attribute returns it, with the
    warning, on every [get_dipole]. *)
Theorem dipole_roundtrip (row : list R) (rest : list (list R))
    (old : option (list R)) (gal_cut : R) :
  let original := CMB.mk (row :: rest) old in
  exists removed stored,
    CMB.remove_dipole gal_cut original = Ok (tt, [], removed) /\
    amp removed = stored :: rest /\
    (forall gal_cut',
       CMB.get_dipole gal_cut' removed
       = Ok (subtract row stored, [overriding_gal_cut], removed)) /\
    add (subtract row stored) stored = row /\
    (forall self d gal_cut',
       dipole self = Some d ->
       CMB.get_dipole gal_cut' self = Ok (d, [overriding_gal_cut], self)).
Proof.
  intros original. subst original.
  exists (CMB.mk (hp_remove_dipole row gal_cut :: rest)
                (Some (fitted_dipole row gal_cut))),
         (hp_remove_dipole row gal_cut).
  split; [apply remove_dipole_state|]. split; [reflexivity|].
  split; [intros g; now apply get_dipole_cached|].
  split; [apply add_subtract, hp_remove_dipole_length|].
  intros self d g. apply get_dipole_cached.
Qed.

(** C10.  On a component from which no dipole was removed, [get_dipole]
    returns the dipole fitted with the [gal_cut] it is given, without a
    warning, and leaves the component as it was: the amplitude map is
    untouched and there is still no [dipole] attribute.  A second call
    therefore fits again, with its own [gal_cut]. *)
Theorem get_dipole_leaves_state (row : list R) (rest : list (list R))
    (gal_cut gal_cut' : R) :
  let self := CMB.mk (row :: rest) None in
  CMB.get_dipole gal_cut self = Ok (fitted_dipole row gal_cut, [], self) /\
  (CMB.get_dipole gal_cut >> CMB.get_dipole gal_cut') self
  = Ok (fitted_dipole row gal_cut', [], self) /\
  (forall s result warnings s',
     dipole s = None ->
     CMB.get_dipole gal_cut s = Ok (result, warnings, s') ->
     s' = s /\ warnings = [] /\
     exists row0, hd_error (amp s) = Some row0 /\
                  result = fitted_dipole row0 gal_cut).
Proof.
  intros self. subst self. split; [reflexivity|]. split; [reflexivity|].
  intros [a d] result warnings s' Hd. simpl in Hd. subst d.
  destruct a as [|row0 a]; [discriminate|].
  rewrite get_dipole_fresh. intros [= <- <- <-].
  repeat split. exists row0. split; reflexivity.
Qed.

End WithHealpy.

(** A stand-in for healpy's fit that takes half of every pixel for the
    dipole; it shows the interface is inhabited and lets the methods run. *)
Definition halving : Healpy.
Proof.
  refine {| hp_remove_dipole := fun m _ => map (fun v => v / 2) m |}.
  intros m g. apply length_map.
Defined.

Example dipole_roundtrip_3_pixels :
  exists removed,
    @CMB.remove_dipole halving 10 (CMB.mk [[2; 4; 6]] None) = Ok (tt, [], removed) /\
    amp removed = [[2 / 2; 4 / 2; 6 / 2]] /\
    @CMB.get_dipole halving 30 removed
    = Ok ([2 - 2 / 2; 4 - 4 / 2; 6 - 6 / 2], [overriding_gal_cut], removed).
Proof. eexists. repeat split. Qed.

End DipoleSpec.

(** * Construction as a whole *)

Module ConstructionSpec.

Import Validation.
Import ValidationSpec.

Section WithAstropy.

Context `{Astropy}.

(** What the loop of [DiffuseComponent._validate_spectral_parameters] lets
    through when [amp] has leading dimension [S]. *)
Definition diffuse_parameter (S : nat) (p : pyobj) : Prop :=
  exists q M, p = PyQuantity q /\ 2 <= ndim (shape q) /\
              leading (shape q) = Some S /\ second (shape q) = Some M /\
              (M <= 1 \/ valid_npix M).

(** What the loop of [PointSourceComponent._validate_spectral_parameters]
    lets through. *)
Definition point_source_parameter (S : nat) (p : pyobj) : Prop :=
  exists q, p = PyQuantity q /\ 2 <= ndim (shape q) /\ leading (shape q) = Some S.

Lemma valid_npix_dec (n : nat) : valid_npix n \/ ~ valid_npix n.
Proof.
  rewrite <- isnpixok_iff. destruct (hp.isnpixok n); intuition congruence.
Qed.

Lemma second_of_rank_2 (s : list nat) :
  2 <= ndim s -> exists M, second s = Some M.
Proof.
  destruct s as [|a [|b s]]; simpl; try lia. intros _. now exists b.
Qed.

Lemma leading_dec (s : list nat) (S : nat) :
  leading s = Some S \/ leading s <> Some S.
Proof.
  destruct (leading s) as [n|]; [|right; discriminate].
  destruct (Nat.eq_dec n S) as [->|Hne]; [now left | right; congruence].
Qed.

(** The outcome of the body of the loop, in full. *)
Lemma diffuse_parameter_outcome (self : SkyComponent.t) (a : Quantity Unit)
    (S : nat) (p : pyobj) :
  SkyComponent.amp self = PyQuantity a -> leading (shape a) = Some S -> 0 < S ->
  (DiffuseComponent.validate_parameter self p = Ok tt /\ diffuse_parameter S p) \/
  (~ diffuse_parameter S p /\
   (DiffuseComponent.validate_parameter self p = Raise TypeError \/
    DiffuseComponent.validate_parameter self p = Raise ValueError \/
    DiffuseComponent.validate_parameter self p = Raise NsideError)).
Proof.
  intros Ha HS Hpos.
  destruct p as [| |q];
    try (right; split; [intros (q & M & [=] & _) | now left]).
  destruct (diffuse_parameter_cases self a q S Ha HS Hpos) as (Hshape & Hnside & Hpass).
  destruct (le_lt_dec 2 (ndim (shape q))) as [Hrank|Hrank].
  - destruct (leading_dec (shape q) S) as [Hl|Hl].
    + destruct (second_of_rank_2 _ Hrank) as [M HM].
      destruct (le_lt_dec M 1) as [Hle|Hlt].
      * left. split; [apply (Hpass M); auto|]. exists q, M. repeat split; auto.
      * destruct (valid_npix_dec M) as [Hv|Hv].
        -- left. split; [apply (Hpass M); auto|]. exists q, M. repeat split; auto.
        -- right. split; [|right; right; now apply (Hnside M)].
           intros (q' & M' & [= <-] & _ & _ & HM' & Hok).
           rewrite HM in HM'. injection HM' as <-. destruct Hok; [lia | tauto].
    + right. split; [|right; left; apply Hshape; now right].
      intros (q' & M' & [= <-] & _ & Hl' & _). contradiction.
  - right. split; [|right; left; apply Hshape; now left].
    intros (q' & M' & [= <-] & Hr & _). lia.
Qed.

Lemma diffuse_parameters_outcome (self : SkyComponent.t) (a : Quantity Unit)
    (S : nat) (ps : list (string * pyobj)) :
  SkyComponent.amp self = PyQuantity a -> leading (shape a) = Some S -> 0 < S ->
  (DiffuseComponent._validate_spectral_parameters self ps = Ok tt /\
   Forall (fun kv => diffuse_parameter S (snd kv)) ps) \/
  (~ Forall (fun kv => diffuse_parameter S (snd kv)) ps /\
   (DiffuseComponent._validate_spectral_parameters self ps = Raise TypeError \/
    DiffuseComponent._validate_spectral_parameters self ps = Raise ValueError \/
    DiffuseComponent._validate_spectral_parameters self ps = Raise NsideError)).
Proof.
  intros Ha HS Hpos. induction ps as [|[name p] ps IH]; simpl.
  - left. split; [reflexivity | constructor].
  - destruct (diffuse_parameter_outcome self a S p Ha HS Hpos) as [[Hok Hp]|[Hp He]].
    + rewrite Hok. simpl. destruct IH as [[Hoks Hps]|[Hps Hes]].
      * left. split; [exact Hoks | now constructor].
      * right. split; [|exact Hes]. intros Hall. inversion Hall; subst. tauto.
    + right. split; [intros Hall; inversion Hall; subst; tauto|].
      destruct He as [-> |[-> | ->]]; simpl; auto.
Qed.

(** The invariant a diffuse component is built on. *)
Definition diffuse_invariant (amp freq_ref : pyobj)
    (parameters : list (string * pyobj)) : Prop :=
  exists f a S,
    freq_ref = PyQuantity f /\ freq_ref_shape f /\
    convertible spectral (unit_of f) DEFAULT_FREQ_UNIT /\
    amp = PyQuantity a /\ healpix_map (shape a) /\
    leading (shape a) = Some S /\ leading (shape f) = Some S /\
    converts f (shape a) (unit_of a) /\
    Forall (fun kv => diffuse_parameter S (snd kv)) parameters.

(** The stages of [DiffuseComponent.__init__], one after the other. *)
Lemma diffuse_construction_outcome (amp freq_ref : pyobj)
    (parameters : list (string * pyobj)) :
  (DiffuseComponent.__init__ amp freq_ref parameters
   = Ok (SkyComponent.mk _ amp freq_ref parameters) /\
   diffuse_invariant amp freq_ref parameters) \/
  (~ diffuse_invariant amp freq_ref parameters /\
   exists e, DiffuseComponent.__init__ amp freq_ref parameters = Raise e /\
             (e = TypeError \/ e = ValueError \/ e = UnitsError \/ e = NsideError)).
Proof.
  set (self := SkyComponent.mk _ amp freq_ref parameters).
  destruct (validate_freq_ref_cases freq_ref)
    as [[Hn He]|[(f & Hf & Hs & He)|[(f & Hf & Hs & Hc & He)|[Hv He]]]].
  1-3: right; split;
    [ intros (f' & a & S & Hf' & Hs' & Hc' & _); subst freq_ref;
      try (apply Hn; now exists f'); injection Hf' as <-; tauto
    | unfold DiffuseComponent.__init__, SkyComponent.__init__; rewrite He;
      eexists; split; [reflexivity | tauto] ].
  rewrite (diffuse_init_validated _ _ _ He). cbv zeta. fold self.
  destruct Hv as (f & Hf & Hs & Hc).
  assert (Hfr : SkyComponent.freq_ref self = PyQuantity f) by exact Hf.
  assert (Hok : SkyComponent._validate_freq_ref (SkyComponent.freq_ref self) = Ok tt)
    by exact He.
  destruct (diffuse_amp_cases self amp f Hfr Hok)
    as [[Hn Ha]|[(a & Ha' & Hm & Ha)|[(a & Ha' & Hm & Hl & Ha)
       |[(a & Ha' & Hm & Hl & Hcv & Ha)|[(a & Ha' & Hm & Hl & Hcv & Ha)
       |(a & Ha' & Hm & Hl & Hcv & Ha)]]]]];
    rewrite Ha; cbn [bind].
  1-5: right; split;
    [ intros (f' & a' & S & Hf' & _ & _ & Ha'' & Hm' & Hl1 & Hl2 & Hc' & _);
      rewrite Hf in Hf'; injection Hf' as <-;
      try (apply Hn; now exists a');
      rewrite Ha' in Ha''; injection Ha'' as <-;
      try tauto; try (apply Hl; congruence);
      try (exact (converts_or_stops _ _ _ Hc' Hcv));
      try (apply Hcv; exact (converts_convertible _ _ _ Hc'))
    | eexists; split; [reflexivity | tauto] ].
  destruct (healpix_map_leading _ Hm) as (S & HS & Hpos).
  assert (Hamp : SkyComponent.amp self = PyQuantity a) by exact Ha'.
  destruct (diffuse_parameters_outcome self a S parameters Hamp HS Hpos)
    as [[Hps Hall]|[Hall Hes]].
  - left. rewrite Hps. split; [reflexivity|].
    exists f, a, S. repeat split; auto. congruence.
  - right. split.
    + intros (f' & a' & S' & Hf' & _ & _ & Ha'' & _ & Hl1 & _ & _ & Hall').
      rewrite Ha' in Ha''. injection Ha'' as <-.
      rewrite HS in Hl1. injection Hl1 as <-. contradiction.
    + destruct Hes as [-> |[-> | ->]]; eexists; (split; [reflexivity | tauto]).
Qed.

(** X1.  The construction of a diffuse component succeeds exactly on the
    inputs that satisfy the invariant: a reference frequency of shape (1, 1)
    or (3, 1) convertible to the default frequency unit, an amplitude map
    with a pixel count healpy takes, the leading dimension of the reference
    frequency and a unit that converts to the default output unit (by a
    plain scaling, or through the equivalence when the shape of the map
    broadcasts against that of the reference frequency), and
    parameters that are Quantities of rank 2 or more with that leading
    dimension and a second dimension that is at most 1 or a pixel count.
    When it succeeds it returns the component holding exactly its
    arguments. *)
Theorem diffuse_construction_iff (amp freq_ref : pyobj)
    (parameters : list (string * pyobj)) :
  (succeeds (DiffuseComponent.__init__ amp freq_ref parameters) = true <->
   diffuse_invariant amp freq_ref parameters) /\
  (forall self, DiffuseComponent.__init__ amp freq_ref parameters = Ok self ->
     self = SkyComponent.mk _ amp freq_ref parameters).
Proof.
  destruct (diffuse_construction_outcome amp freq_ref parameters)
    as [[Hok Hinv]|[Hinv (e & He & _)]].
  - rewrite Hok. split; [split; auto|]. now intros self [= <-].
  - rewrite He. split; [split; [discriminate | tauto]|]. intros self [=].
Qed.

(** X2.  Whatever its arguments, the construction of a diffuse component
    raises nothing but a TypeError, a ValueError, a UnitsError or an
    NsideError: the TypeError of healpy, the UnitConversionError of astropy
    and the IndexError of an out-of-range [shape[i]] never escape. *)
Theorem diffuse_construction_errors (amp freq_ref : pyobj)
    (parameters : list (string * pyobj)) (e : exn) :
  DiffuseComponent.__init__ amp freq_ref parameters = Raise e ->
  e = TypeError \/ e = ValueError \/ e = UnitsError \/ e = NsideError.
Proof.
  destruct (diffuse_construction_outcome amp freq_ref parameters)
    as [[Hok _]|[_ (e' & He & Hk)]]; rewrite ?Hok, ?He; [discriminate|].
  now intros [= <-].
Qed.

(** X3.  A diffuse component that was constructed has an amplitude map with
    at least two axes, of shape (1, N, ...) or (3, N, ...) with
    [N = 12 * nside * nside]: a one-dimensional map is never accepted, since
    its length would have to be both 1 or 3 and a pixel count. *)
Theorem diffuse_amp_shape (amp freq_ref : pyobj)
    (parameters : list (string * pyobj)) (self : SkyComponent.t) :
  DiffuseComponent.__init__ amp freq_ref parameters = Ok self ->
  exists a S N rest,
    SkyComponent.amp self = PyQuantity a /\ shape a = S :: N :: rest /\
    (S = 1 \/ S = 3) /\ valid_npix N.
Proof.
  intros Hinit.
  destruct (diffuse_construction_outcome amp freq_ref parameters)
    as [[Hok Hinv]|[_ (e & He & _)]]; [|congruence].
  rewrite Hok in Hinit. injection Hinit as <-.
  destruct Hinv as (f & a & S & _ & Hs & _ & -> & Hm & Hl & Hlf & _).
  assert (HS : S = 1 \/ S = 3).
  { unfold leading in Hlf. destruct Hs as [Hs|Hs]; rewrite Hs in Hlf;
      injection Hlf as <-; auto. }
  exists a, S. destruct Hm as (npix & Hn & Hv).
  unfold leading in Hl. destruct (shape a) as [|n [|N rest]]; try discriminate.
  - injection Hl as ->. destruct S; [lia|]. injection Hn as <-.
    exfalso. destruct Hv as [[|k] Hk]; lia.
  - injection Hl as ->. exists N, rest. destruct S; [lia|].
    injection Hn as <-. auto.
Qed.

(** *** Point sources *)

Lemma point_source_parameter_outcome (self : SkyComponent.t) (a : Quantity Unit)
    (S : nat) (p : pyobj) :
  SkyComponent.amp self = PyQuantity a -> leading (shape a) = Some S ->
  (PointSourceComponent.validate_parameter self p = Ok tt /\
   point_source_parameter S p) \/
  (~ point_source_parameter S p /\
   (PointSourceComponent.validate_parameter self p = Raise TypeError \/
    PointSourceComponent.validate_parameter self p = Raise ValueError)).
Proof.
  intros Ha HS. unfold point_source_parameter.
  destruct p as [| |q];
    try (right; split; [intros (q & [=] & _) | now left]).
  unfold PointSourceComponent.validate_parameter. rewrite Ha.
  pose proof (index_leading _ _ HS) as Hi.
  unfold ndim, leading. destruct (shape q) as [|p0 [|p1 rest]] eqn:Hq; simpl.
  - right. split; [intros (q' & [= <-] & Hr & _); rewrite Hq in Hr; simpl in Hr; lia | now right].
  - right. split; [intros (q' & [= <-] & Hr & _); rewrite Hq in Hr; simpl in Hr; lia | now right].
  - rewrite Hi. simpl. destruct (Nat.eqb_spec p0 S) as [->|Hne]; simpl.
    + left. split; [reflexivity|]. exists q. rewrite Hq. simpl. repeat split; auto. lia.
    + right. split; [|now right].
      intros (q' & [= <-] & _ & Hl). rewrite Hq in Hl. simpl in Hl. congruence.
Qed.

Lemma point_source_parameters_outcome (self : SkyComponent.t) (a : Quantity Unit)
    (S : nat) (ps : list (string * pyobj)) :
  SkyComponent.amp self = PyQuantity a -> leading (shape a) = Some S ->
  (PointSourceComponent._validate_spectral_parameters self ps = Ok tt /\
   Forall (fun kv => point_source_parameter S (snd kv)) ps) \/
  (~ Forall (fun kv => point_source_parameter S (snd kv)) ps /\
   (PointSourceComponent._validate_spectral_parameters self ps = Raise TypeError \/
    PointSourceComponent._validate_spectral_parameters self ps = Raise ValueError)).
Proof.
  intros Ha HS. induction ps as [|[name p] ps IH]; simpl.
  - left. split; [reflexivity | constructor].
  - destruct (point_source_parameter_outcome self a S p Ha HS) as [[Hok Hp]|[Hp He]].
    + rewrite Hok. simpl. destruct IH as [[Hoks Hps]|[Hps Hes]].
      * left. split; [exact Hoks | now constructor].
      * right. split; [|exact Hes]. intros Hall. inversion Hall; subst. tauto.
    + right. split; [intros Hall; inversion Hall; subst; tauto|].
      destruct He as [-> | ->]; simpl; auto.
Qed.

(** The invariant a point-source component is built on; [catalog] is the
    class attribute. *)
Definition point_source_invariant (catalog : option (list nat))
    (amp freq_ref : pyobj) (parameters : list (string * pyobj)) : Prop :=
  exists f a S c n,
    freq_ref = PyQuantity f /\ freq_ref_shape f /\
    convertible spectral (unit_of f) DEFAULT_FREQ_UNIT /\
    amp = PyQuantity a /\
    leading (shape a) = Some S /\ leading (shape f) = Some S /\
    converts f (shape a) (unit_div (unit_of a) sr) /\
    catalog = Some c /\ second c = Some n /\ second (shape a) = Some n /\
    Forall (fun kv => point_source_parameter S (snd kv)) parameters.

Lemma validate_catalog_outcome (self : SkyComponent.t) (a : Quantity Unit)
    (c : list nat) :
  SkyComponent.amp self = PyQuantity a ->
  (PointSourceComponent._validate_catalog self c = Ok tt /\
   exists n, second c = Some n /\ second (shape a) = Some n) \/
  (~ (exists n, second c = Some n /\ second (shape a) = Some n) /\
   (PointSourceComponent._validate_catalog self c = Raise IndexError \/
    PointSourceComponent._validate_catalog self c = Raise ValueError)).
Proof.
  intros Ha. unfold PointSourceComponent._validate_catalog, index, second.
  rewrite Ha. cbn [shape_attr].
  destruct (nth_error c 1) as [c1|]; cbn [bind].
  - destruct (nth_error (shape a) 1) as [a1|]; cbn [bind].
    + destruct (Nat.eqb_spec c1 a1) as [->|Hne]; cbn [negb].
      * left. split; [reflexivity | now exists a1].
      * right. split; [intros (n & [= ->] & [= ->]); congruence | now right].
    + right. split; [intros (n & _ & [=]) | now left].
  - right. split; [intros (n & [=] & _) | now left].
Qed.

Lemma point_source_construction_outcome (catalog : option (list nat))
    (amp freq_ref : pyobj) (parameters : list (string * pyobj)) :
  (PointSourceComponent.__init__ catalog amp freq_ref parameters
   = Ok (SkyComponent.mk _ amp freq_ref parameters) /\
   point_source_invariant catalog amp freq_ref parameters) \/
  (~ point_source_invariant catalog amp freq_ref parameters /\
   exists e, PointSourceComponent.__init__ catalog amp freq_ref parameters = Raise e /\
             (e = TypeError \/ e = ValueError \/ e = UnitsError \/
              e = IndexError \/ e = AttributeError)).
Proof.
  set (self := SkyComponent.mk _ amp freq_ref parameters).
  unfold PointSourceComponent.__init__, SkyComponent.__init__.
  destruct (validate_freq_ref_cases freq_ref)
    as [[Hn He]|[(f & Hf & Hs & He)|[(f & Hf & Hs & Hc & He)|[Hv He]]]];
    rewrite He; cbn [bind].
  1-3: right; split;
    [ intros (f' & a & S & c & n & Hf' & Hs' & Hc' & _); subst freq_ref;
      try (apply Hn; now exists f'); injection Hf' as <-; tauto
    | eexists; split; [reflexivity | tauto] ].
  fold self. destruct Hv as (f & Hf & Hs & Hc).
  assert (Hfr : SkyComponent.freq_ref self = PyQuantity f) by exact Hf.
  assert (Hok : SkyComponent._validate_freq_ref (SkyComponent.freq_ref self) = Ok tt)
    by exact He.
  destruct (valid_freq_ref_leading _ (proj1 (validate_freq_ref_ok _) He))
    as (f' & S & Hf' & HSf & _).
  rewrite Hf in Hf'. injection Hf' as <-.
  destruct (point_source_amp_cases self amp f Hfr Hok)
    as [[Hn Ha]|[(a & Ha' & Hsh & Ha)|[(a & Ha' & Hsh & Hl & Ha)
       |[(a & Ha' & Hl & Hcv & Ha)|[(a & Ha' & Hl & Hcv & Ha)
       |(a & Ha' & Hl & Hcv & Ha)]]]]];
    rewrite Ha; cbn [bind].
  1-5: right; split;
    [ intros (f' & a' & S' & c & n & Hf' & _ & _ & Ha'' & Hl1 & Hl2 & Hc' & _);
      rewrite Hf in Hf'; injection Hf' as <-;
      try (apply Hn; now exists a');
      rewrite Ha' in Ha''; injection Ha'' as <-;
      try tauto; try (apply Hl; congruence);
      try (exact (converts_or_stops _ _ _ Hc' Hcv));
      try (apply Hcv; exact (converts_convertible _ _ _ Hc'));
      rewrite Hsh in Hl1; discriminate
    | eexists; split; [reflexivity | tauto] ].
  assert (Hamp : SkyComponent.amp self = PyQuantity a) by exact Ha'.
  assert (HS : leading (shape a) = Some S) by congruence.
  destruct catalog as [c|]; cbn [bind].
  2: { right. split; [|eexists; split; [reflexivity | tauto]].
       intros (f' & a' & S' & c & n & _ & _ & _ & _ & _ & _ & _ & [=] & _). }
  destruct (validate_catalog_outcome self a c Hamp) as [[Hcat (n & Hn1 & Hn2)]|[Hcat Hes]].
  - rewrite Hcat. cbn [bind].
    destruct (point_source_parameters_outcome self a S parameters Hamp HS)
      as [[Hps Hall]|[Hall Hes]].
    + left. rewrite Hps. split; [reflexivity|].
      exists f, a, S, c, n. repeat split; auto.
    + right. split.
      * intros (f' & a' & S' & c' & n' & _ & _ & _ & Ha'' & Hl1 & _ & _ & _ & _ & _ & Hall').
        rewrite Ha' in Ha''. injection Ha'' as <-.
        rewrite HS in Hl1. injection Hl1 as <-. contradiction.
      * destruct Hes as [-> | ->]; eexists; (split; [reflexivity | tauto]).
  - right. split.
    + intros (f' & a' & S' & c' & n' & _ & _ & _ & Ha'' & _ & _ & _ & [= <-] & Hn1 & Hn2 & _).
      rewrite Ha' in Ha''. injection Ha'' as <-. apply Hcat. now exists n'.
    + destruct Hes as [-> | ->]; eexists; (split; [reflexivity | tauto]).
Qed.

(** X4.  The construction of a point-source component succeeds exactly when
    the reference frequency is valid, [amp] is a Quantity with the leading
    dimension of the reference frequency whose unit divided by sr converts
    to the default output unit (by a plain scaling, or through the
    equivalence when the shape of [amp] broadcasts against that of the
    reference frequency), the class has a catalog whose second
    dimension is that of [amp], and every parameter is a Quantity of rank 2
    or more with the leading dimension of [amp].  It then returns the
    component holding exactly its arguments. *)
Theorem point_source_construction_iff (catalog : option (list nat))
    (amp freq_ref : pyobj) (parameters : list (string * pyobj)) :
  (succeeds (PointSourceComponent.__init__ catalog amp freq_ref parameters) = true <->
   point_source_invariant catalog amp freq_ref parameters) /\
  (forall self,
     PointSourceComponent.__init__ catalog amp freq_ref parameters = Ok self ->
     self = SkyComponent.mk _ amp freq_ref parameters).
Proof.
  destruct (point_source_construction_outcome catalog amp freq_ref parameters)
    as [[Hok Hinv]|[Hinv (e & He & _)]].
  - rewrite Hok. split; [split; auto|]. now intros self [= <-].
  - rewrite He. split; [split; [discriminate | tauto]|]. intros self [=].
Qed.

(** X5.  The construction of a point-source component never raises an
    NsideError, whatever the shapes: no pixel count is asked of a point
    source.  Nor does astropy's UnitConversionError escape.  What is left is
    a TypeError, a ValueError, a UnitsError, an IndexError (an [amp] or a
    catalog with too few axes) or an AttributeError (a class without
    catalog). *)
Theorem point_source_construction_errors (catalog : option (list nat))
    (amp freq_ref : pyobj) (parameters : list (string * pyobj)) :
  PointSourceComponent.__init__ catalog amp freq_ref parameters <> Raise NsideError /\
  PointSourceComponent.__init__ catalog amp freq_ref parameters
    <> Raise UnitConversionError.
Proof.
  destruct (point_source_construction_outcome catalog amp freq_ref parameters)
    as [[Hok _]|[_ (e & He & Hk)]].
  - rewrite Hok. split; discriminate.
  - rewrite He. split; intros [= ->]; intuition discriminate.
Qed.

(** X6.  A one-dimensional [amp] whose length is the leading dimension of
    the reference frequency passes [PointSourceComponent._validate_amp]
    (nothing there looks at a second axis) and makes the construction fail
    in the catalog check with an IndexError, not with the ValueError the
    shape checks raise. *)
Theorem point_source_flat_amp (c : list nat) (k : nat) (f a : Quantity Unit)
    (S : nat) (parameters : list (string * pyobj)) :
  SkyComponent._validate_freq_ref (PyQuantity f) = Ok tt ->
  leading (shape f) = Some S ->
  shape a = [S] ->
  convertible (brightness_temperature f) (unit_div (unit_of a) sr)
    DEFAULT_OUTPUT_UNIT ->
  second c = Some k ->
  PointSourceComponent._validate_amp
    (SkyComponent.mk _ (PyQuantity a) (PyQuantity f) parameters) (PyQuantity a)
  = Ok tt /\
  PointSourceComponent.__init__ (Some c) (PyQuantity a) (PyQuantity f) parameters
  = Raise IndexError.
Proof.
  intros Hf HS Ha Hc Hk.
  set (self := SkyComponent.mk _ (PyQuantity a) (PyQuantity f) parameters).
  assert (Hamp : PointSourceComponent._validate_amp self (PyQuantity a) = Ok tt).
  { destruct (point_source_amp_cases self (PyQuantity a) f eq_refl Hf)
      as [[Hn _]|[(a' & [= <-] & Hsh & _)|[(a' & [= <-] & _ & Hl & _)
         |[(a' & [= <-] & _ & Hcv & _)|[(a' & [= <-] & _ & Hcv & _)
         |(a' & [= <-] & _ & _ & He)]]]]].
    - exfalso. apply Hn. now exists a.
    - congruence.
    - exfalso. apply Hl. unfold leading. rewrite Ha. exact (eq_sym HS).
    - exfalso. destruct Hcv as (_ & _ & Hb). apply Hb.
      apply validate_freq_ref_ok in Hf. destruct Hf as (q & [= <-] & Hs & _).
      apply broadcastable_rows; rewrite ?Ha; auto; discriminate.
    - contradiction.
    - exact He. }
  split; [exact Hamp|].
  unfold PointSourceComponent.__init__, SkyComponent.__init__.
  rewrite Hf. cbn [bind]. fold self. rewrite Hamp. cbn [bind].
  unfold PointSourceComponent._validate_catalog, index, second in *.
  rewrite Hk. cbn [bind SkyComponent.amp self shape_attr]. now rewrite Ha.
Qed.

End WithAstropy.

End ConstructionSpec.

(** * Line components and [__repr__] ([base_components.py]) *)

Module Lines.

Import Validation.

Module LineComponent.

(** [LineComponent._validate_amp]; [km_s] is [Unit("km/s")]. *)
Definition _validate_amp `{Astropy} (km_s : Unit) (self : SkyComponent.t)
    (value : pyobj) : result unit :=
  match value with
  | PyQuantity v =>
      v0 <- index (shape v) 0 ;;
      freq_ref_shape <- shape_attr (SkyComponent.freq_ref self) ;;
      f0 <- index freq_ref_shape 0 ;;
      if negb (v0 =? f0) then Raise ValueError
      else
        match SkyComponent.freq_ref self with
        | PyQuantity fr => checked_output_unit (unit_div (unit_of v) km_s) (shape v) fr
        | _ => Raise AttributeError
        end
  | _ => Raise TypeError
  end.

(** [LineComponent.__init__]: the parameters are stored and not validated. *)
Definition __init__ `{Astropy} (km_s : Unit) (amp freq_ref : pyobj)
    (spectral_parameters : list (string * pyobj)) : result SkyComponent.t :=
  self <- SkyComponent.__init__ amp freq_ref spectral_parameters ;;
  _validate_amp km_s self amp ;;;
  Ok self.

End LineComponent.

End Lines.

Module Representation.

Import Validation.

Local Open Scope string_scope.

(** [s[:-2]]. *)
Definition drop_last_two (s : string) : string :=
  substring 0 (String.length s - 2) s.

Module SkyComponent.

(** [SkyComponent.__repr__]; [class_name] is [self.__class__.__name__]. *)
Definition __repr__ `{Astropy} (class_name : string) (self : Validation.SkyComponent.t)
    : string :=
  let main_repr := class_name in
  let main_repr := main_repr ++ "(" in
  let extra_repr :=
    fold_left (fun extra_repr key => extra_repr ++ (key ++ ", "))
      (map fst (Validation.SkyComponent.spectral_parameters self)) "" in
  let extra_repr :=
    match extra_repr with
    | EmptyString => extra_repr
    | _ => drop_last_two extra_repr
    end in
  let main_repr := main_repr ++ extra_repr in
  main_repr ++ ")".

End SkyComponent.

End Representation.

(** * Properties of line components and of [__repr__] *)

Module LinesSpec.

Import Validation.
Import ValidationSpec.
Import Lines.

Section WithAstropy.

Context `{Astropy}.

Variable km_s : Unit.

Lemma line_amp_cases (self : SkyComponent.t) (amp : pyobj) (fr : Quantity Unit) :
  SkyComponent.freq_ref self = PyQuantity fr ->
  SkyComponent._validate_freq_ref (SkyComponent.freq_ref self) = Ok tt ->
  (LineComponent._validate_amp km_s self amp = Ok tt /\
   exists a, amp = PyQuantity a /\ leading (shape a) = leading (shape fr) /\
             converts fr (shape a) (unit_div (unit_of a) km_s)) \/
  (~ (exists a, amp = PyQuantity a /\ leading (shape a) = leading (shape fr) /\
                converts fr (shape a) (unit_div (unit_of a) km_s)) /\
   exists e, LineComponent._validate_amp km_s self amp = Raise e).
Proof.
  intros Hfr Hok. apply validate_freq_ref_ok, valid_freq_ref_leading in Hok.
  destruct Hok as (q & f0 & Hq & Hf0 & _). rewrite Hfr in Hq. injection Hq as <-.
  destruct amp as [| |a];
    try (right; split; [intros (? & [=] & _) | eexists; reflexivity]).
  unfold LineComponent._validate_amp. rewrite Hfr.
  cbn [shape_attr bind]. rewrite (index_leading _ _ Hf0), Hf0. cbn [bind].
  unfold leading, index. destruct (shape a) as [|a0 rest] eqn:Hs; cbn [nth_error bind].
  - right. split; [|eexists; reflexivity].
    intros (a' & [= <-] & Hl & _). rewrite Hs in Hl. discriminate.
  - destruct (Nat.eqb_spec a0 f0) as [->|Hne]; cbn [negb].
    + rewrite <- Hs.
      destruct (checked_output_unit_cases (unit_div (unit_of a) km_s) (shape a) fr)
        as [[Hc He]|[[Hc He]|[Hc He]]]; rewrite He.
      * left. split; [reflexivity|]. exists a. rewrite Hs at 1. auto.
      * right. split; [|eexists; reflexivity].
        intros (a' & [= <-] & _ & Hc'). exact (converts_or_stops _ _ _ Hc' Hc).
      * right. split; [|eexists; reflexivity].
        intros (a' & [= <-] & _ & Hc'). apply Hc.
        exact (converts_convertible _ _ _ Hc').
    + right. split; [|eexists; reflexivity].
      intros (a' & [= <-] & Hl & _). rewrite Hs in Hl. simpl in Hl. congruence.
Qed.

(** The invariant a line component is built on: nothing is asked of the
    spectral parameters or of a second axis. *)
Definition line_invariant (amp freq_ref : pyobj) : Prop :=
  exists f a,
    freq_ref = PyQuantity f /\ freq_ref_shape f /\
    convertible spectral (unit_of f) DEFAULT_FREQ_UNIT /\
    amp = PyQuantity a /\ leading (shape a) = leading (shape f) /\
    converts f (shape a) (unit_div (unit_of a) km_s).

(** X7.  The construction of a line component succeeds exactly when the
    reference frequency is valid and [amp] is a Quantity with its leading
    dimension whose unit divided by km/s converts to the default output
    unit (by a plain scaling, or through the equivalence when the shape of
    [amp] broadcasts against that of the reference frequency).  The spectral
    parameters are stored without a look: whether the
    construction succeeds does not depend on them, and objects that are no
    Quantities are accepted as parameters. *)
Theorem line_construction_iff (amp freq_ref : pyobj)
    (parameters : list (string * pyobj)) :
  (succeeds (LineComponent.__init__ km_s amp freq_ref parameters) = true <->
   line_invariant amp freq_ref) /\
  (forall parameters',
     succeeds (LineComponent.__init__ km_s amp freq_ref parameters')
     = succeeds (LineComponent.__init__ km_s amp freq_ref parameters)) /\
  (forall self, LineComponent.__init__ km_s amp freq_ref parameters = Ok self ->
     self = SkyComponent.mk _ amp freq_ref parameters).
Proof.
  assert (Hiff : forall ps,
    (LineComponent.__init__ km_s amp freq_ref ps
     = Ok (SkyComponent.mk _ amp freq_ref ps) /\ line_invariant amp freq_ref) \/
    (~ line_invariant amp freq_ref /\
     exists e, LineComponent.__init__ km_s amp freq_ref ps = Raise e)).
  { intros ps. set (self := SkyComponent.mk _ amp freq_ref ps).
    unfold LineComponent.__init__, SkyComponent.__init__.
    destruct (validate_freq_ref_cases freq_ref)
      as [[Hn He]|[(f & Hf & Hs & He)|[(f & Hf & Hs & Hc & He)|[Hv He]]]];
      rewrite He; cbn [bind].
    1-3: right; split;
      [ intros (f' & a & Hf' & Hs' & Hc' & _); subst freq_ref;
        try (apply Hn; now exists f'); injection Hf' as <-; tauto
      | eexists; reflexivity ].
    fold self. destruct Hv as (f & Hf & Hs & Hc).
    assert (Hfr : SkyComponent.freq_ref self = PyQuantity f) by exact Hf.
    assert (Hok : SkyComponent._validate_freq_ref (SkyComponent.freq_ref self) = Ok tt)
      by exact He.
    destruct (line_amp_cases self amp f Hfr Hok) as [[Ha Hinv]|[Hinv (e & Ha)]];
      rewrite Ha; cbn [bind].
    - left. split; [reflexivity|]. destruct Hinv as (a & Ha' & Hl & Hcv).
      exists f, a. auto 10.
    - right. split; [|eexists; reflexivity].
      intros (f' & a & Hf' & _ & _ & Ha' & Hl & Hcv).
      rewrite Hf in Hf'. injection Hf' as <-. apply Hinv. now exists a. }
  split; [|split].
  - destruct (Hiff parameters) as [[Hok Hinv]|[Hinv (e & He)]].
    + rewrite Hok. split; auto.
    + rewrite He. split; [discriminate | tauto].
  - intros ps'.
    destruct (Hiff parameters) as [[Hok Hinv]|[Hinv (e & He)]];
      destruct (Hiff ps') as [[Hok' Hinv']|[Hinv' (e' & He')]];
      rewrite ?Hok, ?He, ?Hok', ?He'; try reflexivity; tauto.
  - intros self Hself. destruct (Hiff parameters) as [[Hok _]|[_ (e & He)]];
      congruence.
Qed.

End WithAstropy.

End LinesSpec.

Module RepresentationSpec.

Import Validation.
Import Representation.

Local Open Scope string_scope.

Lemma append_assoc (a b c : string) : (a ++ b) ++ c = a ++ (b ++ c).
Proof. induction a as [|x a IH]; simpl; [reflexivity | now rewrite IH]. Qed.

Lemma append_empty_r (a : string) : a ++ "" = a.
Proof. induction a as [|x a IH]; simpl; [reflexivity | now rewrite IH]. Qed.

Lemma length_append (a b : string) :
  String.length (a ++ b) = String.length a + String.length b.
Proof. induction a as [|x a IH]; simpl; [reflexivity | now rewrite IH]. Qed.

Lemma substring_all (a : string) : substring 0 (String.length a) a = a.
Proof. induction a as [|x a IH]; simpl; [reflexivity | now rewrite IH]. Qed.

Lemma substring_append (a b : string) (n : nat) :
  substring 0 (String.length a + n) (a ++ b) = a ++ substring 0 n b.
Proof. induction a as [|x a IH]; simpl; [reflexivity | now rewrite IH]. Qed.

(** Every key followed by [", "]: what the loop of [__repr__] builds. *)
Fixpoint suffixed (keys : list string) : string :=
  match keys with
  | [] => ""
  | key :: keys' => (key ++ ", ") ++ suffixed keys'
  end.

Lemma loop_suffixed (keys : list string) (acc : string) :
  fold_left (fun extra_repr key => extra_repr ++ (key ++ ", ")) keys acc
  = acc ++ suffixed keys.
Proof.
  revert acc. induction keys as [|key keys IH]; intros acc; simpl.
  - now rewrite append_empty_r.
  - now rewrite IH, append_assoc.
Qed.

Lemma length_suffixed (key : string) (keys : list string) :
  2 <= String.length (suffixed (key :: keys)).
Proof. simpl. rewrite !length_append. simpl. lia. Qed.

Lemma drop_last_two_suffixed (key : string) (keys : list string) :
  drop_last_two (suffixed (key :: keys)) = concat ", " (key :: keys).
Proof.
  revert key. induction keys as [|key' keys IH]; intros key.
  - unfold drop_last_two. simpl. rewrite append_empty_r, length_append. simpl.
    replace (String.length key + 2 - 2) with (String.length key + 0) by lia.
    now rewrite substring_append, append_empty_r.
  - unfold drop_last_two in *. specialize (IH key').
    pose proof (length_suffixed key' keys) as Hlen.
    change (suffixed (key :: key' :: keys))
      with ((key ++ ", ") ++ suffixed (key' :: keys)).
    rewrite length_append.
    replace (String.length (key ++ ", ") + String.length (suffixed (key' :: keys)) - 2)
      with (String.length (key ++ ", ") + (String.length (suffixed (key' :: keys)) - 2))
      by lia.
    rewrite substring_append, IH.
    change (concat ", " (key :: key' :: keys))
      with (key ++ ", " ++ concat ", " (key' :: keys)).
    now rewrite append_assoc.
Qed.

Section WithAstropy.

Context `{Astropy}.

(** X8.  [__repr__] is the class name followed by the names of the spectral
    parameters, in the order of the dictionary, separated by [", "] and put
    in parentheses: the loop that appends [", "] after every name and the
    slice that removes the last two characters amount to a join, and a
    component without parameters prints as the class name and [()]. *)
Theorem repr_is_join (class_name : string) (self : Validation.SkyComponent.t) :
  SkyComponent.__repr__ class_name self
  = class_name ++ "(" ++
    concat ", " (map fst (Validation.SkyComponent.spectral_parameters self)) ++ ")".
Proof.
  unfold SkyComponent.__repr__. cbv zeta. rewrite loop_suffixed. cbn [append].
  destruct (map fst (Validation.SkyComponent.spectral_parameters self))
    as [|key keys].
  - simpl. now rewrite !append_assoc.
  - pose proof (length_suffixed key keys) as Hlen.
    rewrite <- (drop_last_two_suffixed key keys).
    destruct (suffixed (key :: keys)) as [|x rest] eqn:Hs; [simpl in Hlen; lia|].
    now rewrite !append_assoc.
Qed.

End WithAstropy.

End RepresentationSpec.

(** * Chain context ([sky/_chain_context.py]) *)

Module ChainContext.

Import Validation.

(** The exceptions of the validation layer and the KeyError of a dictionary
    lookup. *)
Inductive pyexn : Type :=
| Std (e : exn)
| KeyError.

Inductive outcome (A : Type) : Type :=
| Return (a : A)
| Throw (e : pyexn).

Arguments Return {A} a.
Arguments Throw {A} e.

Definition and_then {A B : Type} (m : outcome A) (k : A -> outcome B) : outcome B :=
  match m with
  | Return a => k a
  | Throw e => Throw e
  end.

Notation "x <-- m ;; k" := (and_then m (fun x => k))
  (at level 61, m at next level, right associativity).

(** A dictionary: the entries in insertion order, each key once. *)
Fixpoint lookup {V : Type} (key : string) (args : list (string * V)) : option V :=
  match args with
  | [] => None
  | (k, v) :: rest => if String.eqb k key then Some v else lookup key rest
  end.

(** [args[key] = v]: the value of a key that is there is replaced where it
    stands, a new key goes to the end. *)
Fixpoint setitem {V : Type} (key : string) (v : V) (args : list (string * V))
    : list (string * V) :=
  match args with
  | [] => [(key, v)]
  | (k, w) :: rest =>
      if String.eqb k key then (k, v) :: rest else (k, w) :: setitem key v rest
  end.

(** [args]: a dictionary from names to Quantities. *)
Definition dict `{Astropy} : Type := list (string * Quantity Unit).

(** [args[key]]. *)
Definition getitem `{Astropy} (key : string) (args : dict) : outcome (Quantity Unit) :=
  match lookup key args with
  | Some v => Return v
  | None => Throw KeyError
  end.

(** The number of entries of an array of a given shape. *)
Definition size (s : list nat) : nat := fold_right Nat.mul 1 s.

(** [q.to(unit)], without equivalencies. *)
Definition to `{Astropy} (target : Unit) (q : Quantity Unit) : outcome (Quantity Unit) :=
  if directly_convertible (unit_of q) target
  then Return (mkQuantity (shape q) target)
  else Throw (Std UnitConversionError).

(** [q[0]]: astropy's TypeError for a scalar Quantity, IndexError for an
    empty first axis. *)
Definition first `{Astropy} (q : Quantity Unit) : outcome (Quantity Unit) :=
  match shape q with
  | [] => Throw (Std TypeError)
  | 0 :: _ => Throw (Std IndexError)
  | _ :: rest => Return (mkQuantity rest (unit_of q))
  end.

(** [q.reshape(new)]: ValueError unless the number of entries is kept. *)
Definition reshape `{Astropy} (new : list nat) (q : Quantity Unit)
    : outcome (Quantity Unit) :=
  if size (shape q) =? size new
  then Return (mkQuantity new (unit_of q))
  else Throw (Std ValueError).

(** [q.shape[0]]. *)
Definition shape0 `{Astropy} (q : Quantity Unit) : outcome nat :=
  match shape q with
  | [] => Throw (Std IndexError)
  | n :: _ => Return n
  end.

Module FreqRefContext.

(** [FreqRefContext.__call__]; [GHz] is [Unit("GHz")]. *)
Definition __call__ `{Astropy} (GHz : Unit) (args : dict) : outcome dict :=
  match lookup "freq_ref" args with
  | Some freq_ref =>
      freq_ref <-- to GHz freq_ref ;;
      let args := setitem "freq_ref" freq_ref args in
      amp <-- getitem "amp" args ;;
      amp_dim <-- shape0 amp ;;
      if amp_dim =? 1 then
        freq_ref <-- getitem "freq_ref" args ;;
        freq_ref0 <-- first freq_ref ;;
        freq_ref <-- reshape [1; 1] freq_ref0 ;;
        Return (setitem "freq_ref" freq_ref args)
      else if amp_dim =? 3 then
        freq_ref <-- getitem "freq_ref" args ;;
        freq_ref <-- reshape [3; 1] freq_ref ;;
        Return (setitem "freq_ref" freq_ref args)
      else Throw (Std ValueError)
  | None => Return args
  end.

End FreqRefContext.

Module RadioContext.

(** [RadioContext.__call__]. *)
Definition __call__ `{Astropy} (args : dict) : outcome dict :=
  alpha <-- getitem "alpha" args ;;
  alpha0 <-- first alpha ;;
  Return (setitem "alpha" alpha0 args).

End RadioContext.

(** The contexts of [h5/context.py]. *)
Module h5.

Module FreqRefContext.

(** [FreqRefContext.context]. *)
Definition context `{Astropy} (GHz : Unit) (args : dict) : outcome dict :=
  match lookup "freq_ref" args with
  | Some freq_ref =>
      freq_ref <-- to GHz freq_ref ;;
      let args := setitem "freq_ref" freq_ref args in
      amp <-- getitem "amp" args ;;
      amp_dim <-- shape0 amp ;;
      if negb (amp_dim =? 3) then
        freq_ref <-- getitem "freq_ref" args ;;
        freq_ref0 <-- first freq_ref ;;
        Return (setitem "freq_ref" freq_ref0 args)
      else Return args
  | None => Return args
  end.

End FreqRefContext.

End h5.

Module MapToScalarContext.

Section Datasets.

Context `{Astropy}.

(** The entries of the datasets; [np.unique] compares them. *)
Variable elt : Type.
Variable elt_eq_dec : forall x y : elt, {x = y} + {x <> y}.

(** A Quantity with its entries, in row-major order. *)
Record dataset : Type := mkDataset {
  unit_of : Unit;
  shape : list nat;
  data : list elt }.

Definition np_size (value : dataset) : nat := size (shape value).
Definition np_ndim (value : dataset) : nat := List.length (shape value).

(** [np.unique]: the distinct entries of the flattened array.  numpy returns
    them sorted; only results of length one are put to use below, where the
    order says nothing. *)
Definition unique (entries : list elt) : list elt := nodup elt_eq_dec entries.

(** [n] consecutive runs of [width] entries. *)
Fixpoint runs (n width : nat) (entries : list elt) : list (list elt) :=
  match n with
  | 0 => []
  | S n => firstn width entries :: runs n width (skipn width entries)
  end.

(** [for col in value]: the items along the first axis. *)
Definition items (value : dataset) : list (list elt) :=
  runs (hd 0 (shape value)) (size (tl (shape value))) (data value).

(** The shape of [Quantity(uniques)] for a list of arrays of length one:
    (S, 1), and (0,) for the empty list. *)
Definition stacked (uniques : list (list elt)) : list nat :=
  match uniques with
  | [] => [0]
  | _ :: _ => [List.length uniques; 1]
  end.

(** The body of the loop: the replacement of the value, if there is one. *)
Definition replacement (value : dataset) : option dataset :=
  if 1 <? np_ndim value then
    let uniques := map unique (items value) in
    let all_cols_are_unique := forallb (fun col => List.length col =? 1) uniques in
    if all_cols_are_unique
    then Some (mkDataset (unit_of value) (stacked uniques) (List.concat uniques))
    else None
  else
    let uniques := unique (data value) in
    let all_cols_are_unique := List.length uniques =? 1 in
    if all_cols_are_unique
    then Some (mkDataset (unit_of value) [List.length uniques] uniques)
    else None.

(** The loop over [args.items()], assigning to [args[key]] on the way. *)
Definition loop (IGNORED_ARGS : list string) (args : list (string * dataset))
    : list (string * dataset) :=
  fold_left
    (fun args item =>
       let '(key, value) := item in
       if negb (existsb (String.eqb key) IGNORED_ARGS) && (1 <? np_size value)
       then match replacement value with
            | Some scalar => setitem key scalar args
            | None => args
            end
       else args)
    args args.

(** [MapToScalarContext.__call__] of [sky/_chain_context.py]. *)
Definition __call__ (args : list (string * dataset)) : list (string * dataset) :=
  loop ["amp"; "freq_ref"]%string args.

(** [MapToScalarContext.context] of [h5/context.py], which spares no key. *)
Definition context (args : list (string * dataset)) : list (string * dataset) :=
  loop [] args.

End Datasets.

Arguments mkDataset {_ elt}.
Arguments unit_of {_ elt}.
Arguments shape {_ elt}.
Arguments data {_ elt}.
Arguments np_size {_ elt}.
Arguments np_ndim {_ elt}.
Arguments runs {elt}.
Arguments stacked {elt}.
Arguments items {_ elt}.

End MapToScalarContext.

End ChainContext.

(** * Properties of the chain context *)

Module ChainContextSpec.

Import Validation.
Import ValidationSpec.
Import ConstructionSpec.
Import ChainContext.

Section Dictionaries.

Variable V : Type.

Lemma lookup_setitem_same (key : string) (v : V) (args : list (string * V)) :
  lookup key (setitem key v args) = Some v.
Proof.
  induction args as [|[k w] args IH]; simpl.
  - now rewrite String.eqb_refl.
  - destruct (String.eqb k key) eqn:Hk; simpl; now rewrite Hk.
Qed.

Lemma lookup_setitem_other (key key' : string) (v : V) (args : list (string * V)) :
  key' <> key -> lookup key' (setitem key v args) = lookup key' args.
Proof.
  intros Hne. induction args as [|[k w] args IH]; simpl.
  - apply String.eqb_neq in Hne. now rewrite String.eqb_sym, Hne.
  - destruct (String.eqb k key) eqn:Hk; simpl.
    + apply String.eqb_eq in Hk. subst k.
      apply String.eqb_neq in Hne. now rewrite String.eqb_sym, Hne.
    + now rewrite IH.
Qed.

Lemma setitem_setitem (key : string) (v w : V) (args : list (string * V)) :
  setitem key v (setitem key w args) = setitem key v args.
Proof.
  induction args as [|[k u] args IH]; simpl.
  - now rewrite String.eqb_refl.
  - destruct (String.eqb k key) eqn:Hk; simpl; rewrite Hk; [reflexivity|].
    now rewrite IH.
Qed.

Lemma keys_setitem (key : string) (v w : V) (args : list (string * V)) :
  lookup key args = Some w -> map fst (setitem key v args) = map fst args.
Proof.
  induction args as [|[k u] args IH]; simpl; [discriminate|].
  destruct (String.eqb k key) eqn:Hk; simpl; [reflexivity|].
  intros Hl. now rewrite IH.
Qed.

End Dictionaries.

Arguments lookup_setitem_same {V}.
Arguments lookup_setitem_other {V}.
Arguments setitem_setitem {V}.
Arguments keys_setitem {V}.

Section WithAstropy.

Context `{Astropy}.

(** The shape of the entry under [key], [[]] when there is none. *)
Definition shape_of (key : string) (args : dict) : list nat :=
  match lookup key args with
  | Some q => shape q
  | None => []
  end.

(** What [FreqRefContext] asks of its input when there is a [freq_ref]. *)
Definition reshapable (GHz : Unit) (args : dict) (f a : Quantity Unit) (S : nat)
    : Prop :=
  lookup "freq_ref" args = Some f /\
  directly_convertible (unit_of f) GHz = true /\
  lookup "amp" args = Some a /\
  leading (shape a) = Some S /\
  ((S = 1 /\ exists n rest, shape f = n :: rest /\ 0 < n /\ size rest = 1) \/
   (S = 3 /\ size (shape f) = 3)).

Lemma freq_ref_context_outcome (GHz : Unit) (args : dict) (f : Quantity Unit) :
  lookup "freq_ref" args = Some f ->
  (exists a S, reshapable GHz args f a S /\
     FreqRefContext.__call__ GHz args
     = Return (setitem "freq_ref" (mkQuantity [S; 1] GHz) args)) \/
  ((forall a S, ~ reshapable GHz args f a S) /\
   exists e, FreqRefContext.__call__ GHz args = Throw e).
Proof.
  intros Hf. unfold FreqRefContext.__call__, to, getitem. rewrite Hf.
  destruct (directly_convertible (unit_of f) GHz) eqn:Hc; cbn [and_then].
  2: { right. split; [|eexists; reflexivity].
       intros a S (Hf' & Hc' & _). congruence. }
  rewrite lookup_setitem_same, lookup_setitem_other by discriminate.
  destruct (lookup "amp" args) as [a|] eqn:Ha; cbn [and_then].
  2: { right. split; [|eexists; reflexivity].
       intros a S (_ & _ & Ha' & _). congruence. }
  unfold shape0, leading. destruct (shape a) as [|S arest] eqn:Hs; cbn [and_then].
  { right. split; [|eexists; reflexivity].
    intros a' S (_ & _ & Ha' & Hl & _). rewrite Ha in Ha'. injection Ha' as <-.
    unfold leading in Hl. rewrite Hs in Hl. discriminate. }
  assert (Hamp : forall a' S', lookup "amp" args = Some a' ->
            leading (shape a') = Some S' -> S' = S).
  { intros a' S' Ha' Hl. rewrite Ha in Ha'. injection Ha' as <-.
    unfold leading in Hl. rewrite Hs in Hl. simpl in Hl. congruence. }
  destruct (Nat.eqb_spec S 1) as [->|H1].
  - unfold first, reshape. cbn [shape unit_of].
    destruct (shape f) as [|n rest] eqn:Hsf; cbn [and_then].
    { right. split; [|eexists; reflexivity].
      intros a' S' (_ & _ & Ha' & Hl & Hcase).
      destruct Hcase as [(_ & n' & r' & E & _)|(-> & _)];
        [rewrite Hsf in E; discriminate E|].
      specialize (Hamp _ _ Ha' Hl). discriminate Hamp. }
    destruct n as [|n]; cbn [and_then].
    { right. split; [|eexists; reflexivity].
      intros a' S' (_ & _ & Ha' & Hl & Hcase).
      destruct Hcase as [(_ & n' & r' & E & Hn & _)|(-> & _)].
      - rewrite Hsf in E. injection E as <- <-. lia.
      - specialize (Hamp _ _ Ha' Hl). discriminate Hamp. }
    cbn [shape unit_of].
    destruct (Nat.eqb_spec (size rest) (size [1; 1])) as [Hsz|Hsz]; cbn [and_then].
    + left. exists a, 1. rewrite setitem_setitem. split; [|reflexivity].
      unfold reshapable, leading. rewrite Hs. repeat split; auto.
      left. split; [reflexivity|]. exists (S n), rest. repeat split; auto. lia.
    + right. split; [|eexists; reflexivity].
      intros a' S' (_ & _ & Ha' & Hl & Hcase).
      destruct Hcase as [(_ & n' & r' & E & _ & Hr)|(-> & _)].
      * rewrite Hsf in E. injection E as <- <-. apply Hsz. exact Hr.
      * specialize (Hamp _ _ Ha' Hl). discriminate Hamp.
  - destruct (Nat.eqb_spec S 3) as [->|H3].
    + unfold reshape. cbn [shape unit_of].
      destruct (Nat.eqb_spec (size (shape f)) (size [3; 1])) as [Hsz|Hsz];
        cbn [and_then].
      * left. exists a, 3. rewrite setitem_setitem. split; [|reflexivity].
        unfold reshapable, leading. rewrite Hs. repeat split; auto.
      * right. split; [|eexists; reflexivity].
        intros a' S' (_ & _ & Ha' & Hl & Hcase).
        destruct Hcase as [(-> & _)|(_ & Hr)].
        -- specialize (Hamp _ _ Ha' Hl). discriminate Hamp.
        -- apply Hsz. exact Hr.
    + right. split; [|eexists; reflexivity].
      intros a' S' (_ & _ & Ha' & Hl & Hcase).
      specialize (Hamp _ _ Ha' Hl). subst S'.
      destruct Hcase as [(-> & _)|(-> & _)]; congruence.
Qed.

(** X9.  FreqRefContext returns exactly when the dictionary has no
    [freq_ref], or when [freq_ref] converts to GHz, [amp] is there with
    leading dimension 1 or 3, and [freq_ref] has the entries to fill the new
    shape: for leading dimension 1 a non-empty first axis whose first item
    holds one entry, for 3 three entries in all. *)
Theorem freq_ref_context_returns (GHz : Unit) (args : dict) :
  (exists args', FreqRefContext.__call__ GHz args = Return args') <->
  lookup "freq_ref" args = None \/
  exists f a S, reshapable GHz args f a S.
Proof.
  destruct (lookup "freq_ref" args) as [f|] eqn:Hf.
  - destruct (freq_ref_context_outcome GHz args f Hf)
      as [(a & S & Hr & He)|(Hno & e & He)]; rewrite He; split.
    + intros _. right. exists f, a, S. exact Hr.
    + intros _. eexists. reflexivity.
    + intros (args' & E). discriminate E.
    + intros [E|(f' & a & S & Hr)]; [discriminate E|].
      exfalso. assert (f' = f) as ->.
      { destruct Hr as (Hf' & _). rewrite Hf in Hf'. congruence. }
      exact (Hno a S Hr).
  - unfold FreqRefContext.__call__. rewrite Hf. split; [now left|].
    intros _. eexists. reflexivity.
Qed.

(** X10.  What FreqRefContext returns: the keys and their order are those of
    the input, every entry but [freq_ref] is untouched, a dictionary without
    [freq_ref] comes back as it was, and a [freq_ref] that was there is now in
    GHz with shape (S, 1), S the leading dimension of [amp]. *)
Theorem freq_ref_context_result (GHz : Unit) (args args' : dict)
    (Hcall : FreqRefContext.__call__ GHz args = Return args') :
  map fst args' = map fst args /\
  (forall key, key <> "freq_ref"%string -> lookup key args' = lookup key args) /\
  (lookup "freq_ref" args = None -> args' = args) /\
  (forall f, lookup "freq_ref" args = Some f ->
     exists a S, lookup "amp" args' = Some a /\ leading (shape a) = Some S /\
       lookup "freq_ref" args' = Some (mkQuantity [S; 1] GHz)).
Proof.
  destruct (lookup "freq_ref" args) as [f|] eqn:Hf.
  - destruct (freq_ref_context_outcome GHz args f Hf)
      as [(a & S & Hr & He)|(Hno & e & He)]; rewrite He in Hcall;
      [|discriminate Hcall].
    injection Hcall as <-. destruct Hr as (_ & _ & Ha & Hl & _).
    split; [now apply keys_setitem with f|].
    split; [intros key Hk; now apply lookup_setitem_other|].
    split; [discriminate|].
    intros f' _. exists a, S. rewrite lookup_setitem_other by discriminate.
    rewrite lookup_setitem_same. auto.
  - unfold FreqRefContext.__call__ in Hcall. rewrite Hf in Hcall.
    injection Hcall as <-. repeat split; auto. discriminate.
Qed.

(** X11.  The reshaped reference frequency is one the components accept:
    when GHz converts to the default frequency unit, the [freq_ref] that
    FreqRefContext leaves in the dictionary passes
    [SkyComponent._validate_freq_ref], and its leading dimension is that of
    [amp], as the amplitude validators ask. *)
Theorem freq_ref_context_validates (GHz : Unit) (args args' : dict)
    (a f' : Quantity Unit)
    (Hcall : FreqRefContext.__call__ GHz args = Return args')
    (Hamp : lookup "amp" args' = Some a)
    (Href : lookup "freq_ref" args' = Some f')
    (HGHz : convertible spectral GHz DEFAULT_FREQ_UNIT) :
  SkyComponent._validate_freq_ref (PyQuantity f') = Ok tt /\
  leading (shape a) = leading (shape f').
Proof.
  destruct (lookup "freq_ref" args) as [f|] eqn:Hf.
  - destruct (freq_ref_context_outcome GHz args f Hf)
      as [(a0 & S & Hr & He)|(Hno & e & He)]; rewrite He in Hcall;
      [|discriminate Hcall].
    injection Hcall as <-. destruct Hr as (_ & _ & Ha & Hl & Hcase).
    rewrite lookup_setitem_same in Href. injection Href as <-.
    rewrite lookup_setitem_other in Hamp by discriminate.
    rewrite Ha in Hamp. injection Hamp as <-. split; [|now rewrite Hl].
    apply validate_freq_ref_ok. eexists. split; [reflexivity|].
    split; [|exact HGHz]. unfold freq_ref_shape. cbn [shape].
    destruct Hcase as [(-> & _)|(-> & _)]; auto.
  - unfold FreqRefContext.__call__ in Hcall. rewrite Hf in Hcall.
    injection Hcall as <-. congruence.
Qed.

(** X12.  The two versions of FreqRefContext: whenever that of
    [sky/_chain_context.py] returns, that of [h5/context.py] returns too,
    with the same keys and the same entries but for [freq_ref]; the two
    reference frequencies are in GHz and have as many entries, but the h5
    version does not reshape: it leaves the shape as it was for a leading
    dimension of 3 and drops the first axis otherwise. *)
Theorem freq_ref_versions (GHz : Unit) (args args' : dict) (f f' : Quantity Unit)
    (Hcall : FreqRefContext.__call__ GHz args = Return args')
    (Hold : lookup "freq_ref" args = Some f)
    (Hnew : lookup "freq_ref" args' = Some f') :
  exists args'' f'',
    h5.FreqRefContext.context GHz args = Return args'' /\
    map fst args'' = map fst args' /\
    (forall key, key <> "freq_ref"%string -> lookup key args'' = lookup key args') /\
    lookup "freq_ref" args'' = Some f'' /\
    unit_of f'' = unit_of f' /\
    size (shape f'') = size (shape f') /\
    (shape f'' = shape f \/ shape f'' = tl (shape f)).
Proof.
  destruct (freq_ref_context_outcome GHz args f Hold)
    as [(a & S & Hr & He)|(_ & e & He)]; rewrite He in Hcall;
    [|discriminate Hcall].
  injection Hcall as <-. rewrite lookup_setitem_same in Hnew.
  injection Hnew as <-.
  destruct Hr as (_ & Hc & Ha & Hl & Hcase).
  unfold h5.FreqRefContext.context, to, getitem. rewrite Hold, Hc.
  cbn [and_then]. rewrite lookup_setitem_same, lookup_setitem_other by discriminate.
  rewrite Ha. cbn [and_then]. unfold shape0. unfold leading in Hl.
  destruct (shape a) as [|S' arest]; [discriminate Hl|].
  injection Hl as ->. cbn [and_then].
  destruct Hcase as [(-> & n & rest & Hs & Hn & Hsize)|(-> & Hsize)];
    cbn [Nat.eqb negb].
  - unfold first. cbn [shape unit_of]. rewrite Hs.
    destruct n as [|n]; [lia|]. cbn [and_then]. rewrite setitem_setitem.
    exists (setitem "freq_ref" (mkQuantity rest GHz) args), (mkQuantity rest GHz).
    rewrite lookup_setitem_same, !(keys_setitem _ _ f) by exact Hold.
    repeat split; auto.
    intros key Hk. now rewrite !lookup_setitem_other.
  - exists (setitem "freq_ref" (mkQuantity (shape f) GHz) args),
           (mkQuantity (shape f) GHz).
    rewrite lookup_setitem_same, !(keys_setitem _ _ f) by exact Hold.
    repeat split; auto.
    intros key Hk. now rewrite !lookup_setitem_other.
Qed.

(** X13.  RadioContext raises KeyError exactly when there is no [alpha];
    when it returns, the keys and the other entries are those of the input and
    [alpha] has lost its first axis and kept its unit. *)
Theorem radio_context_drops_axis (args : dict) :
  (RadioContext.__call__ args = Throw KeyError <-> lookup "alpha" args = None) /\
  (forall args', RadioContext.__call__ args = Return args' ->
     map fst args' = map fst args /\
     (forall key, key <> "alpha"%string -> lookup key args' = lookup key args) /\
     exists alpha n, lookup "alpha" args = Some alpha /\
       shape alpha = S n :: shape_of "alpha" args' /\
       option_map (@unit_of Unit) (lookup "alpha" args') = Some (unit_of alpha)).
Proof.
  unfold RadioContext.__call__, getitem, first, shape_of.
  destruct (lookup "alpha" args) as [alpha|] eqn:Ha; cbn [and_then].
  - destruct (shape alpha) as [|[|n] rest] eqn:Hs; cbn [and_then];
      (split; [split; discriminate|]); intros args' E; try discriminate E.
    injection E as <-. split; [now apply keys_setitem with alpha|].
    split; [intros key Hk; now apply lookup_setitem_other|].
    exists alpha, n. rewrite lookup_setitem_same. auto.
  - split; [tauto|]. discriminate.
Qed.

(** X14.  RadioContext followed by the point-source parameter check: the
    [alpha] that RadioContext leaves passes
    [PointSourceComponent.validate_parameter] exactly when the stored [alpha]
    had at least three axes, the second of them as long as the leading
    dimension of the component's [amp]. *)
Theorem radio_alpha_validation (self : SkyComponent.t) (a : Quantity Unit)
    (S : nat) (args args' : dict) (alpha alpha' : Quantity Unit)
    (Hamp : SkyComponent.amp self = PyQuantity a)
    (Hlead : leading (shape a) = Some S)
    (Hcall : RadioContext.__call__ args = Return args')
    (Hold : lookup "alpha" args = Some alpha)
    (Hnew : lookup "alpha" args' = Some alpha') :
  PointSourceComponent.validate_parameter self (PyQuantity alpha') = Ok tt <->
  3 <= ndim (shape alpha) /\ second (shape alpha) = Some S.
Proof.
  unfold RadioContext.__call__, getitem, first in Hcall. rewrite Hold in Hcall.
  cbn [and_then] in Hcall.
  destruct (shape alpha) as [|[|n] rest] eqn:Hs; cbn [and_then] in Hcall;
    try discriminate Hcall.
  injection Hcall as <-. rewrite lookup_setitem_same in Hnew.
  injection Hnew as <-.
  assert (Hpar : point_source_parameter S (PyQuantity (mkQuantity rest (unit_of alpha)))
                 <-> 3 <= ndim (Datatypes.S n :: rest)
                     /\ second (Datatypes.S n :: rest) = Some S).
  { unfold point_source_parameter, ndim, second, leading. cbn [List.length nth_error].
    split.
    - intros (q & [= <-] & Hn & Hl). cbn [shape] in *. split; [lia|].
      destruct rest; [discriminate Hl|exact Hl].
    - intros (Hn & Hl). eexists. split; [reflexivity|]. cbn [shape].
      split; [lia|]. destruct rest; [discriminate Hl|exact Hl]. }
  rewrite <- Hpar.
  destruct (point_source_parameter_outcome self a S
              (PyQuantity (mkQuantity rest (unit_of alpha))) Hamp Hlead)
    as [(He & Hp)|(Hp & [He|He])]; rewrite He; split; auto;
    try discriminate; contradiction.
Qed.

End WithAstropy.

End ChainContextSpec.

(** * Properties of MapToScalarContext *)

Module MapToScalarSpec.

Import ChainContext.
Import ChainContextSpec.
Import MapToScalarContext.

Section Datasets.

Context `{Validation.Astropy}.

Variable elt : Type.
Variable elt_eq_dec : forall x y : elt, {x = y} + {x <> y}.

Local Abbreviation dataset := (dataset elt).
Local Abbreviation unique := (unique elt elt_eq_dec).
Local Abbreviation replacement := (replacement elt elt_eq_dec).
Local Abbreviation loop := (loop elt elt_eq_dec).
Local Abbreviation __call__ := (__call__ elt elt_eq_dec).
Local Abbreviation context := (context elt elt_eq_dec).

(** The dictionary invariant of Python: each key once. *)
Definition distinct_keys (args : list (string * dataset)) : Prop :=
  NoDup (map fst args).

(** As many entries as the shape announces. *)
Definition well_formed (value : dataset) : Prop :=
  List.length (data value) = size (shape value).

(** What the loop leaves under [key] for the value it found there. *)
Definition settled (IGNORED_ARGS : list string) (key : string) (value : dataset)
    : dataset :=
  if negb (existsb (String.eqb key) IGNORED_ARGS) && (1 <? np_size value)
  then match replacement value with
       | Some scalar => scalar
       | None => value
       end
  else value.

(** A non-empty run of one repeated entry. *)
Definition constant (run : list elt) : Prop :=
  exists x n, run = repeat x (S n).

Lemma setitem_fresh (key : string) (v w : dataset)
    (done todo : list (string * dataset)) :
  ~ In key (map fst done) ->
  setitem key w (done ++ (key, v) :: todo) = done ++ (key, w) :: todo.
Proof.
  induction done as [|[k u] done IH]; simpl; intros Hk.
  - now rewrite String.eqb_refl.
  - destruct (String.eqb_spec k key) as [->|Hne]; [tauto|].
    rewrite IH; tauto.
Qed.

Lemma loop_from (IGNORED_ARGS : list string) (todo done : list (string * dataset)) :
  NoDup (map fst done ++ map fst todo) ->
  fold_left
    (fun args item =>
       let '(key, value) := item in
       if negb (existsb (String.eqb key) IGNORED_ARGS) && (1 <? np_size value)
       then match replacement value with
            | Some scalar => setitem key scalar args
            | None => args
            end
       else args)
    todo (done ++ todo)
  = done ++ map (fun item => (fst item, settled IGNORED_ARGS (fst item) (snd item))) todo.
Proof.
  revert done. induction todo as [|[key value] todo IH]; intros done Hnd.
  - reflexivity.
  - cbn [fold_left map fst snd].
    assert (Hfresh : ~ In key (map fst done)).
    { intros Hin. cbn [map fst] in Hnd. apply NoDup_remove_2 in Hnd.
      apply Hnd. apply in_or_app. now left. }
    assert (Hnd' : NoDup (map fst (done ++ [(key, settled IGNORED_ARGS key value)])
                          ++ map fst todo)).
    { rewrite map_app, <- app_assoc. exact Hnd. }
    specialize (IH _ Hnd'). rewrite <- !app_assoc in IH. cbn [app] in IH.
    rewrite <- IH. f_equal. unfold settled.
    destruct (negb (existsb (String.eqb key) IGNORED_ARGS) && (1 <? np_size value));
      [|reflexivity].
    destruct (replacement value) as [scalar|]; [|reflexivity].
    now apply setitem_fresh.
Qed.

(** With each key once, the loop settles every entry on its own. *)
Lemma loop_entrywise (IGNORED_ARGS : list string) (args : list (string * dataset)) :
  distinct_keys args ->
  loop IGNORED_ARGS args
  = map (fun item => (fst item, settled IGNORED_ARGS (fst item) (snd item))) args.
Proof.
  intros Hnd. exact (loop_from IGNORED_ARGS args [] Hnd).
Qed.

Lemma keys_settled (IGNORED_ARGS : list string) (args : list (string * dataset)) :
  map fst (map (fun item => (fst item, settled IGNORED_ARGS (fst item) (snd item))) args)
  = map fst args.
Proof.
  rewrite map_map. apply map_ext. reflexivity.
Qed.

Lemma lookup_settled (IGNORED_ARGS : list string) (key : string)
    (args : list (string * dataset)) :
  lookup key (map (fun item => (fst item, settled IGNORED_ARGS (fst item) (snd item))) args)
  = option_map (settled IGNORED_ARGS key) (lookup key args).
Proof.
  induction args as [|[k v] args IH]; [reflexivity|].
  cbn [map fst snd lookup]. destruct (String.eqb_spec k key) as [->|Hne];
    [reflexivity | exact IH].
Qed.

Lemma unique_repeat (x : elt) (n : nat) : unique (repeat x (S n)) = [x].
Proof.
  unfold MapToScalarContext.unique. induction n as [|n IH]; [reflexivity|].
  change (repeat x (S (S n))) with (x :: repeat x (S n)). cbn [nodup].
  destruct (in_dec elt_eq_dec x (repeat x (S n))) as [_|Hn]; [exact IH|].
  exfalso. apply Hn. now left.
Qed.

Lemma unique_singleton (run : list elt) :
  List.length (unique run) = 1 ->
  exists x n, run = repeat x (S n) /\ unique run = [x].
Proof.
  unfold MapToScalarContext.unique. intros Hlen.
  destruct (nodup elt_eq_dec run) as [|x [|y rest]] eqn:Hu; try discriminate Hlen.
  assert (Hall : Forall (eq x) run).
  { apply Forall_forall. intros y Hy. apply (nodup_In elt_eq_dec) in Hy.
    rewrite Hu in Hy. destruct Hy as [Hy|[]]. exact Hy. }
  apply Forall_eq_repeat in Hall. destruct run as [|y run]; [discriminate Hu|].
  exists x, (List.length run). split; [exact Hall | reflexivity].
Qed.

Lemma unique_constant (run : list elt) :
  (List.length (unique run) =? 1) = true <-> constant run.
Proof.
  rewrite Nat.eqb_eq. split.
  - intros Hlen. destruct (unique_singleton run Hlen) as (x & n & Hr & _).
    now exists x, n.
  - intros (x & n & ->). now rewrite unique_repeat.
Qed.

Lemma all_unique_constant (runs : list (list elt)) :
  forallb (fun col => List.length col =? 1) (map unique runs) = true
  <-> Forall constant runs.
Proof.
  rewrite forallb_forall, Forall_forall. split.
  - intros Hall run Hin. apply unique_constant. apply Hall.
    apply in_map_iff. now exists run.
  - intros Hall col Hin. apply in_map_iff in Hin. destruct Hin as (run & <- & Hin).
    apply unique_constant. now apply Hall.
Qed.

(** X15.  The body of the loop replaces a value exactly when it is constant
    along everything but its first axis: with two axes or more, when every
    item along the first axis is a run of one repeated entry; otherwise when
    the whole array is. *)
Theorem replacement_iff_constant (value : dataset) :
  (exists scalar, replacement value = Some scalar) <->
  if 1 <? np_ndim value then Forall constant (items value)
  else constant (data value).
Proof.
  unfold MapToScalarContext.replacement.
  destruct (1 <? np_ndim value).
  - rewrite <- all_unique_constant.
    destruct (forallb _ (map unique (items value))); split; try reflexivity.
    + intros _. eexists. reflexivity.
    + intros (scalar & E). discriminate E.
    + discriminate.
  - rewrite <- unique_constant.
    destruct (List.length (unique (data value)) =? 1); split; try reflexivity.
    + intros _. eexists. reflexivity.
    + intros (scalar & E). discriminate E.
    + discriminate.
Qed.

Lemma length_runs (n width : nat) (entries : list elt) :
  List.length (runs n width entries) = n.
Proof.
  revert entries. induction n as [|n IH]; intros entries; simpl; [reflexivity|].
  now rewrite IH.
Qed.

Lemma concat_runs (n width : nat) (entries : list elt) :
  List.length entries = n * width -> List.concat (runs n width entries) = entries.
Proof.
  revert entries. induction n as [|n IH]; intros entries Hlen; simpl in *.
  - now destruct entries.
  - rewrite IH; [apply firstn_skipn|]. rewrite length_skipn. lia.
Qed.

Lemma width_runs (n width : nat) (entries : list elt) :
  List.length entries = n * width ->
  Forall (fun run => List.length run = width) (runs n width entries).
Proof.
  revert entries. induction n as [|n IH]; intros entries Hlen; simpl in *.
  - constructor.
  - constructor.
    + rewrite length_firstn. lia.
    + apply IH. rewrite length_skipn. lia.
Qed.

Lemma constant_runs (width : nat) (rs : list (list elt)) :
  Forall (fun run => List.length run = width) rs ->
  Forall constant rs ->
  List.concat rs
  = flat_map (fun x => repeat x width) (List.concat (map unique rs)) /\
  List.length (List.concat (map unique rs)) = List.length rs.
Proof.
  induction 1 as [|run rs Hw _ IH]; intros Hc; [split; reflexivity|].
  inversion Hc as [|? ? (x & n & Hrun) Hrest]; subst.
  destruct (IH Hrest) as [IHc IHl]. cbn [map List.concat].
  rewrite unique_repeat. cbn [app flat_map List.length]. rewrite IHl.
  split; [|reflexivity]. rewrite <- IHc. now rewrite repeat_length.
Qed.

(** The replacement of a well-formed value holds the entry of each item,
    and repeating each of them gives the entries of the value back. *)
Lemma replacement_entries (value scalar : dataset) :
  well_formed value ->
  1 < np_size value ->
  replacement value = Some scalar ->
  unit_of scalar = unit_of value /\
  well_formed scalar /\
  (shape scalar = [hd 0 (shape value); 1] \/ shape scalar = [1]) /\
  exists width, data value = flat_map (fun x => repeat x width) (data scalar).
Proof.
  unfold well_formed, MapToScalarContext.replacement, np_ndim, np_size, items.
  intros Hwf Hsize. destruct (shape value) as [|n [|m rest]] eqn:Hs;
    cbn [List.length Nat.ltb Nat.leb hd tl].
  1-2: destruct (List.length (unique (data value)) =? 1) eqn:Hlen;
    [|discriminate]; intros [= <-]; cbn [unit_of shape data];
    apply Nat.eqb_eq in Hlen; destruct (unique_singleton _ Hlen) as (x & k & Hd & Hu);
    rewrite Hu; cbn [List.length size fold_right];
    repeat split; auto; exists (S k); cbn [flat_map]; now rewrite app_nil_r.
  set (width := size (m :: rest)) in *.
  assert (Hlen : List.length (data value) = n * width) by exact Hwf.
  destruct (forallb _ _) eqn:Hall; [|discriminate]. intros [= <-].
  apply all_unique_constant in Hall.
  destruct (constant_runs width _ (width_runs n width _ Hlen) Hall) as [Hc Hl].
  rewrite concat_runs in Hc by exact Hlen. rewrite length_runs in Hl.
  cbn [unit_of shape data].
  assert (Hst : stacked (map unique (runs n width (data value))) = [n; 1]).
  { destruct n as [|n]; [simpl in Hsize; lia|]. unfold stacked.
    cbn [runs map]. cbn [List.length]. now rewrite length_map, length_runs. }
  rewrite Hst. repeat split; auto.
  - rewrite Hl. cbn [size fold_right]. lia.
  - exists width. exact Hc.
Qed.

Lemma stacked_cons (rs : list (list elt)) :
  rs <> [] -> stacked (map unique rs) = [List.length rs; 1].
Proof.
  destruct rs as [|run rs]; [contradiction|]. intros _. unfold stacked.
  cbn [map]. cbn [List.length]. now rewrite length_map.
Qed.

Lemma unique_of_uniques (rs : list (list elt)) :
  Forall constant rs ->
  map unique (runs (List.length rs) 1 (List.concat (map unique rs)))
  = map unique rs.
Proof.
  induction 1 as [|run rs (x & n & ->) _ IH]; [reflexivity|].
  cbn [map List.length]. rewrite unique_repeat.
  cbn [List.concat app runs firstn skipn map].
  rewrite IH. reflexivity.
Qed.

(** An array of shape (S, 1) is its own replacement. *)
Lemma stacked_replacement (u : Validation.Unit) (rs : list (list elt)) :
  Forall constant rs -> rs <> [] ->
  replacement (mkDataset u [List.length rs; 1] (List.concat (map unique rs)))
  = Some (mkDataset u [List.length rs; 1] (List.concat (map unique rs))).
Proof.
  intros Hc Hne. unfold MapToScalarContext.replacement, np_ndim, items.
  cbn [shape unit_of data List.length Nat.ltb Nat.leb hd tl size fold_right].
  change (1 * 1) with 1. rewrite (unique_of_uniques rs Hc).
  rewrite (proj2 (all_unique_constant rs) Hc).
  now rewrite stacked_cons.
Qed.

(** The replacement settles on itself. *)
Lemma replacement_settled (IGNORED_ARGS : list string) (key : string)
    (value scalar : dataset) :
  replacement value = Some scalar ->
  settled IGNORED_ARGS key scalar = scalar.
Proof.
  intros Hr.
  assert (Hcases : np_size scalar <= 1 \/ replacement scalar = Some scalar).
  { revert Hr. unfold MapToScalarContext.replacement at 1.
    destruct (1 <? np_ndim value).
    - destruct (forallb _ _) eqn:Hall; [|discriminate]. intros [= <-].
      apply all_unique_constant in Hall.
      destruct (items value) as [|run rs] eqn:Hi.
      + left. unfold np_size. cbn. lia.
      + right. rewrite stacked_cons by discriminate.
        apply stacked_replacement; [exact Hall | discriminate].
    - destruct (List.length (unique (data value)) =? 1) eqn:Hlen; [|discriminate].
      intros [= <-]. left. unfold np_size. cbn [shape size fold_right].
      apply Nat.eqb_eq in Hlen. rewrite Hlen. cbn. lia. }
  unfold settled.
  destruct (negb (existsb (String.eqb key) IGNORED_ARGS)); [|reflexivity].
  cbn [andb]. destruct Hcases as [Hsize|Hsame].
  - apply Nat.ltb_ge in Hsize. now rewrite Hsize.
  - rewrite Hsame. now destruct (1 <? np_size scalar).
Qed.

Lemma settled_settled (IGNORED_ARGS : list string) (key : string) (value : dataset) :
  settled IGNORED_ARGS key (settled IGNORED_ARGS key value)
  = settled IGNORED_ARGS key value.
Proof.
  unfold settled at 2 3.
  destruct (negb (existsb (String.eqb key) IGNORED_ARGS) && (1 <? np_size value))
    eqn:Hg.
  - destruct (replacement value) as [scalar|] eqn:Hr.
    + now apply replacement_settled with value.
    + unfold settled. now rewrite Hg, Hr.
  - unfold settled. now rewrite Hg.
Qed.

Lemma settled_unit (IGNORED_ARGS : list string) (key : string) (value : dataset) :
  unit_of (settled IGNORED_ARGS key value) = unit_of value.
Proof.
  unfold settled, MapToScalarContext.replacement.
  destruct (_ && _); [|reflexivity].
  destruct (1 <? np_ndim value).
  - destruct (forallb _ _); reflexivity.
  - destruct (_ =? 1); reflexivity.
Qed.

(** X16.  On a dictionary with each key once, [MapToScalarContext.__call__]
    keeps the keys and their order, leaves [amp] and [freq_ref] as they are,
    keeps the unit of every entry, and leaves every value with at most one
    entry as it is. *)
Theorem map_to_scalar_frame (args : list (string * dataset))
    (Hkeys : distinct_keys args) :
  map fst (__call__ args) = map fst args /\
  lookup "amp" (__call__ args) = lookup "amp" args /\
  lookup "freq_ref" (__call__ args) = lookup "freq_ref" args /\
  (forall key, option_map unit_of (lookup key (__call__ args))
               = option_map unit_of (lookup key args)) /\
  (forall key value, lookup key args = Some value -> np_size value <= 1 ->
                     lookup key (__call__ args) = Some value).
Proof.
  unfold MapToScalarContext.__call__. rewrite loop_entrywise by exact Hkeys.
  rewrite keys_settled, !lookup_settled.
  split; [reflexivity|]. split; [now destruct (lookup "amp" args)|].
  split; [now destruct (lookup "freq_ref" args)|]. split.
  - intros key. rewrite lookup_settled.
    destruct (lookup key args) as [value|]; [|reflexivity].
    cbn [option_map]. now rewrite settled_unit.
  - intros key value Hl Hsize. rewrite lookup_settled, Hl. cbn [option_map].
    unfold settled. apply Nat.ltb_ge in Hsize. rewrite Hsize.
    now rewrite andb_false_r.
Qed.

(** X17.  Nothing is lost: in either version of the context, and whatever
    the ignored keys, a well-formed value is left as it is or replaced by a
    well-formed array of shape (S, 1), S the length of its first axis, or
    (1,), whose entries, each repeated the same number of times, are the
    entries of the value. *)
Theorem map_to_scalar_keeps_entries (IGNORED_ARGS : list string)
    (args : list (string * dataset)) (key : string) (value value' : dataset)
    (Hkeys : distinct_keys args)
    (Hold : lookup key args = Some value)
    (Hwf : well_formed value)
    (Hnew : lookup key (loop IGNORED_ARGS args) = Some value') :
  value' = value \/
  (well_formed value' /\
   (shape value' = [hd 0 (shape value); 1] \/ shape value' = [1]) /\
   exists width, data value = flat_map (fun x => repeat x width) (data value')).
Proof.
  rewrite loop_entrywise in Hnew by exact Hkeys.
  rewrite lookup_settled, Hold in Hnew. injection Hnew as <-.
  unfold settled. destruct (_ && _) eqn:Hg; [|now left].
  destruct (replacement value) as [scalar|] eqn:Hr; [|now left].
  apply andb_true_iff in Hg as [_ Hsize]. apply Nat.ltb_lt in Hsize.
  right. destruct (replacement_entries value scalar Hwf Hsize Hr) as (_ & Hw & Hs & Hd).
  auto.
Qed.

(** X18.  Running the context a second time changes nothing. *)
Theorem map_to_scalar_idempotent (IGNORED_ARGS : list string)
    (args : list (string * dataset)) (Hkeys : distinct_keys args) :
  loop IGNORED_ARGS (loop IGNORED_ARGS args) = loop IGNORED_ARGS args.
Proof.
  rewrite (loop_entrywise IGNORED_ARGS args Hkeys).
  rewrite loop_entrywise by (unfold distinct_keys; now rewrite keys_settled).
  rewrite map_map. apply map_ext. intros [key value]. cbn [fst snd].
  now rewrite settled_settled.
Qed.

(** X19.  The two versions of the context, that of [sky/_chain_context.py]
    and that of [h5/context.py], leave the same value under every key but
    [amp] and [freq_ref]. *)
Theorem map_to_scalar_versions (args : list (string * dataset)) (key : string)
    (Hkeys : distinct_keys args)
    (Hamp : key <> "amp"%string) (Href : key <> "freq_ref"%string) :
  lookup key (__call__ args) = lookup key (context args).
Proof.
  unfold MapToScalarContext.__call__, MapToScalarContext.context.
  rewrite !loop_entrywise by exact Hkeys. rewrite !lookup_settled.
  destruct (lookup key args) as [value|]; [|reflexivity].
  cbn [option_map]. f_equal. unfold settled. cbn [existsb].
  apply String.eqb_neq in Hamp, Href. now rewrite Hamp, Href.
Qed.

End Datasets.

End MapToScalarSpec.

(** * The free-free scaling of [components.py] *)

Module Components.

Local Open Scope R_scope.

Module FreeFree.

(** [FreeFree._get_freq_scaling]; [cosmoglobe.utils.functions.gaunt_factor]
    is not among the sources and is taken as the parameter [gaunt_factor]. *)
Definition _get_freq_scaling (gaunt_factor : R -> R -> R) (freq freq_ref Te : R) : R :=
  let gaunt_factor_ratio := gaunt_factor freq Te / gaunt_factor freq_ref Te in
  (freq_ref / freq) ^ 2 * gaunt_factor_ratio.

End FreeFree.

End Components.

(** * Laws of the frequency scalings *)

Module ScalingLaws.

Import Kernels.
Import KernelsSpec.

Local Open Scope R_scope.

Lemma Rpower_quotients (a b c z : R) :
  0 < a -> 0 < b -> 0 < c ->
  Rpower (a / c) z = Rpower (a / b) z * Rpower (b / c) z.
Proof.
  intros Ha Hb Hc. rewrite Rpower_mult_distr by (apply Rdiv_lt_0_compat; assumption).
  f_equal. field. lra.
Qed.

Lemma Rpower_increasing (x y z : R) :
  0 < z -> 0 < x -> x < y -> Rpower x z < Rpower y z.
Proof.
  intros Hz Hx Hxy. apply Rlt_Rpower_l; [exact Hz | lra].
Qed.

Lemma Rpower_decreasing (x y z : R) :
  z < 0 -> 0 < x -> x < y -> Rpower y z < Rpower x z.
Proof.
  intros Hz Hx Hxy.
  replace z with (- - z) by ring. rewrite !(Rpower_Ropp _ (- z)).
  apply Rinv_lt_contravar.
  - apply Rmult_lt_0_compat; apply exp_pos.
  - apply Rpower_increasing; lra.
Qed.

(** The power law [(freq / freq_ref) ** exponent] stays in the range of
    binary64: neither the quotient nor the power overflows or underflows,
    and the real number is what the code computes, up to rounding. *)
Definition representable (freq freq_ref exponent : R) : Prop :=
  Binary64Spec.in_range (freq / freq_ref) /\
  Binary64Spec.in_range (Rpower (freq / freq_ref) exponent).

(** X20.  Changing the reference frequency: for positive frequencies the
    scaling from [freq0] to [freq] is the scaling from [freq0] to
    [freq_ref] times the scaling from [freq_ref] to [freq], for the power
    laws of Synchrotron and Radio, as long as the three power laws stay in
    the range of binary64. *)
Theorem change_of_reference (freq freq_ref freq0 : R)
    (Hfreq : 0 < freq) (Href : 0 < freq_ref) (H0 : 0 < freq0) :
  (forall beta,
     representable freq freq0 beta ->
     representable freq freq_ref beta ->
     representable freq_ref freq0 beta ->
     Synchrotron._get_freq_scaling freq freq0 beta
     = Synchrotron._get_freq_scaling freq freq_ref beta
       * Synchrotron._get_freq_scaling freq_ref freq0 beta) /\
  (forall specind,
     representable freq freq0 (specind - 2) ->
     representable freq freq_ref (specind - 2) ->
     representable freq_ref freq0 (specind - 2) ->
     Radio._get_freq_scaling freq freq0 specind
     = Radio._get_freq_scaling freq freq_ref specind
       * Radio._get_freq_scaling freq_ref freq0 specind).
Proof.
  unfold Synchrotron._get_freq_scaling, Radio._get_freq_scaling.
  split; intros; now apply Rpower_quotients.
Qed.

(** X21.  For positive frequencies the power laws of Synchrotron and Radio
    are strictly positive, and the synchrotron power law rises with the
    frequency for a positive spectral index and falls for a negative one,
    as long as the power laws stay in the range of binary64. *)
Theorem scaling_sign_and_slope (freq freq' freq_ref : R)
    (Hfreq : 0 < freq) (Hlt : freq < freq') (Href : 0 < freq_ref) :
  (forall beta,
     representable freq freq_ref beta ->
     0 < Synchrotron._get_freq_scaling freq freq_ref beta) /\
  (forall specind,
     representable freq freq_ref (specind - 2) ->
     0 < Radio._get_freq_scaling freq freq_ref specind) /\
  (forall beta, 0 < beta ->
     representable freq freq_ref beta ->
     representable freq' freq_ref beta ->
     Synchrotron._get_freq_scaling freq freq_ref beta
     < Synchrotron._get_freq_scaling freq' freq_ref beta) /\
  (forall beta, beta < 0 ->
     representable freq freq_ref beta ->
     representable freq' freq_ref beta ->
     Synchrotron._get_freq_scaling freq' freq_ref beta
     < Synchrotron._get_freq_scaling freq freq_ref beta).
Proof.
  unfold Synchrotron._get_freq_scaling, Radio._get_freq_scaling.
  assert (Hq : 0 < freq / freq_ref) by (apply Rdiv_lt_0_compat; assumption).
  assert (Hqq : freq / freq_ref < freq' / freq_ref).
  { unfold Rdiv. apply Rmult_lt_compat_r; [now apply Rinv_0_lt_compat | exact Hlt]. }
  split; [intros; apply exp_pos|]. split; [intros; apply exp_pos|].
  split.
  - intros beta Hb _ _. now apply Rpower_increasing.
  - intros beta Hb _ _. now apply Rpower_decreasing.
Qed.



End ScalingLaws.

(** * Laws of the AME scaling *)

Module AMELaws.

Import AME.
Import AMESpec.

Local Open Scope Q_scope.

Definition positive (ys : list Q) : Prop := Forall (fun y => 0 < y) ys.

Lemma positive_row1 (t : template) (x y : Q) :
  positive (row1 t) -> In (x, y) t -> 0 < y.
Proof.
  unfold positive. rewrite Forall_forall. intros Hpos Hin. apply Hpos.
  unfold row1. apply in_map_iff. now exists (x, y).
Qed.

Lemma last_In {A : Type} (l : list A) (a : A) : In (last l a) (a :: l).
Proof.
  revert a. induction l as [|b l IH]; intros a; [now left|].
  right. destruct l as [|c l]; [now left|].
  specialize (IH b). rewrite (last_nonempty l c b a) in IH.
  exact IH.
Qed.

(** A point of the segment between two positive amplitudes is positive. *)
Lemma segment_pos (x0 y0 x1 y1 x : Q) :
  0 < y0 -> 0 < y1 -> x0 < x -> x < x1 ->
  0 < (y1 - y0) / (x1 - x0) * (x - x0) + y0.
Proof.
  intros Hy0 Hy1 Hlo Hhi.
  assert (Hd : 0 < x1 - x0) by Lqa.lra.
  assert (E : (y1 - y0) / (x1 - x0) * (x - x0) + y0
              == (y1 * (x - x0) + y0 * (x1 - x)) / (x1 - x0)).
  { field. Lqa.lra. }
  rewrite E. apply Qlt_shift_div_l; [exact Hd|].
  assert (0 < y1 * (x - x0)) by (apply Qmult_lt_0_compat; Lqa.lra).
  assert (0 < y0 * (x1 - x)) by (apply Qmult_lt_0_compat; Lqa.lra).
  Lqa.lra.
Qed.

Lemma clamped_interpolation_pos (t : template) (x y : Q) :
  positive (row1 t) -> clamped_interpolation t x y -> 0 < y.
Proof.
  intros Hpos [[(xp & Hin & _)|(l1 & x0 & y0 & x1 & y1 & l2 & -> & Hlo & Hhi & ->)]
               |[(x0 & rest & -> & _)|(p & rest & -> & _ & ->)]].
  - now apply positive_row1 with t xp.
  - apply segment_pos; try assumption.
    + apply positive_row1 with (l1 ++ (x0, y0) :: (x1, y1) :: l2) x0; [exact Hpos|].
      apply in_or_app. right. now left.
    + apply positive_row1 with (l1 ++ (x0, y0) :: (x1, y1) :: l2) x1; [exact Hpos|].
      apply in_or_app. right. right. now left.
  - apply positive_row1 with ((x0, y) :: rest) x0; [exact Hpos | now left].
  - apply positive_row1 with (p :: rest) (fst (last rest p)); [exact Hpos|].
    rewrite <- surjective_pairing.
    apply last_In.
Qed.

(** On a template that is not empty the function returns, and returns
    either the scalar 0 or the quotients of the values of [np.interp]. *)
Lemma scaling_outcomes (pt : Q * Q) (rest : template) (freq freq_ref : Q)
    (nu_p : list Q) :
  let t := pt :: rest in
  _get_freq_scaling t freq freq_ref nu_p = Ok (Scalar 0) \/
  _get_freq_scaling t freq freq_ref nu_p
  = Ok (Array (map (fun p => interp_value t (freq * (GHz 30 / p))
                             / interp_value t (freq_ref * (GHz 30 / p))) nu_p)).
Proof.
  intros t. unfold _get_freq_scaling.
  change (np.min (row0 t)) with (Ok (fold_left Qmin (row0 rest) (fst pt))).
  change (np.max (row0 t)) with (Ok (fold_left Qmax (row0 rest) (fst pt))).
  cbn [bind]. destruct (forallb _ _); cbn [negb]; [|now left].
  right. subst t.
  rewrite (mapM_total _ 0), (mapM_total _ 0);
    try (intros s _; destruct (np_interp_spec pt rest (freq_ref * s)) as (y & -> & _);
         now exists y);
    try (intros s _; destruct (np_interp_spec pt rest (freq * s)) as (y & -> & _);
         now exists y).
  cbn [bind]. rewrite !map_map, divide_map. reflexivity.
Qed.

(** X24.  [AME._get_freq_scaling] raises (the ValueError of [np.min]) on an
    empty template and on no other: with at least one sample point it
    returns, whatever the frequencies, either the scalar 0 or an array with
    one entry per entry of [nu_p]. *)
Theorem AME_scaling_outcome (spdust2 : template) (freq freq_ref : Q)
    (nu_p : list Q) :
  (spdust2 = [] ->
   _get_freq_scaling spdust2 freq freq_ref nu_p = Raise ValueError) /\
  (spdust2 <> [] ->
   _get_freq_scaling spdust2 freq freq_ref nu_p = Ok (Scalar 0) \/
   exists vs, _get_freq_scaling spdust2 freq freq_ref nu_p = Ok (Array vs) /\
              List.length vs = List.length nu_p).
Proof.
  split.
  - intros ->. reflexivity.
  - intros Hne. destruct spdust2 as [|pt rest]; [contradiction|].
    destruct (scaling_outcomes pt rest freq freq_ref nu_p) as [E|E];
      [now left | right].
    eexists. split; [exact E|]. now rewrite length_map.
Qed.

(** X25.  On a template with increasing frequencies and positive
    amplitudes, every entry of the array [AME._get_freq_scaling] returns is
    strictly positive, and every entry is 1 when [freq_ref] is [freq]. *)
Theorem AME_scaling_at_reference (spdust2 : template) (freq freq_ref : Q)
    (nu_p vs : list Q)
    (Hinc : increasing (row0 spdust2))
    (Hpos : positive (row1 spdust2))
    (Hres : _get_freq_scaling spdust2 freq freq_ref nu_p = Ok (Array vs)) :
  Forall (fun v => 0 < v) vs /\
  (freq_ref = freq -> Forall (fun v => v == 1) vs).
Proof.
  destruct spdust2 as [|pt rest]; [discriminate Hres|].
  assert (Hval : forall x, 0 < interp_value (pt :: rest) x).
  { intros x. unfold interp_value.
    destruct (np_interp_spec pt rest x) as (y & -> & Hc).
    now apply clamped_interpolation_pos with (pt :: rest) x. }
  destruct (scaling_outcomes pt rest freq freq_ref nu_p) as [E|E];
    rewrite E in Hres; [discriminate Hres|].
  injection Hres as <-. split.
  - apply Forall_map. apply Forall_forall. intros p _.
    apply Qlt_shift_div_l; [apply Hval|]. rewrite Qmult_0_l. apply Hval.
  - intros ->. apply Forall_map. apply Forall_forall. intros p _.
    pose proof (Hval (freq * (GHz 30 / p))) as Hv.
    field. intros Hz. rewrite Hz in Hv. discriminate Hv.
Qed.

End AMELaws.

(** * Laws of the dipole methods *)

Module DipoleLaws.

Import Dipole.
Import CMB.
Import DipoleSpec.

Local Open Scope R_scope.

Lemma length_subtract (a b : list R) :
  List.length b = List.length a -> List.length (subtract a b) = List.length a.
Proof.
  revert b. induction a as [|x a IH]; intros [|y b] Hlen; simpl in *;
    try discriminate; [reflexivity|].
  now rewrite IH by congruence.
Qed.

Section WithHealpy.

Context `{Healpy}.

(** X26.  A second [remove_dipole] fits on the map the first one left and
    overwrites the [dipole] attribute: afterwards [get_dipole] returns the
    second dipole only, and the original map is the stored map plus both
    dipoles. *)
Theorem remove_dipole_twice (row : list R) (rest : list (list R))
    (old : option (list R)) (gal_cut gal_cut' : R) :
  let once := hp_remove_dipole row gal_cut in
  let twice := hp_remove_dipole once gal_cut' in
  let final := CMB.mk (twice :: rest) (Some (fitted_dipole once gal_cut')) in
  (CMB.remove_dipole gal_cut >> CMB.remove_dipole gal_cut')
    (CMB.mk (row :: rest) old) = Ok (tt, [], final) /\
  (forall g,
     CMB.get_dipole g final
     = Ok (fitted_dipole once gal_cut', [overriding_gal_cut], final)) /\
  add (fitted_dipole row gal_cut) (add (fitted_dipole once gal_cut') twice) = row.
Proof.
  intros once twice final. split; [reflexivity|].
  split; [intros g; now apply get_dipole_cached|].
  unfold fitted_dipole. fold once. fold twice. subst once twice.
  now rewrite !add_subtract by apply hp_remove_dipole_length.
Qed.

(** X27.  [remove_dipole] touches the first row of [amp] and the [dipole]
    attribute and nothing else: when it returns it has warned of nothing,
    the other rows are as they were, the first row and the dipole have as
    many pixels as the first row had.  It raises (the IndexError of
    [amp[0]]) exactly when [amp] has no row, and then [get_dipole] raises
    too unless a dipole is stored. *)
Theorem remove_dipole_frame (self : CMB.t) (gal_cut : R) :
  (CMB.remove_dipole gal_cut self = Raise IndexError <-> amp self = []) /\
  (amp self = [] -> dipole self = None ->
   CMB.get_dipole gal_cut self = Raise IndexError) /\
  (forall warnings self',
     CMB.remove_dipole gal_cut self = Ok (tt, warnings, self') ->
     warnings = [] /\
     tl (amp self') = tl (amp self) /\
     option_map (@List.length R) (hd_error (amp self'))
     = option_map (@List.length R) (hd_error (amp self)) /\
     option_map (@List.length R) (dipole self')
     = option_map (@List.length R) (hd_error (amp self))).
Proof.
  destruct self as [[|row rest] d].
  - split; [split; reflexivity|]. split.
    + cbn [amp dipole]. intros _ ->. reflexivity.
    + intros warnings self' E. discriminate E.
  - rewrite remove_dipole_state. split; [split; discriminate|].
    split; [discriminate|].
    intros warnings self' [= <- <-]. cbn [amp dipole tl hd_error option_map].
    unfold fitted_dipole.
    rewrite length_subtract, hp_remove_dipole_length
      by apply hp_remove_dipole_length.
    auto.
Qed.

End WithHealpy.

End DipoleLaws.

(** * The properties at work on concrete components *)

Module Examples.

Import Validation.
Import AstropyFragment.
Import ChainContext.

Local Existing Instance units.

Local Abbreviation py q := (@PyQuantity units q).

Definition nu_ref_Hz : Quantity unit_name := mkQuantity [1] Hz.
Definition flux : Quantity unit_name := mkQuantity [1] Jy.
Definition sources : Quantity unit_name := mkQuantity [1; 5] mJy.
Definition alpha_chain : Quantity unit_name := mkQuantity [2; 1; 5] K.

(** A chain item as read from the file: [freq_ref] in Hz with one entry. *)
Definition item : @dict units :=
  [("amp"%string, ValidationSpec.map12); ("freq_ref"%string, nu_ref_Hz)].

Definition radio_item : @dict units :=
  [("amp"%string, sources); ("alpha"%string, alpha_chain)].

(** A map with three axes in Jy/sr against a reference frequency of shape
    (3, 1): the leading dimensions agree, the unit converts through the
    equivalence, and numpy cannot broadcast (3, 12, 2) against (3, 1). *)
Example diffuse_broadcast_stops :
  DiffuseComponent.__init__ (py (mkQuantity [3; 12; 2] (per Jy steradian)))
    (py (mkQuantity [3; 1] GHz)) [] = Raise ValueError.
Proof. reflexivity. Qed.

(** The same for point sources of shape (3, 5, 2) in mJy with a catalog of
    five sources. *)
Example point_source_broadcast_stops :
  PointSourceComponent.__init__ (Some [3; 5]) (py (mkQuantity [3; 5; 2] mJy))
    (py (mkQuantity [3; 1] GHz)) [] = Raise ValueError.
Proof. reflexivity. Qed.

(** With two axes the same units pass. *)
Example diffuse_broadcast_passes :
  succeeds (DiffuseComponent.__init__ (py (mkQuantity [3; 12] (per Jy steradian)))
              (py (mkQuantity [3; 1] GHz)) []) = true.
Proof. reflexivity. Qed.

(** A map in kelvin per steradian is refused with a UnitsError. *)
Lemma diffuse_construction_errors_witness :
  DiffuseComponent.__init__ (py (mkQuantity [1; 12] (per K steradian)))
    (py ValidationSpec.nu_ref) [] = Raise UnitsError /\
  (UnitsError = TypeError \/ UnitsError = ValueError \/ UnitsError = UnitsError \/
   UnitsError = NsideError).
Proof.
  split; [reflexivity|].
  exact (@ConstructionSpec.diffuse_construction_errors units
           (py (mkQuantity [1; 12] (per K steradian)))
           (py ValidationSpec.nu_ref) [] UnitsError eq_refl).
Defined.

Lemma diffuse_amp_shape_witness :
  exists a S N rest,
    SkyComponent.amp (ValidationSpec.component ValidationSpec.map12 []) = py a /\
    shape a = S :: N :: rest /\ (S = 1 \/ S = 3) /\ ValidationSpec.valid_npix N.
Proof.
  exact (@ConstructionSpec.diffuse_amp_shape units
           (py ValidationSpec.map12) (py ValidationSpec.nu_ref) []
           (ValidationSpec.component ValidationSpec.map12 []) eq_refl).
Defined.

Lemma point_source_flat_amp_witness :
  PointSourceComponent._validate_amp
    (@SkyComponent.mk units (py flux) (py ValidationSpec.nu_ref) [])
    (py flux) = Ok tt /\
  PointSourceComponent.__init__ (Some [3; 1]) (py flux)
    (py ValidationSpec.nu_ref) [] = Raise IndexError.
Proof.
  apply (@ConstructionSpec.point_source_flat_amp units [3; 1] 1 ValidationSpec.nu_ref flux 1 []);
    try reflexivity.
  right. reflexivity.
Defined.

Lemma freq_ref_context_result_witness :
  FreqRefContext.__call__ GHz item
  = Return [("amp"%string, ValidationSpec.map12);
            ("freq_ref"%string, ValidationSpec.nu_ref)] /\
  map fst [("amp"%string, ValidationSpec.map12);
           ("freq_ref"%string, ValidationSpec.nu_ref)] = map fst item.
Proof.
  split; [reflexivity|].
  exact (proj1 (@ChainContextSpec.freq_ref_context_result units GHz item _ eq_refl)).
Defined.

Lemma freq_ref_context_validates_witness :
  SkyComponent._validate_freq_ref (py ValidationSpec.nu_ref) = Ok tt /\
  ValidationSpec.leading (shape ValidationSpec.map12)
  = ValidationSpec.leading (shape ValidationSpec.nu_ref).
Proof.
  apply (@ChainContextSpec.freq_ref_context_validates units GHz item
           [("amp"%string, ValidationSpec.map12);
            ("freq_ref"%string, ValidationSpec.nu_ref)]);
    try reflexivity.
  left. reflexivity.
Defined.

Lemma radio_alpha_validation_witness :
  PointSourceComponent.validate_parameter
    (@SkyComponent.mk units (py sources) (py ValidationSpec.nu_ref) [])
    (py (mkQuantity [1; 5] K)) = Ok tt <->
  3 <= ndim (shape alpha_chain) /\ ValidationSpec.second (shape alpha_chain) = Some 1.
Proof.
  apply (@ChainContextSpec.radio_alpha_validation units
           (@SkyComponent.mk units (py sources) (py ValidationSpec.nu_ref) [])
           sources 1 radio_item
           [("amp"%string, sources); ("alpha"%string, mkQuantity [1; 5] K)]
           alpha_chain (mkQuantity [1; 5] K));
    reflexivity.
Defined.

(** A chain item whose spectral index is the same in all three pixels. *)
Definition beta_map : MapToScalarContext.dataset nat :=
  MapToScalarContext.mkDataset K [1; 3] [5; 5; 5].

Definition beta_scalar : MapToScalarContext.dataset nat :=
  MapToScalarContext.mkDataset K [1; 1] [5].

Definition amp_map : MapToScalarContext.dataset nat :=
  MapToScalarContext.mkDataset uK [1; 3] [2; 2; 2].

Definition chain_item : list (string * MapToScalarContext.dataset nat) :=
  [("amp"%string, amp_map); ("beta"%string, beta_map)].

Lemma distinct_keys_chain_item : MapToScalarSpec.distinct_keys nat chain_item.
Proof.
  unfold MapToScalarSpec.distinct_keys. simpl.
  repeat constructor; simpl; intuition discriminate.
Defined.

Lemma map_to_scalar_frame_witness :
  MapToScalarContext.__call__ nat Nat.eq_dec chain_item
  = [("amp"%string, amp_map); ("beta"%string, beta_scalar)] /\
  lookup "amp" (MapToScalarContext.__call__ nat Nat.eq_dec chain_item)
  = lookup "amp" chain_item.
Proof.
  split; [reflexivity|].
  exact (proj1 (proj2 (@MapToScalarSpec.map_to_scalar_frame units nat Nat.eq_dec
                         chain_item distinct_keys_chain_item))).
Defined.

Lemma map_to_scalar_keeps_entries_witness :
  beta_scalar = beta_map \/
  (MapToScalarSpec.well_formed nat beta_scalar /\
   (MapToScalarContext.shape beta_scalar
    = [hd 0 (MapToScalarContext.shape beta_map); 1]
    \/ MapToScalarContext.shape beta_scalar = [1]) /\
   exists width,
     MapToScalarContext.data beta_map
     = flat_map (fun x => repeat x width) (MapToScalarContext.data beta_scalar)).
Proof.
  exact (@MapToScalarSpec.map_to_scalar_keeps_entries units nat Nat.eq_dec
           ["amp"; "freq_ref"]%string chain_item "beta" beta_map beta_scalar
           distinct_keys_chain_item eq_refl eq_refl eq_refl).
Defined.

Lemma map_to_scalar_idempotent_witness :
  MapToScalarContext.loop nat Nat.eq_dec []
    (MapToScalarContext.loop nat Nat.eq_dec [] chain_item)
  = MapToScalarContext.loop nat Nat.eq_dec [] chain_item.
Proof.
  exact (@MapToScalarSpec.map_to_scalar_idempotent units nat Nat.eq_dec []
           chain_item distinct_keys_chain_item).
Defined.

Lemma map_to_scalar_versions_witness :
  lookup "beta" (MapToScalarContext.__call__ nat Nat.eq_dec chain_item)
  = lookup "beta" (MapToScalarContext.context nat Nat.eq_dec chain_item).
Proof.
  apply (@MapToScalarSpec.map_to_scalar_versions units nat Nat.eq_dec
           chain_item "beta" distinct_keys_chain_item); discriminate.
Defined.

(** A linear power law between frequencies within a factor of 1e300. *)
Lemma representable_linear (freq freq_ref : R) :
  (0 < freq_ref)%R -> (1e-300 <= freq / freq_ref <= 1e300)%R ->
  ScalingLaws.representable freq freq_ref 1.
Proof.
  intros Hr Hq. unfold ScalingLaws.representable.
  rewrite Rpower_1 by lra.
  split; now apply Binary64Spec.in_range_mid.
Qed.

(** Synchrotron with spectral index 1, referred to 10 GHz through 20 GHz. *)
Lemma change_of_reference_witness :
  (Kernels.Synchrotron._get_freq_scaling 30 10 1
   = Kernels.Synchrotron._get_freq_scaling 30 20 1
     * Kernels.Synchrotron._get_freq_scaling 20 10 1)%R.
Proof.
  apply (ScalingLaws.change_of_reference 30 20 10); try lra;
    apply representable_linear; lra.
Defined.

Lemma scaling_sign_and_slope_witness :
  (Kernels.Synchrotron._get_freq_scaling 30 10 1
   < Kernels.Synchrotron._get_freq_scaling 40 10 1)%R.
Proof.
  apply (ScalingLaws.scaling_sign_and_slope 30 40 10); try lra;
    apply representable_linear; lra.
Defined.


(** A template that rises to 20 GHz and falls again. *)
Definition spdust2 : AME.template :=
  [(AME.GHz 10, 1); (AME.GHz 20, 2); (AME.GHz 40, 1)]%Q.

Definition at_reference : list Q :=
  match AME._get_freq_scaling spdust2 (AME.GHz 15) (AME.GHz 15) [AME.GHz 30; AME.GHz 20] with
  | Ok (AME.Array vs) => vs
  | _ => []
  end.

Lemma AME_scaling_at_reference_witness :
  Forall (fun v => v == 1)%Q at_reference.
Proof.
  apply (AMELaws.AME_scaling_at_reference spdust2 (AME.GHz 15) (AME.GHz 15)
           [AME.GHz 30; AME.GHz 20] at_reference).
  - repeat constructor.
  - repeat constructor.
  - vm_compute. reflexivity.
  - reflexivity.
Defined.


Lemma freq_ref_versions_witness :
  exists args'' f'',
    h5.FreqRefContext.context GHz item = Return args'' /\
    map fst args'' = map fst item /\
    lookup "freq_ref" args'' = Some f'' /\
    shape f'' = [].
Proof.
  destruct (@ChainContextSpec.freq_ref_versions units GHz item
              [("amp"%string, ValidationSpec.map12);
               ("freq_ref"%string, ValidationSpec.nu_ref)]
              nu_ref_Hz ValidationSpec.nu_ref eq_refl eq_refl eq_refl)
    as (args'' & f'' & Hc & Hk & _ & Hl & _ & _ & Hs).
  exists args'', f''. split; [exact Hc|]. split; [exact Hk|]. split; [exact Hl|].
  injection Hc as <-. injection Hl as <-. reflexivity.
Defined.

End Examples.
